(** * Persistent record store of the habit tracker (app.py)

    A shallow embedding of the data store of [app.py]: the JSON file
    [data.json], [load_data] / [save_data], and the mutating operations
    on [st.session_state.app_data]; and of what the pages compute from the
    state: the sorted task list, today's count of habits, the history of a
    habit and the text offered for download.

    Python values are modelled as JSON trees, a Python [str] as the list
    of its code points, the file system as a finite map from file names
    to file contents. *)

From Stdlib Require Import ZArith NArith List Lia Bool DecimalN DecimalFacts.
From stdpp Require Import base decidable option list strings gmap sorting.

Local Open Scope N_scope.

(** ** Text *)

(** A Python [str]: the sequence of its code points. The code points that
    the definitions below name by number: 8 to 13 are backspace, tab, line
    feed, vertical tab, form feed and carriage return, 32 the space, 34 the
    double quote, 44 the comma, 45 the minus sign, 46 the dot, 48 to 57 the
    digits, 58 the colon, 69 and 101 the letters E and e, 91 and 93 the
    square brackets, 92 the backslash, 117 the letter u, 123 and 125 the
    braces. *)
Abbreviation str := (list N).

(** A string literal of the source, code point by code point. *)
Definition lit (s : String.string) : str :=
  map Ascii.N_of_ascii (String.list_ascii_of_string s).

(** ** Python values that [json] reads and writes *)

Unset Elimination Schemes.
Inductive json : Type :=
| JNull
| JBool (b : bool)
| JInt (z : Z)
| JFloat (lexeme : str)         (* a float, kept as the text it was read from *)
| JStr (s : str)
| JList (l : list json)
| JDict (d : list (str * json)) (* insertion order, keys pairwise distinct *).
Set Elimination Schemes.

(** *** dict operations *)

(** [d.get(k)] *)
Fixpoint dict_get (k : str) (d : list (str * json)) : option json :=
  match d with
  | [] => None
  | (k', v) :: d' => if decide (k = k') then Some v else dict_get k d'
  end.

(** [d[k] = v]: an existing key keeps its place, a new key goes last. *)
Fixpoint dict_set (k : str) (v : json) (d : list (str * json)) : list (str * json) :=
  match d with
  | [] => [(k, v)]
  | (k', v') :: d' =>
      if decide (k = k') then (k, v) :: d' else (k', v') :: dict_set k v d'
  end.

Definition dict_keys (d : list (str * json)) : list str := map fst d.

(** ** The [json] module: writing

    [json.dump(data, f, indent=2, ensure_ascii=False)]: the text that the
    encoder produces (a comma between items, a colon and a space after a
    key, two spaces per nesting level, characters above U+001F written
    as they are). *)

Definition hexdig (n : N) : N := if n <? 10 then 48 + n else 87 + n.

(** One character of a string, as [ESCAPE_DCT] rewrites it. *)
Definition esc_char (c : N) : str :=
  if c =? 34 then [92; 34]                (* backslash, quote *)
  else if c =? 92 then [92; 92]           (* backslash, backslash *)
  else if c =? 10 then [92; 110]          (* backslash, n *)
  else if c =? 13 then [92; 114]          (* backslash, r *)
  else if c =? 9 then [92; 116]           (* backslash, t *)
  else if c =? 8 then [92; 98]            (* backslash, b *)
  else if c =? 12 then [92; 102]          (* backslash, f *)
  else if c <? 32 then [92; 117; 48; 48; hexdig (c / 16); hexdig (c mod 16)]
  else [c].

Definition enc_str (s : str) : str := 34 :: flat_map esc_char s ++ [34].

Fixpoint uint_str (u : Decimal.uint) : str :=
  match u with
  | Decimal.Nil => []
  | Decimal.D0 u => 48 :: uint_str u
  | Decimal.D1 u => 49 :: uint_str u
  | Decimal.D2 u => 50 :: uint_str u
  | Decimal.D3 u => 51 :: uint_str u
  | Decimal.D4 u => 52 :: uint_str u
  | Decimal.D5 u => 53 :: uint_str u
  | Decimal.D6 u => 54 :: uint_str u
  | Decimal.D7 u => 55 :: uint_str u
  | Decimal.D8 u => 56 :: uint_str u
  | Decimal.D9 u => 57 :: uint_str u
  end.

(** [str(n)] for a natural number, and [str(z)] for an integer. *)
Definition dec_N (n : N) : str := uint_str (N.to_uint n).

Definition dec_Z (z : Z) : str :=
  match z with
  | Z0 => dec_N 0
  | Zpos p => dec_N (Npos p)
  | Zneg p => 45 :: dec_N (Npos p)
  end.

(** A line break followed by the indentation of a nesting level. *)
Definition nl_indent (level : nat) : str := 10 :: repeat 32 (2 * level)%nat.

(** The text of a value at a nesting level. A float is written as the text
    it was read from, where Python writes the [repr] of its value. *)
Fixpoint enc (level : nat) (v : json) {struct v} : str :=
  match v with
  | JNull => lit "null"
  | JBool true => lit "true"
  | JBool false => lit "false"
  | JInt z => dec_Z z
  | JFloat x => x
  | JStr s => enc_str s
  | JList [] => lit "[]"
  | JList (x :: xs) =>
      91 :: nl_indent (S level) ++ enc (S level) x ++
      (fix items (xs : list json) : str :=
         match xs with
         | [] => nl_indent level ++ [93]
         | y :: ys => 44 :: nl_indent (S level) ++ enc (S level) y ++ items ys
         end) xs
  | JDict [] => lit "{}"
  | JDict ((k, x) :: kxs) =>
      123 :: nl_indent (S level) ++ enc_str k ++ [58; 32] ++ enc (S level) x ++
      (fix items (kxs : list (str * json)) : str :=
         match kxs with
         | [] => nl_indent level ++ [125]
         | (k', y) :: kys =>
             44 :: nl_indent (S level) ++ enc_str k' ++ [58; 32] ++
             enc (S level) y ++ items kys
         end) kxs
  end.

Definition json_dumps (v : json) : str := enc 0 v.

(** ** The [json] module: reading

    [json.load(f)]: the scanner of the decoder (strings in strict mode,
    numbers, the three literals and the three float names, arrays,
    objects; blanks are space, tab, line feed and carriage return). *)

Definition is_ws (c : N) : bool :=
  (c =? 32) || (c =? 9) || (c =? 10) || (c =? 13).

Fixpoint skip_ws (s : str) : str :=
  match s with
  | c :: r => if is_ws c then skip_ws r else s
  | [] => []
  end.

Fixpoint strip_prefix (p s : str) : option str :=
  match p, s with
  | [], _ => Some s
  | a :: p', b :: s' => if a =? b then strip_prefix p' s' else None
  | _ :: _, [] => None
  end.

(** *** Strings *)

Definition hexval (c : N) : option N :=
  if (48 <=? c) && (c <=? 57) then Some (c - 48)
  else if (97 <=? c) && (c <=? 102) then Some (c - 87)
  else if (65 <=? c) && (c <=? 70) then Some (c - 55)
  else None.

Definition hex4 (a b c d : N) : option N :=
  match hexval a, hexval b, hexval c, hexval d with
  | Some a, Some b, Some c, Some d => Some (((a * 16 + b) * 16 + c) * 16 + d)
  | _, _, _, _ => None
  end.

(** The one-letter escapes of the decoder's table. *)
Definition unescape (c : N) : option N :=
  if c =? 34 then Some 34
  else if c =? 92 then Some 92
  else if c =? 47 then Some 47
  else if c =? 98 then Some 8
  else if c =? 102 then Some 12
  else if c =? 110 then Some 10
  else if c =? 114 then Some 13
  else if c =? 116 then Some 9
  else None.

Definition is_high_surrogate (u : N) : bool := (55296 <=? u) && (u <=? 56319).
Definition is_low_surrogate (u : N) : bool := (56320 <=? u) && (u <=? 57343).
Definition join_surrogates (hi lo : N) : N :=
  65536 + ((hi - 55296) * 1024 + (lo - 56320)).

Definition push (c : N) (r : option (str * str)) : option (str * str) :=
  match r with
  | Some (s, rest) => Some (c :: s, rest)
  | None => None
  end.

(** [scanstring], called after the opening quote: the decoded string and
    the text after the closing quote. *)
Fixpoint scanstring (s : str) : option (str * str) :=
  match s with
  | [] => None
  | c :: r =>
      if c =? 34 then Some ([], r)
      else if c =? 92 then
        match r with
        | [] => None
        | e :: r1 =>
            if e =? 117 then
              match r1 with
              | h1 :: h2 :: h3 :: h4 :: r5 =>
                  match hex4 h1 h2 h3 h4 with
                  | None => None
                  | Some u =>
                      if is_high_surrogate u then
                        match r5 with
                        | b :: e2 :: g1 :: g2 :: g3 :: g4 :: r11 =>
                            if (b =? 92) && (e2 =? 117) then
                              match hex4 g1 g2 g3 g4 with
                              | None => None
                              | Some u2 =>
                                  if is_low_surrogate u2
                                  then push (join_surrogates u u2) (scanstring r11)
                                  else push u (scanstring r5)
                              end
                            else push u (scanstring r5)
                        | _ => push u (scanstring r5)
                        end
                      else push u (scanstring r5)
                  end
              | _ => None
              end
            else
              match unescape e with
              | Some ch => push ch (scanstring r1)
              | None => None
              end
        end
      else if c <? 32 then None
      else push c (scanstring r)
  end.

(** *** Numbers *)

Definition is_digit (c : N) : bool := (48 <=? c) && (c <=? 57).

Fixpoint span_digits (s : str) : str * str :=
  match s with
  | c :: r =>
      if is_digit c then let (d, r') := span_digits r in (c :: d, r') else ([], s)
  | [] => ([], [])
  end.

Fixpoint str_uint (s : str) : Decimal.uint :=
  match s with
  | [] => Decimal.Nil
  | c :: r =>
      let u := str_uint r in
      if c =? 48 then Decimal.D0 u
      else if c =? 49 then Decimal.D1 u
      else if c =? 50 then Decimal.D2 u
      else if c =? 51 then Decimal.D3 u
      else if c =? 52 then Decimal.D4 u
      else if c =? 53 then Decimal.D5 u
      else if c =? 54 then Decimal.D6 u
      else if c =? 55 then Decimal.D7 u
      else if c =? 56 then Decimal.D8 u
      else Decimal.D9 u
  end.

(** The integer part: a single [0], or a digit from 1 to 9 and all the
    digits that follow. *)
Definition scan_int_part (s : str) : option (str * str) :=
  match s with
  | c :: r =>
      if c =? 48 then Some ([48], r)
      else if is_digit c then let (d, r') := span_digits r in Some (c :: d, r')
      else None
  | [] => None
  end.

(** The fraction: a dot and at least one digit, or nothing. *)
Definition scan_frac (s : str) : str * str :=
  match s with
  | c :: ((d :: _) as r) =>
      if (c =? 46) && is_digit d
      then let (ds, r') := span_digits r in (c :: ds, r')
      else ([], s)
  | _ => ([], s)
  end.

(** The exponent: [e] or [E], an optional sign and at least one digit, or
    nothing. *)
Definition scan_exp (s : str) : str * str :=
  match s with
  | c :: r =>
      if (c =? 101) || (c =? 69) then
        match r with
        | g :: ((d :: _) as r1) =>
            if ((g =? 43) || (g =? 45)) && is_digit d
            then let (ds, r') := span_digits r1 in (c :: g :: ds, r')
            else if is_digit g
            then let (ds, r') := span_digits r in (c :: ds, r')
            else ([], s)
        | [g] => if is_digit g then ([c; g], []) else ([], s)
        | [] => ([], s)
        end
      else ([], s)
  | [] => ([], s)
  end.

Definition scan_number (s : str) : option (json * str) :=
  let '(neg, s1) :=
    match s with
    | c :: r => if c =? 45 then (true, r) else (false, s)
    | [] => (false, s)
    end in
  match scan_int_part s1 with
  | None => None
  | Some (ip, s2) =>
      let '(fp, s3) := scan_frac s2 in
      let '(ep, s4) := scan_exp s3 in
      match fp, ep with
      | [], [] =>
          let n := Z.of_N (N.of_uint (str_uint ip)) in
          Some (JInt (if neg then (- n)%Z else n), s4)
      | _, _ => Some (JFloat ((if neg then [45] else []) ++ ip ++ fp ++ ep), s4)
      end
  end.

(** *** Values *)

(** [dict] built from the pairs of an object, in reading order. *)
Definition dict_of_pairs (kvs : list (str * json)) : list (str * json) :=
  fold_left (fun d kv => dict_set (fst kv) (snd kv) d) kvs [].

Definition literal (p : String.string) (v : json) (s : str) : option (json * str) :=
  match strip_prefix (lit p) s with
  | Some r => Some (v, r)
  | None => None
  end.

(** [scan_once] with the array and object loops; [fuel] bounds the number of
    nested calls. *)
Fixpoint parse_value (fuel : nat) (s : str) {struct fuel} : option (json * str) :=
  match fuel with
  | O => None
  | S f =>
      match s with
      | [] => None
      | c :: r =>
          if c =? 34 then
            match scanstring r with
            | Some (x, r') => Some (JStr x, r')
            | None => None
            end
          else if c =? 123 then
            match skip_ws r with
            | [] => None
            | c' :: r' =>
                if c' =? 125 then Some (JDict [], r')
                else
                  match parse_members f (c' :: r') with
                  | Some (kvs, r'') => Some (JDict (dict_of_pairs kvs), r'')
                  | None => None
                  end
            end
          else if c =? 91 then
            match skip_ws r with
            | [] => None
            | c' :: r' =>
                if c' =? 93 then Some (JList [], r')
                else
                  match parse_elems f (c' :: r') with
                  | Some (vs, r'') => Some (JList vs, r'')
                  | None => None
                  end
            end
          else if c =? 110 then literal "null" JNull s
          else if c =? 116 then literal "true" (JBool true) s
          else if c =? 102 then literal "false" (JBool false) s
          else if c =? 78 then literal "NaN" (JFloat (lit "NaN")) s
          else if c =? 73 then literal "Infinity" (JFloat (lit "Infinity")) s
          else if c =? 45 then
            match literal "-Infinity" (JFloat (lit "-Infinity")) s with
            | Some res => Some res
            | None => scan_number s
            end
          else scan_number s
      end
  end

with parse_elems (fuel : nat) (s : str) {struct fuel} : option (list json * str) :=
  match fuel with
  | O => None
  | S f =>
      match parse_value f s with
      | None => None
      | Some (v, r) =>
          match skip_ws r with
          | [] => None
          | c :: r' =>
              if c =? 93 then Some ([v], r')
              else if c =? 44 then
                match parse_elems f (skip_ws r') with
                | Some (vs, r'') => Some (v :: vs, r'')
                | None => None
                end
              else None
          end
      end
  end

with parse_members (fuel : nat) (s : str) {struct fuel}
  : option (list (str * json) * str) :=
  match fuel with
  | O => None
  | S f =>
      match s with
      | [] => None
      | q :: r =>
          if q =? 34 then
            match scanstring r with
            | None => None
            | Some (k, r1) =>
                match skip_ws r1 with
                | [] => None
                | c1 :: r2 =>
                    if c1 =? 58 then
                      match parse_value f (skip_ws r2) with
                      | None => None
                      | Some (v, r3) =>
                          match skip_ws r3 with
                          | [] => None
                          | c3 :: r4 =>
                              if c3 =? 125 then Some ([(k, v)], r4)
                              else if c3 =? 44 then
                                match parse_members f (skip_ws r4) with
                                | Some (kvs, r5) => Some ((k, v) :: kvs, r5)
                                | None => None
                                end
                              else None
                          end
                      end
                    else None
                end
            end
          else None
      end
  end.

(** [json.loads]: one value, blanks allowed around it, nothing after it.
    [None] stands for [JSONDecodeError]. *)
Definition json_loads (s : str) : option json :=
  match parse_value (2 * length s) (skip_ws s) with
  | Some (v, r) =>
      match skip_ws r with
      | [] => Some v
      | _ :: _ => None
      end
  | None => None
  end.

(** ** Python operations on these values *)

Inductive exn : Type :=
| KeyError | TypeError | AttributeError | OSError | UnicodeEncodeError.

(** The result of evaluating an expression: a value or a raised exception. *)
Inductive res (A : Type) : Type :=
| Val (a : A)
| Exc (e : exn).
Arguments Val {A} a.
Arguments Exc {A} e.

(** Sequencing of expressions that may raise. *)
Definition res_bind {A B : Type} (r : res A) (f : A -> res B) : res B :=
  match r with
  | Val a => f a
  | Exc e => Exc e
  end.

Declare Scope res_scope.
Delimit Scope res_scope with res.
Bind Scope res_scope with res.
Notation "x <- c ;; k" := (res_bind c (fun x => k))
  (at level 100, c at next level, right associativity) : res_scope.
Local Open Scope res_scope.

(** [v == s] for a [str] [s]: only an equal [str] is equal to it. *)
Definition py_eq_str (v : json) (s : str) : bool :=
  match v with
  | JStr s' => bool_decide (s' = s)
  | _ => false
  end.

(** [k in s] for two [str]: [k] occurs in [s]. *)
Fixpoint is_substring (k s : str) : bool :=
  match strip_prefix k s with
  | Some _ => true
  | None =>
      match s with
      | [] => false
      | _ :: s' => is_substring k s'
      end
  end.

(** [k in v] for a [str] [k]. *)
Definition py_contains (k : str) (v : json) : res bool :=
  match v with
  | JDict d => Val (bool_decide (k ∈ dict_keys d))
  | JList l => Val (existsb (fun x => py_eq_str x k) l)
  | JStr s => Val (is_substring k s)
  | JNull | JBool _ | JInt _ | JFloat _ => Exc TypeError
  end.

(** [v[k]] for a [str] [k]. *)
Definition py_getitem (v : json) (k : str) : res json :=
  match v with
  | JDict d =>
      match dict_get k d with
      | Some x => Val x
      | None => Exc KeyError
      end
  | _ => Exc TypeError
  end.

(** [v[k] = x] for a [str] [k]. *)
Definition py_setitem (v : json) (k : str) (x : json) : res json :=
  match v with
  | JDict d => Val (JDict (dict_set k x d))
  | _ => Exc TypeError
  end.

(** [for x in v]: the items the loop visits. *)
Definition py_iter (v : json) : res (list json) :=
  match v with
  | JList l => Val l
  | JDict d => Val (map JStr (dict_keys d))
  | JStr s => Val (map (fun c => JStr [c]) s)
  | JNull | JBool _ | JInt _ | JFloat _ => Exc TypeError
  end.

(** [v.append(x)] *)
Definition py_append (v : json) (x : json) : res json :=
  match v with
  | JList l => Val (JList (l ++ [x]))
  | _ => Exc AttributeError
  end.

(** [l.remove(x)] on a list that holds [x]: the first equal item goes. *)
Fixpoint remove_first (k : str) (l : list json) : list json :=
  match l with
  | [] => []
  | x :: l' => if py_eq_str x k then l' else x :: remove_first k l'
  end.

(** [v.remove(k)], called when [k in v] holds. *)
Definition py_remove (v : json) (k : str) : res json :=
  match v with
  | JList l => Val (JList (remove_first k l))
  | _ => Exc AttributeError
  end.

(** Truth value of a float: zero when its mantissa has no digit but [0]
    (the float is not evaluated, so underflow to zero is not seen). *)
Fixpoint float_is_zero (x : str) : bool :=
  match x with
  | [] => true
  | c :: r =>
      if (c =? 101) || (c =? 69) then true
      else if (c =? 48) || (c =? 46) || (c =? 45) then float_is_zero r
      else false
  end.

(** [bool(v)] *)
Definition py_truth (v : json) : bool :=
  match v with
  | JNull => false
  | JBool b => b
  | JInt z => negb (z =? 0)%Z
  | JFloat x => negb (float_is_zero x)
  | JStr s => negb (bool_decide (s = []))
  | JList l => negb (bool_decide (l = []))
  | JDict d => negb (bool_decide (d = []))
  end.

(** [str.isspace] for one character. *)
Definition is_space (c : N) : bool :=
  ((9 <=? c) && (c <=? 13)) || ((28 <=? c) && (c <=? 32))
  || (c =? 133) || (c =? 160) || (c =? 5760)
  || ((8192 <=? c) && (c <=? 8202))
  || (c =? 8232) || (c =? 8233) || (c =? 8239) || (c =? 8287) || (c =? 12288).

Fixpoint lstrip (s : str) : str :=
  match s with
  | c :: r => if is_space c then lstrip r else s
  | [] => []
  end.

(** [s.strip()] *)
Definition strip (s : str) : str := rev (lstrip (rev (lstrip s))).

(** ** The file system and the session *)

(** What a file holds: text (its bytes decode as UTF-8), or bytes that do
    not decode. *)
Inductive file : Type :=
| Utf8 (text : str)
| NotUtf8 (bytes : list N).

Definition DATA_FILE : str := lit "data.json".

(** [st.session_state.app_data] and the files of the app folder. *)
Record World : Type := mkWorld {
  app_data : json;
  fs : gmap str file
}.

(** What a call reads from its surroundings: the token of [uuid.uuid4()], the
    clock ([datetime.now()] as ISO text and as whole epoch seconds,
    [date.today()] as ISO text), whether [data.json] can be opened for
    writing, and whether [os.rename] of [data.json] goes through. *)
Record Env : Type := mkEnv {
  uuid4 : str;
  now_iso : str;
  now_epoch : Z;
  today_iso : str;
  disk_ok : bool;
  rename_ok : bool
}.

(** How a call ends: it returns, or an exception leaves it. The session
    state survives the exception; what the files hold after it is not
    followed. *)
Inductive outcome (A : Type) : Type :=
| Returned (a : A) (w : World)
| Raised (e : exn) (mem : json).
Arguments Returned {A} a w.
Arguments Raised {A} e mem.

Definition M (A : Type) : Type := World -> outcome A.

Definition M_bind {A B : Type} (m : M A) (f : A -> M B) : M B := fun w =>
  match m w with
  | Returned a w' => f a w'
  | Raised e mem => Raised e mem
  end.

Declare Scope M_scope.
Delimit Scope M_scope with M.
Bind Scope M_scope with M.
Notation "x <- c ;; k" := (M_bind c (fun x => k))
  (at level 100, c at next level, right associativity) : M_scope.
Notation "'do' c ;; k" := (M_bind c (fun _ => k))
  (at level 100, c at next level, right associativity) : M_scope.

Definition skip : M unit := fun w => Returned tt w.
Definition get_data : M json := fun w => Returned (app_data w) w.
Definition set_data (d : json) : M unit := fun w => Returned tt (mkWorld d (fs w)).
Definition eval {A} (r : res A) : M A := fun w =>
  match r with
  | Val a => Returned a w
  | Exc e => Raised e (app_data w)
  end.

(** ** Persistence: [load_data] and [save_data] *)

Definition k_todos : str := lit "todos".
Definition k_habits : str := lit "habits".
Definition k_id : str := lit "id".
Definition k_text : str := lit "text".
Definition k_done : str := lit "done".
Definition k_created_at : str := lit "created_at".
Definition k_name : str := lit "name".
Definition k_completed_dates : str := lit "completed_dates".

(** [default] of [load_data]; [clear_all_data] builds the same value. *)
Definition default_items : list (str * json) :=
  [(k_todos, JList []); (k_habits, JList [])].

Definition default_data : json := JDict default_items.

(** One turn of the loop [for k, v in default.items()]:
    [if k not in raw: raw[k] = v]. *)
Definition merge_default (raw : json) (kv : str * json) : res json :=
  present <- py_contains (fst kv) raw;;
  if present then Val raw else py_setitem raw (fst kv) (snd kv).

Definition merge_defaults (raw : json) : res json :=
  foldl (fun r kv => raw' <- r ;; merge_default raw' kv) (Val raw) default_items.

(** [json.load(f)] on a file opened as UTF-8 text; [None] when it raises. *)
Definition read_json (f : file) : option json :=
  match f with
  | Utf8 text => json_loads text
  | NotUtf8 _ => None
  end.

(** The body of [try] in [load_data]; [None] when an exception reaches
    [except Exception]. *)
Definition load_try (f : file) : option json :=
  match read_json f with
  | None => None
  | Some raw =>
      match merge_defaults raw with
      | Val raw' => Some raw'
      | Exc _ => None
      end
  end.

Definition backup_name (env : Env) : str :=
  DATA_FILE ++ lit ".bak." ++ dec_Z (now_epoch env).

(** [load_data()]: the value returned and the files afterwards. The
    [os.rename] in the handler is not in a [try] of its own: when it fails,
    its [OSError] leaves [load_data], and the files stay as they were. *)
Definition load_data (env : Env) (files : gmap str file)
  : res (json * gmap str file) :=
  match files !! DATA_FILE with
  | Some f =>
      match load_try f with
      | Some raw => Val (raw, files)
      | None =>
          if rename_ok env
          then Val (default_data, <[backup_name env := f]> (delete DATA_FILE files))
          else Exc OSError
      end
  | None => Val (default_data, files)
  end.

Definition is_surrogate (c : N) : bool := (55296 <=? c) && (c <=? 57343).

(** Text that the UTF-8 codec of the file accepts. *)
Definition utf8_encodable (text : str) : bool :=
  forallb (fun c => negb (is_surrogate c)) text.

(** [save_data(data)]: [open(DATA_FILE, "w", encoding="utf-8")], then
    [json.dump]. *)
Definition save_data (env : Env) (data : json) : M unit := fun w =>
  if disk_ok env then
    let text := json_dumps data in
    if utf8_encodable text
    then Returned tt (mkWorld (app_data w) (<[DATA_FILE := Utf8 text]> (fs w)))
    else Raised UnicodeEncodeError (app_data w)
  else Raised OSError (app_data w).

(** [ensure_session_state()]: [session] is [None] while the session has no
    [app_data]; what [load_data] raises leaves the call. *)
Definition ensure_session_state (env : Env) (session : option json)
    (files : gmap str file) : res World :=
  match session with
  | Some d => Val (mkWorld d files)
  | None =>
      match load_data env files with
      | Val (d, files') => Val (mkWorld d files')
      | Exc e => Exc e
      end
  end.

(** ** The record store *)

(** The dict reached as [data[k]] now holds [v] (a change made in place to
    the object that [data[k]] returned). *)
Definition store_item (k : str) (v : json) (data : json) : json :=
  match data with
  | JDict d => JDict (dict_set k v d)
  | _ => data
  end.

(** [[t for t in items if t["id"] != ident]] *)
Fixpoint without_id (ident : str) (items : list json) : res (list json) :=
  match items with
  | [] => Val []
  | t :: ts =>
      v <- py_getitem t k_id;;
      rest <- without_id ident ts;;
      Val (if py_eq_str v ident then rest else t :: rest)
  end.

(** The loop [for t in items: if t["id"] == ident: <change t>; break]:
    the items after the loop. *)
Fixpoint update_first (change : json -> res json) (ident : str)
    (items : list json) : res (list json) :=
  match items with
  | [] => Val []
  | t :: ts =>
      v <- py_getitem t k_id;;
      if py_eq_str v ident
      then (t' <- change t ;; Val (t' :: ts))
      else (ts' <- update_first change ident ts ;; Val (t :: ts'))
  end.

(** The items of a list are changed in place; what a loop over another
    kind of value visits is not part of the state. *)
Definition store_items (k : str) (container : json) (items : list json)
    (data : json) : json :=
  match container with
  | JList _ => store_item k (JList items) data
  | _ => data
  end.

(** [t["done"] = not t.get("done", False)] *)
Definition flip_done (t : json) : res json :=
  match t with
  | JDict d =>
      let done := default (JBool false) (dict_get k_done d) in
      Val (JDict (dict_set k_done (JBool (negb (py_truth done))) d))
  | _ => Exc AttributeError
  end.

(** The body of the loop of [toggle_habit_today] for the habit found:
    [if checked and today not in h["completed_dates"]: ...append(today)]
    [elif (not checked) and today in h["completed_dates"]: ...remove(today)] *)
Definition mark_today (today : str) (checked : bool) (h : json) : res json :=
  dates <- py_getitem h k_completed_dates;;
  present <- py_contains today dates;;
  if checked then
    if present then Val h
    else (dates' <- py_append dates (JStr today) ;;
          Val (store_item k_completed_dates dates' h))
  else
    if present
    then (dates' <- py_remove dates today ;;
          Val (store_item k_completed_dates dates' h))
    else Val h.

Local Open Scope M_scope.

(** [new_id()]: [str(uuid.uuid4())]. *)
Definition new_id (env : Env) : str := uuid4 env.

Definition new_todo (env : Env) (text : str) : json :=
  JDict [(k_id, JStr (new_id env)); (k_text, JStr (strip text));
         (k_done, JBool false); (k_created_at, JStr (now_iso env))].

Definition add_todo (env : Env) (text : str) : M unit :=
  if bool_decide (strip text = []) then skip
  else
    data <- get_data;;
    todos <- eval (py_getitem data k_todos);;
    todos' <- eval (py_append todos (new_todo env text));;
    do set_data (store_item k_todos todos' data) ;;
    data' <- get_data;;
    save_data env data'.

Definition delete_todo (env : Env) (todo_id : str) : M unit :=
  data <- get_data;;
  todos <- eval (py_getitem data k_todos);;
  items <- eval (py_iter todos);;
  kept <- eval (without_id todo_id items);;
  data' <- eval (py_setitem data k_todos (JList kept));;
  do set_data data' ;;
  save_data env data'.

Definition toggle_todo (env : Env) (todo_id : str) : M unit :=
  data <- get_data;;
  todos <- eval (py_getitem data k_todos);;
  items <- eval (py_iter todos);;
  items' <- eval (update_first flip_done todo_id items);;
  do set_data (store_items k_todos todos items' data) ;;
  data' <- get_data;;
  save_data env data'.

Definition new_habit (env : Env) (name : str) : json :=
  JDict [(k_id, JStr (new_id env)); (k_name, JStr (strip name));
         (k_created_at, JStr (now_iso env)); (k_completed_dates, JList [])].

Definition add_habit (env : Env) (name : str) : M unit :=
  if bool_decide (strip name = []) then skip
  else
    data <- get_data;;
    habits <- eval (py_getitem data k_habits);;
    habits' <- eval (py_append habits (new_habit env name));;
    do set_data (store_item k_habits habits' data) ;;
    data' <- get_data;;
    save_data env data'.

Definition delete_habit (env : Env) (habit_id : str) : M unit :=
  data <- get_data;;
  habits <- eval (py_getitem data k_habits);;
  items <- eval (py_iter habits);;
  kept <- eval (without_id habit_id items);;
  data' <- eval (py_setitem data k_habits (JList kept));;
  do set_data data' ;;
  save_data env data'.

Definition toggle_habit_today (env : Env) (habit_id : str) (checked : bool) : M unit :=
  data <- get_data;;
  habits <- eval (py_getitem data k_habits);;
  items <- eval (py_iter habits);;
  items' <- eval (update_first (mark_today (today_iso env) checked) habit_id items);;
  do set_data (store_items k_habits habits items' data) ;;
  data' <- get_data;;
  save_data env data'.

Definition clear_all_data (env : Env) (confirm : bool) : M unit :=
  if confirm then
    do set_data (JDict [(k_todos, JList []); (k_habits, JList [])]) ;;
    data <- get_data;;
    save_data env data
  else skip.

(** ** The records of the store

    The dicts that [add_todo] and [add_habit] build, as records, and the
    state made of such dicts. *)

Record Task : Type := mkTask {
  task_id : str;
  task_text : str;
  task_done : bool;
  task_created_at : str
}.

Record Habit : Type := mkHabit {
  habit_id : str;
  habit_name : str;
  habit_created_at : str;
  habit_completed_dates : list str
}.

Record AppState : Type := mkState {
  tasks : list Task;
  habits : list Habit
}.

Definition task_json (t : Task) : json :=
  JDict [(k_id, JStr (task_id t)); (k_text, JStr (task_text t));
         (k_done, JBool (task_done t)); (k_created_at, JStr (task_created_at t))].

Definition habit_json (h : Habit) : json :=
  JDict [(k_id, JStr (habit_id h)); (k_name, JStr (habit_name h));
         (k_created_at, JStr (habit_created_at h));
         (k_completed_dates, JList (map JStr (habit_completed_dates h)))].

Definition state_json (S : AppState) : json :=
  JDict [(k_todos, JList (map task_json (tasks S)));
         (k_habits, JList (map habit_json (habits S)))].

Definition task_ids (S : AppState) : list str := map task_id (tasks S).
Definition habit_ids (S : AppState) : list str := map habit_id (habits S).

(** The calls that the pages make on the store. *)
Inductive call : Type :=
| AddTask (text : str)
| DeleteTask (ident : str)
| ToggleTask (ident : str)
| AddHabit (name : str)
| DeleteHabit (ident : str)
| SetHabitToday (ident : str) (completed : bool)
| ClearAll (confirm : bool).

Definition run (env : Env) (c : call) : M unit :=
  match c with
  | AddTask text => add_todo env text
  | DeleteTask ident => delete_todo env ident
  | ToggleTask ident => toggle_todo env ident
  | AddHabit name => add_habit env name
  | DeleteHabit ident => delete_habit env ident
  | SetHabitToday ident completed => toggle_habit_today env ident completed
  | ClearAll confirm => clear_all_data env confirm
  end.

(** A call reaches [save_data] unless it returns at its guard. *)
Definition reaches_save (c : call) : bool :=
  match c with
  | AddTask text | AddHabit text => negb (bool_decide (strip text = []))
  | ClearAll confirm => confirm
  | _ => true
  end.

(** The session state a call leaves behind. *)
Definition mem_after {A} (o : outcome A) : json :=
  match o with
  | Returned _ w => app_data w
  | Raised _ mem => mem
  end.


(** ** The pages *)

(** [settings_page]: the text behind "Download data.json",
    [json.dumps(data, indent=2, ensure_ascii=False)]. *)
Definition export_text (w : World) : str := json_dumps (app_data w).

(** [a <= b] for two [str]: the order of the code points, the first
    difference decides. *)
Fixpoint str_le (a b : str) : bool :=
  match a, b with
  | [], _ => true
  | _ :: _, [] => false
  | x :: a', y :: b' => if x =? y then str_le a' b' else x <? y
  end.

(** [sorted]: the sort is stable, so its result is the list in the order
    [le] in which items that [le] does not tell apart keep the order they
    came in. Inserting the items one by one, from the last to the first,
    each before the first item it does not come after, builds that list. *)
Fixpoint insert_sorted {A : Type} (le : A -> A -> bool) (x : A) (l : list A)
  : list A :=
  match l with
  | [] => [x]
  | y :: l' => if le x y then x :: l else y :: insert_sorted le x l'
  end.

Definition sorted_by {A : Type} (le : A -> A -> bool) (l : list A) : list A :=
  foldr (insert_sorted le) [] l.

(** [todo_page], on task records: the order of the keys
    [(x.get("done", False), x.get("created_at", ""))], tuples of a [bool]
    and a [str], with [False] before [True]. *)
Definition todo_key_le (a b : Task) : bool :=
  if Bool.eqb (task_done a) (task_done b)
  then str_le (task_created_at a) (task_created_at b)
  else negb (task_done a).

(** [todos_sorted = sorted(todos, key=lambda x: ...)] *)
Definition todos_sorted (ts : list Task) : list Task :=
  sorted_by todo_key_le ts.

(** [habit_page], on habit records: the value of a habit's checkbox,
    [today in h.get("completed_dates", [])]. *)
Definition checked_today (today : str) (h : Habit) : bool :=
  bool_decide (today ∈ habit_completed_dates h).

(** [done_count] after the loop over the habits, when no checkbox was
    changed (what the loop draws for a habit is not followed). *)
Definition done_count (today : str) (hs : list Habit) : nat :=
  foldl (fun n h => if checked_today today h then S n else n) 0%nat hs.

(** The history of a habit: [cd = sorted(..., reverse=True)] and the dates
    shown, [cd[:10]]. *)
Definition history (h : Habit) : list str :=
  sorted_by (fun a b => str_le b a) (habit_completed_dates h).

Definition history_shown (h : Habit) : list str := take 10 (history h).

(** * Notions used in the statements *)

(** ** Loading *)

(** What [load_data] adds to a dict that lacks key [k]. *)
Definition with_default (k : str) (d : list (str * json)) : list (str * json) :=
  if bool_decide (k ∈ dict_keys d) then d else dict_set k (JList []) d.

(** When the body of [try] in [load_data] raises: the text is not JSON, or
    the value read is no container ([k not in raw] raises), or it is a string
    or a list in which a name is not found ([raw[k] = v] raises). *)
Definition rejected (f : file) : bool :=
  match read_json f with
  | None => true
  | Some (JDict _) => false
  | Some (JList l) =>
      negb (existsb (fun x => py_eq_str x k_todos) l
            && existsb (fun x => py_eq_str x k_habits) l)
  | Some (JStr s) => negb (is_substring k_todos s && is_substring k_habits s)
  | Some (JNull | JBool _ | JInt _ | JFloat _) => true
  end.

(** ** The store on records

    What the specification says the operations do, on the records of the
    data model; the operations of the source are shown to do this on the
    dicts. *)

Fixpoint remove_one (x : str) (l : list str) : list str :=
  match l with
  | [] => []
  | y :: l' => if bool_decide (y = x) then l' else y :: remove_one x l'
  end.

Definition with_dates (h : Habit) (dates : list str) : Habit :=
  mkHabit (habit_id h) (habit_name h) (habit_created_at h) dates.

(** Insert today's date if absent, or remove it if present. *)
Definition set_today (today : str) (completed : bool) (h : Habit) : Habit :=
  let dates := habit_completed_dates h in
  if completed then
    if bool_decide (today ∈ dates) then h else with_dates h (dates ++ [today])
  else
    if bool_decide (today ∈ dates) then with_dates h (remove_one today dates) else h.

(** Apply [f] to the first habit with the given id, if there is one. *)
Fixpoint on_first_habit (f : Habit -> Habit) (ident : str) (hs : list Habit)
  : list Habit :=
  match hs with
  | [] => []
  | h :: hs' =>
      if bool_decide (habit_id h = ident) then f h :: hs'
      else h :: on_first_habit f ident hs'
  end.

Definition SetHabitToday_spec (today ident : str) (completed : bool)
    (S : AppState) : AppState :=
  mkState (tasks S) (on_first_habit (set_today today completed) ident (habits S)).

Definition AddTask_spec (env : Env) (text : str) (S : AppState) : AppState :=
  if bool_decide (strip text = []) then S
  else mkState (tasks S ++ [mkTask (new_id env) (strip text) false (now_iso env)])
               (habits S).

Definition AddHabit_spec (env : Env) (name : str) (S : AppState) : AppState :=
  if bool_decide (strip name = []) then S
  else mkState (tasks S)
               (habits S ++ [mkHabit (new_id env) (strip name) (now_iso env) []]).

(** The first task with the given id, if there is one, changed by [f]. *)
Fixpoint on_first_task (f : Task -> Task) (ident : str) (ts : list Task)
  : list Task :=
  match ts with
  | [] => []
  | t :: ts' =>
      if bool_decide (task_id t = ident) then f t :: ts'
      else t :: on_first_task f ident ts'
  end.

Definition flip_task (t : Task) : Task :=
  mkTask (task_id t) (task_text t) (negb (task_done t)) (task_created_at t).

Definition ToggleTask_spec (ident : str) (S : AppState) : AppState :=
  mkState (on_first_task flip_task ident (tasks S)) (habits S).

Definition DeleteTask_spec (ident : str) (S : AppState) : AppState :=
  mkState (filter (fun t => task_id t <> ident) (tasks S)) (habits S).

Definition DeleteHabit_spec (ident : str) (S : AppState) : AppState :=
  mkState (tasks S) (filter (fun h => habit_id h <> ident) (habits S)).

Definition ClearAll_spec (confirm : bool) (S : AppState) : AppState :=
  if confirm then mkState [] [] else S.

(** The state of records after a call. *)
Definition step_spec (env : Env) (c : call) (S : AppState) : AppState :=
  match c with
  | AddTask text => AddTask_spec env text S
  | DeleteTask ident => DeleteTask_spec ident S
  | ToggleTask ident => ToggleTask_spec ident S
  | AddHabit name => AddHabit_spec env name S
  | DeleteHabit ident => DeleteHabit_spec ident S
  | SetHabitToday ident completed =>
      SetHabitToday_spec (today_iso env) ident completed S
  | ClearAll confirm => ClearAll_spec confirm S
  end.

(** ** Invariants of the data model and sequences of calls *)

(** No date twice in the completion list of a habit. *)
Definition dates_unique (S : AppState) : Prop :=
  Forall (fun h => NoDup (habit_completed_dates h)) (habits S).

(** How often a date is in a list. *)
Definition occurrences (x : str) (l : list str) : nat :=
  length (filter (fun y => y = x) l).

(** Today's date is at most once in every habit with the id. *)
Definition today_once (today ident : str) (S : AppState) : Prop :=
  Forall (fun h => habit_id h = ident ->
                   (occurrences today (habit_completed_dates h) <= 1)%nat)
    (habits S).

Definition ids_distinct (S : AppState) : Prop :=
  NoDup (task_ids S) /\ NoDup (habit_ids S).

(** The two invariants of the data model. *)
Definition well_formed (S : AppState) : Prop :=
  ids_distinct S /\ dates_unique S.

(** A sequence of calls, each with what it reads from its surroundings;
    an exception ends the sequence. *)
Fixpoint run_calls (cs : list (Env * call)) : M unit :=
  match cs with
  | [] => skip
  | (env, c) :: cs' => do run env c ;; run_calls cs'
  end.

Definition is_add (c : call) : bool :=
  match c with
  | AddTask _ | AddHabit _ => true
  | _ => false
  end.

(** The calls that reach [new_id()]. *)
Definition asks_id (c : call) : bool := is_add c && reaches_save c.

(** Each time a call asks for an id, the id it gets is not in the state. *)
Fixpoint ids_fresh (cs : list (Env * call)) (S : AppState) : Prop :=
  match cs with
  | [] => True
  | (env, c) :: cs' =>
      (asks_id c = true -> new_id env ∉ task_ids S ++ habit_ids S) /\
      ids_fresh cs' (step_spec env c S)
  end.

(** ** Habit records with and without [completed_dates] *)


(** A record that the loop passes by: it has an [id], another one. *)
Definition other_id (ident : str) (x : json) : Prop :=
  exists v, py_getitem x k_id = Val v /\ py_eq_str v ident = false.

(** ** The text that [json.dump] writes *)

(** The items of a list after the first, and the closing bracket. *)
Fixpoint enc_items (level : nat) (xs : list json) : str :=
  match xs with
  | [] => nl_indent level ++ [93]
  | y :: ys => 44 :: nl_indent (S level) ++ enc (S level) y ++ enc_items level ys
  end.

(** The fields of a dict after the first, and the closing brace. *)
Fixpoint enc_fields (level : nat) (kxs : list (str * json)) : str :=
  match kxs with
  | [] => nl_indent level ++ [125]
  | (k, y) :: kys =>
      44 :: nl_indent (S level) ++ enc_str k ++ [58; 32] ++
      enc (S level) y ++ enc_fields level kys
  end.

(** Values that [json.dump] writes in a form in which [json.load] reads them
    back: no float (a float is written by its value, not by the text it was
    read from) and, as in every Python dict, no key twice. *)
Fixpoint storable (v : json) : bool :=
  match v with
  | JFloat _ => false
  | JList l => forallb storable l
  | JDict d =>
      bool_decide (NoDup (dict_keys d)) && forallb (fun kv => storable (snd kv)) d
  | _ => true
  end.

(** Nested calls that reading a value takes. *)
Fixpoint weight (v : json) : nat :=
  match v with
  | JList l => S (list_sum (map (fun x => S (weight x)) l))
  | JDict d => S (list_sum (map (fun kv => S (weight (snd kv))) d))
  | _ => 1
  end.

(** What may follow a number in a text: not a digit, a dot or an exponent
    mark. *)
Definition follow_ok (rest : str) : bool :=
  match rest with
  | [] => true
  | c :: _ => negb (is_digit c || (c =? 46) || (c =? 101) || (c =? 69))
  end.

(** The first character of a written value: no blank and no closing
    bracket; a digit or a minus sign for an integer. *)
Definition starts_value (c : N) : bool :=
  negb (is_ws c) && negb (c =? 93) && negb (c =? 125).

(** The escape of a control character reads back as that character. *)
Definition control_escape_ok (c : N) : bool :=
  bool_decide (hex4 48 48 (hexdig (c / 16)) (hexdig (c mod 16)) = Some c)
  && negb (is_high_surrogate c).

(** Reading a written value gives the value and the text after it. *)
Definition reads_back (v : json) : Prop :=
  forall level rest fuel,
    follow_ok rest = true -> (weight v <= fuel)%nat ->
    parse_value fuel (enc level v ++ rest) = Some (v, rest).

(** What holds for a reader [parse] on its result with fuel [f']: the text
    left is shorter, and every amount of fuel [f] with
    [2 * length s <= slack + f] gives the same result. *)
Definition settled {A : Type} (parse : nat -> str -> option (A * str))
    (slack : nat) (f' : nat) : Prop :=
  forall s x r,
    parse f' s = Some (x, r) ->
    (length r < length s)%nat /\
    forall f, (2 * length s <= slack + f)%nat -> parse f s = Some (x, r).

(** ** States that UTF-8 can encode *)

(** No surrogate code point in any string of a value. *)
Fixpoint text_ok (v : json) : bool :=
  match v with
  | JStr s | JFloat s => utf8_encodable s
  | JList l => forallb text_ok l
  | JDict d => forallb (fun kv => utf8_encodable (fst kv) && text_ok (snd kv)) d
  | _ => true
  end.

Definition task_clean (t : Task) : bool :=
  utf8_encodable (task_id t) && utf8_encodable (task_text t)
  && utf8_encodable (task_created_at t).

Definition habit_clean (h : Habit) : bool :=
  utf8_encodable (habit_id h) && utf8_encodable (habit_name h)
  && utf8_encodable (habit_created_at h)
  && forallb utf8_encodable (habit_completed_dates h).

Definition state_clean (S : AppState) : bool :=
  forallb task_clean (tasks S) && forallb habit_clean (habits S).

(** ** Calls and the keys of the session state *)

(** The calls that read [st.session_state.app_data] before anything else:
    those that pass their guard, [clear_all_data] apart. *)
Definition reads_state (c : call) : bool :=
  match c with
  | ClearAll _ => false
  | _ => reaches_save c
  end.

(** The key under which a call works; [clear_all_data] replaces the whole
    state. *)
Definition collection (c : call) : option str :=
  match c with
  | AddTask _ | DeleteTask _ | ToggleTask _ => Some k_todos
  | AddHabit _ | DeleteHabit _ | SetHabitToday _ _ => Some k_habits
  | ClearAll _ => None
  end.

(** A record with an [id], whatever the id is. *)
Definition has_id (x : json) : Prop := exists v, py_getitem x k_id = Val v.

(** The state holds both collections. *)
Definition has_collections (d : list (str * json)) : Prop :=
  k_todos ∈ dict_keys d /\ k_habits ∈ dict_keys d.

(** ** Stored text *)

(** A text as [strip] leaves it when something is left: not empty, no
    blank at either end. *)
Definition trimmed (s : str) : Prop :=
  s <> [] /\
  (forall c, head s = Some c -> is_space c = false) /\
  (forall c, last s = Some c -> is_space c = false).

(** Every task text and every habit name is trimmed. *)
Definition texts_trimmed (S : AppState) : Prop :=
  Forall (fun t => trimmed (task_text t)) (tasks S) /\
  Forall (fun h => trimmed (habit_name h)) (habits S).

(** * Sample data *)

(** A text written with ['] for the double quote. *)
Definition dq (s : String.string) : str :=
  map (fun c => if c =? 39 then 34 else c) (lit s).

Definition sample_env : Env :=
  mkEnv (lit "0b9f6a52-7c1d-4e0a-9d55-2f1c3a7e8b64") (lit "2026-01-05T09:30:00.000000")
        1767605400 (lit "2026-01-05") true true.

Definition second_env : Env :=
  mkEnv (lit "6d1f0c3a-58e2-4b7b-a1c9-0e4d2b9f7a10") (lit "2026-01-05T09:31:10.500000")
        1767605470 (lit "2026-01-05") true true.

(** A folder in which nothing can be renamed. *)
Definition locked_env : Env :=
  mkEnv (lit "0b9f6a52-7c1d-4e0a-9d55-2f1c3a7e8b64") (lit "2026-01-05T09:30:00.000000")
        1767605400 (lit "2026-01-05") true false.

Definition sample_task : json :=
  JDict [(k_id, JStr (lit "t1")); (k_text, JStr (lit "buy milk"));
         (k_done, JBool false); (k_created_at, JStr (lit "2026-01-04T18:00:00"))].

Definition sample_habit : json :=
  JDict [(k_id, JStr (lit "h1")); (k_name, JStr (lit "stretch"));
         (k_created_at, JStr (lit "2026-01-03T07:00:00"));
         (k_completed_dates, JList [JStr (lit "2026-01-04")])].

Definition sample_data : json :=
  JDict [(k_todos, JList [sample_task]); (k_habits, JList [sample_habit])].

Definition sample_world : World :=
  mkWorld sample_data {[ DATA_FILE := Utf8 (json_dumps sample_data) ]}.

Definition sample_data_added : json :=
  JDict [(k_todos, JList [sample_task; new_todo sample_env (lit "call mum")]);
         (k_habits, JList [sample_habit])].

Definition sample_state : AppState :=
  mkState
    [mkTask (lit "t1") (lit "buy milk") false (lit "2026-01-04T18:00:00")]
    [mkHabit (lit "h1") (lit "stretch") (lit "2026-01-03T07:00:00")
       [lit "2026-01-04"]].

Definition saved_sample_world : World :=
  mkWorld sample_data {[ DATA_FILE := Utf8 (json_dumps (state_json sample_state)) ]}.






Definition sample_calls : list (Env * call) :=
  [(sample_env, AddTask (lit "call mum")); (second_env, AddHabit (lit " read "))].

(** A file from before habits existed. *)
Definition old_text : str :=
  dq "{'todos': [{'id': 't1', 'text': 'buy milk', 'done': true, 'created_at': '2025-12-31T23:59:59'}]}".

Definition old_todos : json :=
  JList [JDict [(k_id, JStr (lit "t1")); (k_text, JStr (lit "buy milk"));
                (k_done, JBool true); (k_created_at, JStr (lit "2025-12-31T23:59:59"))]].

(** A JSON array that holds both names. *)
Definition names_text : str := dq "['todos', 'habits']".





(** The sample data after [add_todo] of a second task. *)
Definition added_world : World :=
  mkWorld sample_data_added
    (<[DATA_FILE := Utf8 (json_dumps sample_data_added)]> (fs sample_world)).

(** A state with a key of its own beside the two collections. *)
Definition themed_items : list (str * json) :=
  [(k_todos, JList [sample_task]); (k_habits, JList [sample_habit]);
   (lit "theme", JStr (lit "dark"))].

Definition themed_world : World :=
  mkWorld (JDict themed_items) {[ DATA_FILE := Utf8 (json_dumps (JDict themed_items)) ]}.

(** A task written by hand, without [done]. *)
Definition bare_task : list (str * json) :=
  [(k_id, JStr (lit "t1")); (k_text, JStr (lit "buy milk"))].

Definition bare_task_items : list (str * json) :=
  [(k_todos, JList [JDict bare_task]); (k_habits, JList [])].

(** A task without [id]. *)
Definition nameless_task : list (str * json) :=
  [(k_text, JStr (lit "buy milk")); (k_done, JBool false)].

Definition nameless_items : list (str * json) :=
  [(k_todos, JList [sample_task; JDict nameless_task]);
   (k_habits, JList [sample_habit; JDict [(k_name, JStr (lit "stretch"))]])].

(** The session that starts from the file with the array of both names. *)
Definition names_world : World :=
  mkWorld (JList [JStr k_todos; JStr k_habits]) {[ DATA_FILE := Utf8 names_text ]}.

(** A file in which a task text is the escape of a lone surrogate. *)
Definition surrogate_text : str :=
  dq "{'todos': [{'id': 't1', 'text': '\ud83d', 'done': false, 'created_at': '2026-01-04T18:00:00'}], 'habits': []}".

Definition surrogate_data : json :=
  JDict [(k_todos, JList [JDict [(k_id, JStr (lit "t1")); (k_text, JStr [55357]);
                                 (k_done, JBool false);
                                 (k_created_at, JStr (lit "2026-01-04T18:00:00"))]]);
         (k_habits, JList [])].

(** Adding a task, marking the habit for today, toggling and deleting the
    first task. *)
Definition mixed_calls : list (Env * call) :=
  [(sample_env, AddTask (lit "call mum"));
   (second_env, SetHabitToday (lit "h1") true);
   (second_env, ToggleTask (lit "t1"));
   (second_env, DeleteTask (lit "t1"))].

(** * Properties *)

(** ** Induction on values *)

(** Induction over the nesting of lists and dicts. *)
Lemma json_nested_ind (P : json -> Prop) :
  P JNull ->
  (forall b, P (JBool b)) ->
  (forall z, P (JInt z)) ->
  (forall x, P (JFloat x)) ->
  (forall s, P (JStr s)) ->
  (forall l, Forall P l -> P (JList l)) ->
  (forall d, Forall (fun kv => P (snd kv)) d -> P (JDict d)) ->
  forall v, P v.
Proof.
  intros Hn Hb Hi Hf Hs Hl Hd.
  fix IH 1. intros [ | b | z | x | s | l | d ].
  - exact Hn.
  - apply Hb.
  - apply Hi.
  - apply Hf.
  - apply Hs.
  - apply Hl. induction l as [ | v l IHl ]; constructor; [ apply IH | exact IHl ].
  - apply Hd. induction d as [ | [k v] d IHd ]; constructor; [ apply IH | exact IHd ].
Qed.

Ltac unfold_op :=
  unfold run, add_todo, delete_todo, toggle_todo, add_habit, delete_habit,
    toggle_habit_today, clear_all_data, save_data, M_bind, get_data, set_data,
    eval, skip in *.

(** ** Guards *)

Lemma add_todo_blank (env : Env) (text : str) (w : World) :
  strip text = [] -> add_todo env text w = Returned tt w.
Proof.
  intros Hblank. unfold add_todo. by rewrite bool_decide_eq_true_2.
Qed.

Lemma add_habit_blank (env : Env) (name : str) (w : World) :
  strip name = [] -> add_habit env name w = Returned tt w.
Proof.
  intros Hblank. unfold add_habit. by rewrite bool_decide_eq_true_2.
Qed.

(** C4. Blank-input guard: when the input is empty after [strip], [add_todo]
    and [add_habit] return with the session state and the files as they
    were, whatever the disk would do with a write: [save_data] is not
    reached. *)
Theorem blank_input_is_noop (env : Env) (text : str) (w : World) :
  strip text = [] ->
  add_todo env text w = Returned tt w /\ add_habit env text w = Returned tt w.
Proof.
  intros Hblank. split; [ by apply add_todo_blank | by apply add_habit_blank ].
Qed.

(** C9. The guard of [clear_all_data]: without [confirm] the call returns
    with the session state and the files as they were and reaches no write;
    with [confirm] it puts the default state in the session and saves it. *)
Theorem clear_all_data_guard (env : Env) (w : World) :
  clear_all_data env false w = Returned tt w /\
  clear_all_data env true w =
    if disk_ok env
    then Returned tt (mkWorld default_data
                        (<[DATA_FILE := Utf8 (json_dumps default_data)]> (fs w)))
    else Raised OSError default_data.
Proof.
  split; [ reflexivity | ].
  unfold_op. destruct (disk_ok env); reflexivity.
Qed.

(** C5, as the code has it. With [confirm=True] and a disk that takes the
    write, [clear_all_data] leaves the default state in the session and in
    [data.json], from where [load_data] reads it back. The guard is part of
    the store: a call without [confirm] changes nothing. *)
Theorem clear_all_data_confirmed (env env' : Env) (w : World) :
  disk_ok env = true ->
  (exists files',
     clear_all_data env true w = Returned tt (mkWorld default_data files') /\
     files' !! DATA_FILE = Some (Utf8 (json_dumps default_data)) /\
     load_data env' files' = Val (default_data, files')) /\
  clear_all_data env false w = Returned tt w.
Proof.
  intros Hdisk. split; [ | reflexivity ].
  exists (<[DATA_FILE := Utf8 (json_dumps default_data)]> (fs w)).
  split; [ | split ].
  - unfold_op. rewrite Hdisk. reflexivity.
  - apply lookup_insert_eq.
  - unfold load_data. rewrite lookup_insert_eq. reflexivity.
Qed.

(** ** Failed writes *)


(** ** Facts about dicts and names *)

Lemma dict_get_set_eq (k : str) (v : json) (d : list (str * json)) :
  dict_get k (dict_set k v d) = Some v.
Proof.
  induction d as [ | [k' v'] d IH ]; simpl.
  - rewrite decide_True; done.
  - destruct (decide (k = k')) as [ -> | Hne ]; simpl.
    + rewrite decide_True; done.
    + rewrite decide_False; done.
Qed.

Lemma dict_get_set_ne (k k' : str) (v : json) (d : list (str * json)) :
  k <> k' -> dict_get k' (dict_set k v d) = dict_get k' d.
Proof.
  intros Hne. induction d as [ | [k0 v0] d IH ]; simpl.
  - rewrite decide_False; [ done | congruence ].
  - destruct (decide (k = k0)) as [ -> | Hne0 ]; simpl.
    + rewrite !decide_False; [ done | congruence | congruence ].
    + destruct (decide (k' = k0)); [ done | exact IH ].
Qed.

Lemma dict_get_keys (k : str) (d : list (str * json)) :
  dict_get k d = None <-> k ∉ dict_keys d.
Proof.
  unfold dict_keys. induction d as [ | [k' v'] d IH ]; simpl.
  - split; [ intros _; apply not_elem_of_nil | done ].
  - rewrite not_elem_of_cons. destruct (decide (k = k')) as [ -> | Hne ].
    + split; [ done | intros [? _]; done ].
    + rewrite IH. tauto.
Qed.

Lemma dict_set_preserves (k k' : str) (v v' : json) (d : list (str * json)) :
  dict_get k d = None -> dict_get k' d = Some v' ->
  dict_get k' (dict_set k v d) = Some v'.
Proof.
  intros Hk Hk'. rewrite dict_get_set_ne; [ done | ].
  intros ->. congruence.
Qed.

Lemma backup_name_fresh (env : Env) : backup_name env <> DATA_FILE.
Proof.
  unfold backup_name. intros H.
  rewrite <- (app_nil_r DATA_FILE) in H at 2.
  apply app_inv_head in H. discriminate H.
Qed.

(** ** Loading *)

Lemma merge_defaults_dict (d : list (str * json)) :
  merge_defaults (JDict d) = Val (JDict (with_default k_habits (with_default k_todos d))).
Proof.
  unfold merge_defaults, default_items, with_default.
  cbn [foldl]. unfold merge_default, res_bind.
  cbn [fst snd py_contains py_setitem].
  destruct (bool_decide (k_todos ∈ dict_keys d));
    cbn [py_contains py_setitem];
    match goal with |- context [bool_decide ?P] => destruct (bool_decide P) end;
    reflexivity.
Qed.

Lemma with_default_get (k k' : str) (d : list (str * json)) (v : json) :
  dict_get k' d = Some v -> dict_get k' (with_default k d) = Some v.
Proof.
  intros Hget. unfold with_default. case_bool_decide as Hin; [ done | ].
  apply dict_set_preserves; [ | done ]. by apply dict_get_keys.
Qed.

Lemma with_default_missing (k : str) (d : list (str * json)) :
  dict_get k d = None -> dict_get k (with_default k d) = Some (JList []).
Proof.
  intros Hget. unfold with_default. apply dict_get_keys in Hget.
  rewrite bool_decide_eq_false_2 by done. apply dict_get_set_eq.
Qed.

Lemma with_default_other (k k' : str) (d : list (str * json)) :
  k <> k' -> dict_get k' (with_default k d) = dict_get k' d.
Proof.
  intros Hne. unfold with_default. case_bool_decide; [ done | ].
  by apply dict_get_set_ne.
Qed.

(** A file that holds a JSON object is kept, and its object is returned
    with the defaults added. *)
Lemma load_data_dict (env : Env) (files : gmap str file) (f : file)
    (d : list (str * json)) :
  files !! DATA_FILE = Some f ->
  read_json f = Some (JDict d) ->
  load_data env files
  = Val (JDict (with_default k_habits (with_default k_todos d)), files).
Proof.
  intros Hfile Hread. unfold load_data, load_try.
  by rewrite Hfile, Hread, merge_defaults_dict.
Qed.

(** C3. Additive schema migration: when [data.json] holds a JSON object,
    [load_data] returns an object in which every key of the file keeps its
    value, [todos] is the empty list if the file has no [todos], [habits] is
    the empty list if the file has no [habits], and no other key appears;
    the file stays as it is. *)
Theorem load_data_migrates (env : Env) (files : gmap str file) (f : file)
    (d : list (str * json)) :
  files !! DATA_FILE = Some f ->
  read_json f = Some (JDict d) ->
  exists d',
    load_data env files = Val (JDict d', files) /\
    (forall k v, dict_get k d = Some v -> dict_get k d' = Some v) /\
    (dict_get k_todos d = None -> dict_get k_todos d' = Some (JList [])) /\
    (dict_get k_habits d = None -> dict_get k_habits d' = Some (JList [])) /\
    (forall k, k <> k_todos -> k <> k_habits -> dict_get k d' = dict_get k d).
Proof.
  intros Hfile Hread.
  exists (with_default k_habits (with_default k_todos d)).
  split; [ | split; [ | split; [ | split ] ] ].
  - by apply (load_data_dict env files f).
  - intros k v Hget. by do 2 apply with_default_get.
  - intros Hnone. apply with_default_get. by apply with_default_missing.
  - intros Hnone. apply with_default_missing.
    rewrite with_default_other; [ done | discriminate ].
  - intros k Hk1 Hk2. rewrite !with_default_other; done.
Qed.

(** When the body of [try] raises, and only then, [load_try] gives
    nothing. *)
Lemma load_try_rejected (f : file) : rejected f = true <-> load_try f = None.
Proof.
  unfold rejected, load_try. destruct (read_json f) as [ raw | ]; [ | done ].
  destruct raw as [ | b | z | x | s | l | d ]; try done.
  - unfold merge_defaults, default_items. cbn [foldl].
    unfold merge_default, res_bind. cbn [fst snd py_contains py_setitem].
    destruct (is_substring k_todos s); cbn [py_contains py_setitem negb andb];
      [ destruct (is_substring k_habits s) | ]; done.
  - unfold merge_defaults, default_items. cbn [foldl].
    unfold merge_default, res_bind. cbn [fst snd py_contains py_setitem].
    destruct (existsb (fun x => py_eq_str x k_todos) l);
      cbn [py_contains py_setitem negb andb];
      [ destruct (existsb (fun x => py_eq_str x k_habits) l) | ]; done.
  - rewrite merge_defaults_dict. done.
Qed.

(** X20. What [load_data] does with a file that makes the body of [try]
    raise ([rejected]). When the rename goes through, it returns the
    default state and moves the file, content unchanged, to
    [data.json.bak.<epoch seconds>], leaving every other file alone. When
    the rename fails, its [OSError] leaves [load_data]: the handler does not
    catch what it raises itself. *)
Theorem load_data_recovers (env : Env) (files : gmap str file) (f : file) :
  files !! DATA_FILE = Some f ->
  rejected f = true ->
  (rename_ok env = true ->
   exists files',
     load_data env files = Val (default_data, files') /\
     files' !! DATA_FILE = None /\
     files' !! (DATA_FILE ++ lit ".bak." ++ dec_Z (now_epoch env)) = Some f /\
     (forall name, name <> DATA_FILE -> name <> backup_name env ->
        files' !! name = files !! name)) /\
  (rename_ok env = false -> load_data env files = Exc OSError).
Proof.
  intros Hfile Hrej. apply load_try_rejected in Hrej.
  split; intros Hrename.
  - exists (<[backup_name env := f]> (delete DATA_FILE files)).
    split; [ | split; [ | split ] ].
    + unfold load_data. rewrite Hfile, Hrej, Hrename. reflexivity.
    + rewrite lookup_insert_ne by apply backup_name_fresh.
      apply lookup_delete_eq.
    + apply lookup_insert_eq.
    + intros name Hne1 Hne2.
      rewrite lookup_insert_ne by done. by rewrite lookup_delete_ne.
  - unfold load_data. by rewrite Hfile, Hrej, Hrename.
Qed.

(** Any other content is returned as read, and the file stays. *)
Lemma load_data_accepts (env : Env) (files : gmap str file) (f : file) :
  files !! DATA_FILE = Some f ->
  rejected f = false ->
  exists raw, load_try f = Some raw /\ load_data env files = Val (raw, files).
Proof.
  intros Hfile Hrej. unfold load_data. rewrite Hfile.
  destruct (load_try f) as [ raw | ] eqn:Htry.
  - exists raw. done.
  - apply load_try_rejected in Htry. congruence.
Qed.

(** ** Guards, failed writes and loading on the sample data *)

Lemma blank_input_is_noop_witness :
  strip (lit "   ") = [] /\
  (add_todo sample_env (lit "   ") sample_world = Returned tt sample_world /\
   add_habit sample_env (lit "   ") sample_world = Returned tt sample_world).
Proof.
  split; [ reflexivity | apply blank_input_is_noop; reflexivity ].
Defined.

(** C5 as the specification words it fails: a call without [confirm]
    leaves a populated state in place. *)
Lemma clear_all_data_unconfirmed_keeps_state :
  clear_all_data sample_env false sample_world = Returned tt sample_world /\
  app_data sample_world <> default_data.
Proof. split; [ reflexivity | discriminate ]. Qed.

Lemma clear_all_data_confirmed_witness :
  disk_ok sample_env = true /\
  (exists files',
     clear_all_data sample_env true sample_world
       = Returned tt (mkWorld default_data files') /\
     files' !! DATA_FILE = Some (Utf8 (json_dumps default_data)) /\
     load_data sample_env files' = Val (default_data, files')) /\
  clear_all_data sample_env false sample_world = Returned tt sample_world.
Proof.
  split; [ reflexivity | apply clear_all_data_confirmed; reflexivity ].
Defined.


Lemma load_data_migrates_witness :
  exists d',
    load_data sample_env {[ DATA_FILE := Utf8 old_text ]}
      = Val (JDict d', {[ DATA_FILE := Utf8 old_text ]}) /\
    (forall k v, dict_get k [(k_todos, old_todos)] = Some v -> dict_get k d' = Some v) /\
    (dict_get k_todos [(k_todos, old_todos)] = None -> dict_get k_todos d' = Some (JList [])) /\
    (dict_get k_habits [(k_todos, old_todos)] = None -> dict_get k_habits d' = Some (JList [])) /\
    (forall k, k <> k_todos -> k <> k_habits ->
       dict_get k d' = dict_get k [(k_todos, old_todos)]).
Proof.
  apply (load_data_migrates sample_env _ (Utf8 old_text)).
  - apply lookup_singleton_eq.
  - vm_compute. reflexivity.
Defined.

(** C2. Where [load_data] misses the corruption recovery it attempts: a
    JSON array that holds both names is not an object of collections, yet
    the test [k not in raw] finds both names in it, so nothing is raised
    in the body of [try]: [load_data] returns the array as read, against
    its docstring (a dict), makes no backup and leaves the file in
    place. *)
Lemma load_data_returns_array :
  json_loads names_text = Some (JList [JStr k_todos; JStr k_habits]) /\
  load_data sample_env {[ DATA_FILE := Utf8 names_text ]}
    = Val (JList [JStr k_todos; JStr k_habits], {[ DATA_FILE := Utf8 names_text ]}) /\
  JList [JStr k_todos; JStr k_habits] <> default_data.
Proof.
  split; [ vm_compute; reflexivity | split; [ | discriminate ] ].
  unfold load_data. rewrite lookup_singleton_eq.
  replace (load_try (Utf8 names_text))
    with (Some (JList [JStr k_todos; JStr k_habits]))
    by (vm_compute; reflexivity).
  reflexivity.
Qed.

Lemma load_data_recovers_witness :
  (exists files',
     load_data sample_env {[ DATA_FILE := Utf8 (lit "not json") ]}
       = Val (default_data, files') /\
     files' !! DATA_FILE = None /\
     files' !! (DATA_FILE ++ lit ".bak." ++ dec_Z (now_epoch sample_env))
       = Some (Utf8 (lit "not json")) /\
     (forall name, name <> DATA_FILE -> name <> backup_name sample_env ->
        files' !! name
        = ({[ DATA_FILE := Utf8 (lit "not json") ]} : gmap str file) !! name)) /\
  load_data locked_env {[ DATA_FILE := Utf8 (lit "not json") ]} = Exc OSError.
Proof.
  assert (Hfile : ({[ DATA_FILE := Utf8 (lit "not json") ]} : gmap str file)
                    !! DATA_FILE = Some (Utf8 (lit "not json")))
    by apply lookup_singleton_eq.
  assert (Hrej : rejected (Utf8 (lit "not json")) = true)
    by (vm_compute; reflexivity).
  split.
  - exact (proj1 (load_data_recovers sample_env _ _ Hfile Hrej) eq_refl).
  - exact (proj2 (load_data_recovers locked_env _ _ Hfile Hrej) eq_refl).
Defined.

(** ** The operations on states of records *)

Ltac key_ne := let H := fresh in intro H; vm_compute in H; discriminate H.
Ltac keys :=
  repeat first
    [ rewrite decide_True by reflexivity
    | rewrite decide_False by key_ne ].

Lemma state_todos (S : AppState) :
  py_getitem (state_json S) k_todos = Val (JList (map task_json (tasks S))).
Proof. unfold py_getitem, state_json. cbn [dict_get]. keys. reflexivity. Qed.

Lemma state_habits (S : AppState) :
  py_getitem (state_json S) k_habits = Val (JList (map habit_json (habits S))).
Proof. unfold py_getitem, state_json. cbn [dict_get]. keys. reflexivity. Qed.

Lemma store_todos (S : AppState) (ts : list Task) :
  store_item k_todos (JList (map task_json ts)) (state_json S)
  = state_json (mkState ts (habits S)).
Proof. unfold store_item, state_json. cbn [dict_set]. keys. reflexivity. Qed.

Lemma store_habits (S : AppState) (hs : list Habit) :
  store_item k_habits (JList (map habit_json hs)) (state_json S)
  = state_json (mkState (tasks S) hs).
Proof. unfold store_item, state_json. cbn [dict_set]. keys. reflexivity. Qed.

Lemma contains_dates (today : str) (dates : list str) :
  existsb (fun x => py_eq_str x today) (map JStr dates)
  = bool_decide (today ∈ dates).
Proof.
  induction dates as [ | d dates IH ]; cbn [map existsb py_eq_str].
  - rewrite bool_decide_eq_false_2; [ done | apply not_elem_of_nil ].
  - rewrite IH. destruct (decide (d = today)) as [ -> | Hne ].
    + rewrite bool_decide_eq_true_2 by done. cbn [orb].
      symmetry. apply bool_decide_eq_true_2. left.
    + rewrite (bool_decide_eq_false_2 (d = today)) by done. cbn [orb].
      apply bool_decide_ext. rewrite elem_of_cons.
      split; [ intros ?; by right | intros [ ? | ? ]; [ congruence | done ] ].
Qed.

Lemma remove_first_dates (today : str) (dates : list str) :
  remove_first today (map JStr dates) = map JStr (remove_one today dates).
Proof.
  induction dates as [ | d dates IH ]; cbn [map remove_first remove_one py_eq_str].
  - reflexivity.
  - case_bool_decide; [ reflexivity | ]. cbn [map]. by rewrite IH.
Qed.

Lemma mark_today_habit (today : str) (completed : bool) (h : Habit) :
  mark_today today completed (habit_json h)
  = Val (habit_json (set_today today completed h)).
Proof.
  unfold mark_today, set_today, habit_json at 1, py_getitem.
  cbn [dict_get]. keys. cbn [res_bind py_contains].
  rewrite contains_dates.
  destruct completed, (bool_decide (today ∈ habit_completed_dates h));
    try reflexivity; cbn [py_append py_remove res_bind store_item dict_set]; keys.
  - unfold habit_json, with_dates. cbn [habit_id habit_name habit_created_at
      habit_completed_dates]. by rewrite map_app.
  - unfold habit_json, with_dates. cbn [habit_id habit_name habit_created_at
      habit_completed_dates]. by rewrite remove_first_dates.
Qed.

Lemma update_first_habits (today ident : str) (completed : bool) (hs : list Habit) :
  update_first (mark_today today completed) ident (map habit_json hs)
  = Val (map habit_json (on_first_habit (set_today today completed) ident hs)).
Proof.
  induction hs as [ | h hs IH ]; cbn [map update_first on_first_habit].
  - reflexivity.
  - unfold habit_json at 1, py_getitem. cbn [dict_get]. keys.
    cbn [res_bind py_eq_str]. fold (habit_json h).
    case_bool_decide.
    + rewrite mark_today_habit. reflexivity.
    + rewrite IH. reflexivity.
Qed.

(** [toggle_habit_today] on a state of records: the state of the
    specification goes to the session, then to the file. *)
Lemma toggle_habit_today_refines (env : Env) (ident : str) (completed : bool)
    (S : AppState) (files : gmap str file) :
  let S' := SetHabitToday_spec (today_iso env) ident completed S in
  toggle_habit_today env ident completed (mkWorld (state_json S) files)
  = save_data env (state_json S') (mkWorld (state_json S') files).
Proof.
  intros S'. unfold toggle_habit_today, M_bind, get_data, set_data, eval.
  cbn [app_data fs]. rewrite state_habits. cbn [py_iter].
  rewrite update_first_habits. cbn [store_items app_data fs].
  rewrite store_habits. reflexivity.
Qed.

Lemma add_todo_refines (env : Env) (text : str) (S : AppState)
    (files : gmap str file) :
  strip text <> [] ->
  let S' := AddTask_spec env text S in
  add_todo env text (mkWorld (state_json S) files)
  = save_data env (state_json S') (mkWorld (state_json S') files).
Proof.
  intros Hne S'. unfold S', AddTask_spec, add_todo.
  rewrite !bool_decide_eq_false_2 by done.
  unfold M_bind, get_data, set_data, eval. cbn [app_data fs].
  rewrite state_todos. cbn [py_append app_data fs].
  change (new_todo env text)
    with (task_json (mkTask (new_id env) (strip text) false (now_iso env))).
  change (map task_json (tasks S) ++ [task_json ?t])
    with (map task_json (tasks S) ++ map task_json [t]).
  rewrite <- map_app, store_todos. reflexivity.
Qed.

Lemma add_habit_refines (env : Env) (name : str) (S : AppState)
    (files : gmap str file) :
  strip name <> [] ->
  let S' := AddHabit_spec env name S in
  add_habit env name (mkWorld (state_json S) files)
  = save_data env (state_json S') (mkWorld (state_json S') files).
Proof.
  intros Hne S'. unfold S', AddHabit_spec, add_habit.
  rewrite !bool_decide_eq_false_2 by done.
  unfold M_bind, get_data, set_data, eval. cbn [app_data fs].
  rewrite state_habits. cbn [py_append app_data fs].
  change (new_habit env name)
    with (habit_json (mkHabit (new_id env) (strip name) (now_iso env) [])).
  change (map habit_json (habits S) ++ [habit_json ?h])
    with (map habit_json (habits S) ++ map habit_json [h]).
  rewrite <- map_app, store_habits. reflexivity.
Qed.

Lemma set_todos (S : AppState) (ts : list Task) :
  py_setitem (state_json S) k_todos (JList (map task_json ts))
  = Val (state_json (mkState ts (habits S))).
Proof. exact (f_equal Val (store_todos S ts)). Qed.

Lemma set_habits (S : AppState) (hs : list Habit) :
  py_setitem (state_json S) k_habits (JList (map habit_json hs))
  = Val (state_json (mkState (tasks S) hs)).
Proof. exact (f_equal Val (store_habits S hs)). Qed.

Lemma without_id_tasks (ident : str) (ts : list Task) :
  without_id ident (map task_json ts)
  = Val (map task_json (filter (fun t => task_id t <> ident) ts)).
Proof.
  induction ts as [ | t ts IH ]; cbn [map without_id]; [ done | ].
  unfold task_json at 1, py_getitem. cbn [dict_get]. keys.
  cbn [res_bind py_eq_str]. fold (task_json t). rewrite IH. cbn [res_bind].
  rewrite filter_cons. case_bool_decide; case_decide; done.
Qed.

Lemma without_id_habits (ident : str) (hs : list Habit) :
  without_id ident (map habit_json hs)
  = Val (map habit_json (filter (fun h => habit_id h <> ident) hs)).
Proof.
  induction hs as [ | h hs IH ]; cbn [map without_id]; [ done | ].
  unfold habit_json at 1, py_getitem. cbn [dict_get]. keys.
  cbn [res_bind py_eq_str]. fold (habit_json h). rewrite IH. cbn [res_bind].
  rewrite filter_cons. case_bool_decide; case_decide; done.
Qed.

Lemma flip_done_task (t : Task) :
  flip_done (task_json t) = Val (task_json (flip_task t)).
Proof.
  unfold flip_done, task_json at 1. cbn [dict_get dict_set]. keys. reflexivity.
Qed.

Lemma update_first_tasks (ident : str) (ts : list Task) :
  update_first flip_done ident (map task_json ts)
  = Val (map task_json (on_first_task flip_task ident ts)).
Proof.
  induction ts as [ | t ts IH ]; cbn [map update_first on_first_task].
  - reflexivity.
  - unfold task_json at 1, py_getitem. cbn [dict_get]. keys.
    cbn [res_bind py_eq_str]. fold (task_json t).
    case_bool_decide.
    + rewrite flip_done_task. reflexivity.
    + rewrite IH. reflexivity.
Qed.

(** Every call on a state of records: the state of the specification goes
    to the session and then to the file, unless the call returns at its
    guard. *)
Lemma run_refines (env : Env) (c : call) (S : AppState) (files : gmap str file) :
  run env c (mkWorld (state_json S) files)
  = if reaches_save c
    then save_data env (state_json (step_spec env c S))
           (mkWorld (state_json (step_spec env c S)) files)
    else Returned tt (mkWorld (state_json S) files).
Proof.
  destruct c; cbn [run reaches_save step_spec].
  - case_bool_decide as Hblank; cbn [negb].
    + by apply add_todo_blank.
    + by apply add_todo_refines.
  - unfold delete_todo, M_bind, get_data, set_data, eval. cbn [app_data fs].
    rewrite state_todos. cbn [py_iter]. rewrite without_id_tasks, set_todos.
    reflexivity.
  - unfold toggle_todo, M_bind, get_data, set_data, eval. cbn [app_data fs].
    rewrite state_todos. cbn [py_iter]. rewrite update_first_tasks.
    cbn [store_items app_data fs]. rewrite store_todos. reflexivity.
  - case_bool_decide as Hblank; cbn [negb].
    + by apply add_habit_blank.
    + by apply add_habit_refines.
  - unfold delete_habit, M_bind, get_data, set_data, eval. cbn [app_data fs].
    rewrite state_habits. cbn [py_iter]. rewrite without_id_habits, set_habits.
    reflexivity.
  - apply toggle_habit_today_refines.
  - destruct confirm; reflexivity.
Qed.

(** ** Marking a habit for today *)

Lemma remove_one_absent (x : str) (l : list str) :
  x ∉ l -> remove_one x l = l.
Proof.
  induction l as [ | y l IH ]; cbn [remove_one]; [ done | ].
  rewrite not_elem_of_cons. intros [Hne Hnin].
  rewrite bool_decide_eq_false_2 by congruence. by rewrite IH.
Qed.

Lemma remove_one_gone (x : str) (l : list str) :
  NoDup l -> x ∉ remove_one x l.
Proof.
  induction 1 as [ | y l Hy Hl IH ]; cbn [remove_one].
  - apply not_elem_of_nil.
  - case_bool_decide as Heq; [ by subst | ].
    rewrite not_elem_of_cons. split; [ congruence | exact IH ].
Qed.


Lemma occurrences_cons (x y : str) (l : list str) :
  occurrences x (y :: l)
  = ((if bool_decide (y = x) then 1 else 0) + occurrences x l)%nat.
Proof.
  unfold occurrences. rewrite filter_cons.
  case_bool_decide; case_decide; done.
Qed.


(** A list without duplicates has every date at most once. *)
Lemma NoDup_occurrences (x : str) (l : list str) :
  NoDup l -> (occurrences x l <= 1)%nat.
Proof.
  induction 1 as [ | y l Hy Hl IH ];
    [ unfold occurrences; rewrite filter_nil; cbn [length]; lia | ].
  rewrite occurrences_cons. case_bool_decide as Heq; [ | lia ].
  subst y. destruct (occurrences x l) eqn:Hocc; [ lia | ].
  exfalso. apply Hy. unfold occurrences in Hocc.
  assert (Hin : exists z, z ∈ filter (fun y => y = x) l).
  { destruct (filter (fun y => y = x) l) as [ | z ? ]; [ discriminate Hocc | ].
    exists z. by left. }
  destruct Hin as [z Hz]. apply list_elem_of_filter in Hz as [-> Hz]. exact Hz.
Qed.


Lemma set_today_id (today : str) (completed : bool) (h : Habit) :
  habit_id (set_today today completed h) = habit_id h.
Proof.
  unfold set_today. destruct completed; cbn zeta; case_bool_decide; reflexivity.
Qed.


(** A state in which no habit lists a date twice has today's date at most
    once in every habit. *)
Lemma dates_unique_today_once (today ident : str) (S : AppState) :
  dates_unique S -> today_once today ident S.
Proof.
  unfold dates_unique, today_once. intros Hnd.
  eapply Forall_impl; [ exact Hnd | ].
  intros h Hh _. by apply NoDup_occurrences.
Qed.


Lemma remove_one_sublist (x : str) (l : list str) : remove_one x l `sublist_of` l.
Proof.
  induction l as [ | y l IH ]; cbn [remove_one]; [ done | ].
  case_bool_decide; [ by apply sublist_cons | by apply sublist_skip ].
Qed.

Lemma set_today_dates_unique (today : str) (completed : bool) (h : Habit) :
  NoDup (habit_completed_dates h) ->
  NoDup (habit_completed_dates (set_today today completed h)).
Proof.
  intros Hnd. unfold set_today. cbn zeta.
  destruct completed; case_bool_decide as Hin; try done;
    cbn [with_dates habit_completed_dates].
  - apply NoDup_app. split; [ done | ]. split; [ | apply NoDup_singleton ].
    intros x Hx. rewrite list_elem_of_singleton. by intros ->.
  - eapply sublist_NoDup; [ done | apply remove_one_sublist ].
Qed.

Lemma on_first_habit_dates_unique (today ident : str) (completed : bool)
    (hs : list Habit) :
  Forall (fun h => NoDup (habit_completed_dates h)) hs ->
  Forall (fun h => NoDup (habit_completed_dates h))
    (on_first_habit (set_today today completed) ident hs).
Proof.
  induction 1 as [ | h hs Hh Hhs IH ]; cbn [on_first_habit]; [ done | ].
  case_bool_decide; constructor; try done. by apply set_today_dates_unique.
Qed.


(** ** Identifiers *)

Lemma step_spec_blank (env : Env) (c : call) (S : AppState) :
  is_add c = true -> reaches_save c = false -> step_spec env c S = S.
Proof.
  destruct c; try discriminate; cbn [reaches_save step_spec];
    unfold AddTask_spec, AddHabit_spec; intros _ Hblank;
    apply negb_false_iff in Hblank; by rewrite Hblank.
Qed.

Lemma step_spec_adds (env : Env) (c : call) (S : AppState) :
  is_add c = true ->
  (asks_id c = true -> new_id env ∉ task_ids S ++ habit_ids S) ->
  ids_distinct S ->
  ids_distinct (step_spec env c S) /\
  tasks S `prefix_of` tasks (step_spec env c S) /\
  habits S `prefix_of` habits (step_spec env c S).
Proof.
  intros Hadd Hfresh [Ht Hh].
  destruct c; try discriminate;
    cbn [asks_id is_add andb reaches_save step_spec] in *;
    unfold AddTask_spec, AddHabit_spec; case_bool_decide as Hblank;
    try done; cbn [negb] in Hfresh;
    specialize (Hfresh eq_refl); rewrite not_elem_of_app in Hfresh;
    destruct Hfresh as [Hft Hfh];
    unfold ids_distinct, task_ids, habit_ids; cbn [tasks habits].
  - split; [ split; [ | done ] | split; [ | done ] ].
    + rewrite map_app. apply NoDup_app. split; [ done | ].
      split; [ | apply NoDup_singleton ].
      intros x Hx. cbn. rewrite not_elem_of_cons. split; [ | apply not_elem_of_nil ].
      intros ->. done.
    + by apply prefix_app_r.
  - split; [ split; [ done | ] | split; [ done | ] ].
    + rewrite map_app. apply NoDup_app. split; [ done | ].
      split; [ | apply NoDup_singleton ].
      intros x Hx. cbn. rewrite not_elem_of_cons. split; [ | apply not_elem_of_nil ].
      intros ->. done.
    + by apply prefix_app_r.
Qed.

(** C8. Id uniqueness: start from a state of records with pairwise
    distinct task ids and pairwise distinct habit ids, and run any sequence
    of [add_todo] and [add_habit] calls in which every id that [new_id]
    hands out is not in the state at that time. The session then holds a
    state of records, whether the sequence ran to its end or an exception
    stopped it, with pairwise distinct task ids and pairwise distinct habit
    ids, and the records that were there are still there, unchanged and in
    their places. *)
Theorem ids_stay_distinct (cs : list (Env * call)) (S : AppState)
    (files : gmap str file) :
  Forall (fun ec => is_add (snd ec) = true) cs ->
  ids_distinct S ->
  ids_fresh cs S ->
  exists S',
    mem_after (run_calls cs (mkWorld (state_json S) files)) = state_json S' /\
    ids_distinct S' /\
    tasks S `prefix_of` tasks S' /\
    habits S `prefix_of` habits S'.
Proof.
  intros Hadds. revert S files.
  induction Hadds as [ | [env c] cs Hadd Hadds IH ]; intros S files Hnd Hfresh.
  - exists S. done.
  - cbn [snd] in Hadd. cbn [ids_fresh] in Hfresh. destruct Hfresh as [Hf Hrest].
    destruct (step_spec_adds env c S Hadd Hf Hnd) as (Hnd' & Hpt & Hph).
    cbn [run_calls]. unfold M_bind. rewrite run_refines.
    destruct (reaches_save c) eqn:Hreach.
    + unfold save_data. destruct (disk_ok env); cbn zeta;
        [ destruct (utf8_encodable _) | ]; cbn [app_data fs mem_after].
      * destruct (IH _ (<[DATA_FILE := Utf8 (json_dumps (state_json (step_spec env c S)))]> files)
                    Hnd' Hrest) as (S' & Hmem & Hd & Ht & Hh).
        exists S'. split; [ done | split; [ done | ] ].
        split; etrans; done.
      * exists (step_spec env c S). done.
      * exists (step_spec env c S). done.
    + rewrite (step_spec_blank env c S Hadd Hreach) in Hrest.
      destruct (IH _ files Hnd Hrest) as (S' & Hmem & Hd & Ht & Hh).
      exists S'. done.
Qed.

(** ** The invariants under every call *)

Lemma NoDup_map_filter {A : Type} (f : A -> str) (P : A -> Prop)
    `{!forall x, Decision (P x)} (l : list A) :
  NoDup (map f l) -> NoDup (map f (filter P l)).
Proof.
  induction l as [ | x l IH ]; cbn [map]; [ done | ].
  rewrite NoDup_cons. intros [Hx Hl]. rewrite filter_cons.
  case_decide; [ | by apply IH ].
  cbn [map]. apply NoDup_cons. split; [ | by apply IH ].
  intros Hin. apply Hx. clear -Hin.
  induction l as [ | y l IH ]; [ done | ].
  rewrite filter_cons in Hin. cbn [map]. case_decide.
  - cbn [map] in Hin. apply elem_of_cons in Hin as [ -> | Hin ];
      [ left | right; by apply IH ].
  - right. by apply IH.
Qed.

Lemma Forall_filter_keep {A : Type} (Q : A -> Prop) (P : A -> Prop)
    `{!forall x, Decision (P x)} (l : list A) :
  Forall Q l -> Forall Q (filter P l).
Proof.
  induction 1 as [ | x l Hx Hl IH ]; [ done | ].
  rewrite filter_cons. case_decide; [ by constructor | done ].
Qed.

Lemma on_first_task_ids (ident : str) (ts : list Task) :
  map task_id (on_first_task flip_task ident ts) = map task_id ts.
Proof.
  induction ts as [ | t ts IH ]; cbn [on_first_task map]; [ done | ].
  case_bool_decide; cbn [map]; [ done | by rewrite IH ].
Qed.

Lemma on_first_habit_ids (today ident : str) (completed : bool) (hs : list Habit) :
  map habit_id (on_first_habit (set_today today completed) ident hs)
  = map habit_id hs.
Proof.
  induction hs as [ | h hs IH ]; cbn [on_first_habit map]; [ done | ].
  case_bool_decide; cbn [map]; [ by rewrite set_today_id | by rewrite IH ].
Qed.

(** Every call keeps the ids pairwise distinct, when the id it may ask
    for is new, and keeps the dates of each habit pairwise distinct. *)
Lemma step_spec_well_formed (env : Env) (c : call) (S : AppState) :
  (asks_id c = true -> new_id env ∉ task_ids S ++ habit_ids S) ->
  well_formed S -> well_formed (step_spec env c S).
Proof.
  intros Hfresh [Hids Hdates].
  destruct (is_add c) eqn:Hadd.
  - split; [ by apply step_spec_adds | ].
    destruct c; try discriminate; cbn [step_spec];
      unfold AddTask_spec, AddHabit_spec, dates_unique in *;
      case_bool_decide; try done; cbn [habits].
    apply Forall_app. split; [ done | ]. repeat constructor.
  - destruct Hids as [Ht Hh].
    destruct c; try discriminate; cbn [step_spec];
      unfold DeleteTask_spec, ToggleTask_spec, DeleteHabit_spec,
        SetHabitToday_spec, ClearAll_spec, well_formed, ids_distinct,
        dates_unique, task_ids, habit_ids in *; cbn [tasks habits].
    + split; [ split; [ by apply NoDup_map_filter | done ] | done ].
    + rewrite on_first_task_ids. done.
    + split; [ split; [ done | by apply NoDup_map_filter ] | ].
      by apply Forall_filter_keep.
    + rewrite on_first_habit_ids.
      split; [ done | by apply on_first_habit_dates_unique ].
    + destruct confirm; cbn [tasks habits]; [ | done ].
      repeat split; constructor.
Qed.

(** X18. The invariants of the data model hold along every sequence of
    calls, deleting, toggling and clearing included: from a state of
    records with distinct ids and no date twice in a habit, when each id
    handed out is new, the session is left with such a state, also when a
    failed write ends the sequence. *)
Lemma records_stay_well_formed (cs : list (Env * call)) (S : AppState)
    (files : gmap str file) :
  well_formed S ->
  ids_fresh cs S ->
  exists S',
    mem_after (run_calls cs (mkWorld (state_json S) files)) = state_json S' /\
    well_formed S'.
Proof.
  revert S files. induction cs as [ | [env c] cs IH ]; intros S files Hwf Hfresh.
  - exists S. done.
  - cbn [ids_fresh] in Hfresh. destruct Hfresh as [Hf Hrest].
    pose proof (step_spec_well_formed env c S Hf Hwf) as Hwf'.
    cbn [run_calls]. unfold M_bind. rewrite run_refines.
    destruct (reaches_save c) eqn:Hreach.
    + unfold save_data. destruct (disk_ok env); cbn zeta;
        [ destruct (utf8_encodable _) | ]; cbn [app_data fs mem_after];
        [ by apply IH | by exists (step_spec env c S) .. ].
    + assert (Hsame : step_spec env c S = S).
      { destruct c; try discriminate; cbn [reaches_save step_spec] in *;
          unfold AddTask_spec, AddHabit_spec, ClearAll_spec;
          [ apply negb_false_iff in Hreach; by rewrite Hreach
          | apply negb_false_iff in Hreach; by rewrite Hreach
          | by subst ]. }
      rewrite Hsame in Hrest. by apply IH.
Qed.

(** ** Habit records without [completed_dates] *)







(** ** Reading back what was written *)

(** *** Strings *)

Lemma scanstring_cons (c : N) (r : str) :
  scanstring (c :: r) =
    if c =? 34 then Some ([], r)
    else if c =? 92 then
      match r with
      | [] => None
      | e :: r1 =>
          if e =? 117 then
            match r1 with
            | h1 :: h2 :: h3 :: h4 :: r5 =>
                match hex4 h1 h2 h3 h4 with
                | None => None
                | Some u =>
                    if is_high_surrogate u then
                      match r5 with
                      | b :: e2 :: g1 :: g2 :: g3 :: g4 :: r11 =>
                          if (b =? 92) && (e2 =? 117) then
                            match hex4 g1 g2 g3 g4 with
                            | None => None
                            | Some u2 =>
                                if is_low_surrogate u2
                                then push (join_surrogates u u2) (scanstring r11)
                                else push u (scanstring r5)
                            end
                          else push u (scanstring r5)
                      | _ => push u (scanstring r5)
                      end
                    else push u (scanstring r5)
                end
            | _ => None
            end
          else
            match unescape e with
            | Some ch => push ch (scanstring r1)
            | None => None
            end
      end
    else if c <? 32 then None
    else push c (scanstring r).
Proof. reflexivity. Qed.

Lemma control_escapes_ok (c : N) : c < 32 -> control_escape_ok c = true.
Proof.
  intros Hc.
  assert (Hall : forallb control_escape_ok (map N.of_nat (seq 0 32)) = true)
    by (vm_compute; reflexivity).
  rewrite forallb_forall in Hall. apply Hall.
  apply in_map_iff. exists (N.to_nat c). split; [ lia | ].
  apply in_seq. lia.
Qed.

Lemma scanstring_esc_char (c : N) (r : str) :
  scanstring (esc_char c ++ r) = push c (scanstring r).
Proof.
  unfold esc_char.
  destruct (N.eqb_spec c 34) as [ -> | H34 ]; [ reflexivity | ].
  destruct (N.eqb_spec c 92) as [ -> | H92 ]; [ reflexivity | ].
  destruct (N.eqb_spec c 10) as [ -> | H10 ]; [ reflexivity | ].
  destruct (N.eqb_spec c 13) as [ -> | H13 ]; [ reflexivity | ].
  destruct (N.eqb_spec c 9) as [ -> | H9 ]; [ reflexivity | ].
  destruct (N.eqb_spec c 8) as [ -> | H8 ]; [ reflexivity | ].
  destruct (N.eqb_spec c 12) as [ -> | H12 ]; [ reflexivity | ].
  destruct (N.ltb_spec c 32) as [ Hlt | Hge ].
  - pose proof (control_escapes_ok c Hlt) as Hok.
    unfold control_escape_ok in Hok. apply andb_true_iff in Hok.
    destruct Hok as [Hhex Hhigh].
    apply bool_decide_eq_true_1 in Hhex. apply negb_true_iff in Hhigh.
    cbn [app]. rewrite scanstring_cons.
    change (92 =? 34) with false. change (92 =? 92) with true.
    change (117 =? 117) with true. cbv iota.
    rewrite Hhex, Hhigh. reflexivity.
  - cbn [app]. rewrite scanstring_cons.
    rewrite (proj2 (N.eqb_neq c 34)), (proj2 (N.eqb_neq c 92)) by done.
    rewrite (proj2 (N.ltb_ge c 32)) by done. reflexivity.
Qed.

Lemma scanstring_enc (s rest : str) :
  scanstring (flat_map esc_char s ++ 34 :: rest) = Some (s, rest).
Proof.
  induction s as [ | c s IH ]; cbn [flat_map].
  - reflexivity.
  - rewrite <- app_assoc, scanstring_esc_char, IH. reflexivity.
Qed.

Lemma enc_str_unfold (s rest : str) :
  enc_str s ++ rest = 34 :: flat_map esc_char s ++ 34 :: rest.
Proof. unfold enc_str. cbn [app]. by rewrite <- app_assoc. Qed.

(** *** Integers *)

Lemma uint_str_digits (u : Decimal.uint) :
  Forall (fun c => is_digit c = true) (uint_str u).
Proof. induction u; cbn [uint_str]; constructor; done. Qed.

Lemma str_uint_uint_str (u : Decimal.uint) : str_uint (uint_str u) = u.
Proof. induction u; cbn [uint_str str_uint]; [ done | .. ]; rewrite IHu; reflexivity. Qed.

Lemma span_digits_app (ds rest : str) :
  Forall (fun c => is_digit c = true) ds ->
  match rest with [] => true | c :: _ => negb (is_digit c) end = true ->
  span_digits (ds ++ rest) = (ds, rest).
Proof.
  intros Hds Hrest. induction Hds as [ | c ds Hc Hds IH ]; cbn [app span_digits].
  - destruct rest as [ | c rest ]; [ done | ].
    cbn [span_digits]. apply negb_true_iff in Hrest. by rewrite Hrest.
  - by rewrite Hc, IH.
Qed.

Lemma to_uint_normal (n : N) :
  exists c t, uint_str (N.to_uint n) = c :: t /\ is_digit c = true /\
              Forall (fun c => is_digit c = true) t /\ (c = 48 -> t = []).
Proof.
  assert (Hnorm : Decimal.unorm (N.to_uint n) = N.to_uint n).
  { rewrite <- (DecimalN.Unsigned.of_to n) at 2.
    symmetry. apply DecimalN.Unsigned.to_of. }
  pose proof (uint_str_digits (N.to_uint n)) as Hdigits.
  destruct (N.to_uint n) as [ | u | u | u | u | u | u | u | u | u | u ] eqn:Hu;
    cbn [uint_str] in *.
  - discriminate Hnorm.
  - exists 48, (uint_str u). inversion Hdigits; subst.
    split; [ done | split; [ done | split; [ done | ] ] ].
    intros _. rewrite DecimalFacts.unorm_D0 in Hnorm.
    unfold Decimal.unorm in Hnorm.
    destruct (Decimal.nzhead u) eqn:Hnz;
      try (exfalso; eapply DecimalFacts.nzhead_nonzero; rewrite Hnz; exact Hnorm).
    injection Hnorm as <-. reflexivity.
  - eexists _, _. inversion Hdigits; subst. repeat split; try done.
  - eexists _, _. inversion Hdigits; subst. repeat split; try done.
  - eexists _, _. inversion Hdigits; subst. repeat split; try done.
  - eexists _, _. inversion Hdigits; subst. repeat split; try done.
  - eexists _, _. inversion Hdigits; subst. repeat split; try done.
  - eexists _, _. inversion Hdigits; subst. repeat split; try done.
  - eexists _, _. inversion Hdigits; subst. repeat split; try done.
  - eexists _, _. inversion Hdigits; subst. repeat split; try done.
  - eexists _, _. inversion Hdigits; subst. repeat split; try done.
Qed.

Lemma follow_ok_not_digit (rest : str) :
  follow_ok rest = true ->
  match rest with [] => true | c :: _ => negb (is_digit c) end = true.
Proof.
  destruct rest as [ | c rest ]; [ done | ]. cbn [follow_ok].
  rewrite !negb_orb, !andb_true_iff. tauto.
Qed.

Lemma scan_int_part_dec_N (n : N) (rest : str) :
  follow_ok rest = true ->
  scan_int_part (dec_N n ++ rest) = Some (dec_N n, rest).
Proof.
  intros Hrest. unfold dec_N.
  destruct (to_uint_normal n) as (c & t & -> & Hc & Ht & Hzero).
  cbn [app scan_int_part].
  destruct (N.eqb_spec c 48) as [ -> | Hne ].
  - by rewrite (Hzero eq_refl).
  - rewrite Hc, span_digits_app; [ done | done | by apply follow_ok_not_digit ].
Qed.

Lemma scan_frac_none (rest : str) :
  follow_ok rest = true -> scan_frac rest = ([], rest).
Proof.
  destruct rest as [ | c [ | d rest ] ]; try done.
  cbn [follow_ok scan_frac]. rewrite !negb_orb, !andb_true_iff.
  intros [[[_ Hdot] _] _]. apply negb_true_iff in Hdot. by rewrite Hdot.
Qed.

Lemma scan_exp_none (rest : str) :
  follow_ok rest = true -> scan_exp rest = ([], rest).
Proof.
  destruct rest as [ | c rest ]; [ done | ].
  cbn [follow_ok scan_exp]. rewrite !negb_orb, !andb_true_iff.
  intros [[[_ _] He] HE]. apply negb_true_iff in He, HE. by rewrite He, HE.
Qed.

Lemma scan_number_dec_N (neg : bool) (n : N) (rest : str) :
  follow_ok rest = true ->
  (let s1 := dec_N n ++ rest in
   match scan_int_part s1 with
   | None => None
   | Some (ip, s2) =>
       let '(fp, s3) := scan_frac s2 in
       let '(ep, s4) := scan_exp s3 in
       match fp, ep with
       | [], [] =>
           let m := Z.of_N (N.of_uint (str_uint ip)) in
           Some (JInt (if neg then (- m)%Z else m), s4)
       | _, _ => Some (JFloat ((if neg then [45] else []) ++ ip ++ fp ++ ep), s4)
       end
   end) = Some (JInt (if neg then (- Z.of_N n)%Z else Z.of_N n), rest).
Proof.
  intros Hrest. cbn zeta.
  rewrite scan_int_part_dec_N, scan_frac_none, scan_exp_none by done.
  unfold dec_N. rewrite str_uint_uint_str, DecimalN.Unsigned.of_to. reflexivity.
Qed.

Lemma dec_N_head (n : N) :
  exists c t, dec_N n = c :: t /\ is_digit c = true.
Proof.
  unfold dec_N. destruct (to_uint_normal n) as (c & t & Heq & Hc & _).
  eauto.
Qed.

Lemma scan_number_dec_Z (z : Z) (rest : str) :
  follow_ok rest = true ->
  scan_number (dec_Z z ++ rest) = Some (JInt z, rest).
Proof.
  intros Hrest. unfold scan_number.
  destruct z as [ | p | p ]; cbn [dec_Z].
  - destruct (dec_N_head 0) as (c & t & Heq & Hc).
    pose proof (scan_number_dec_N false 0 rest Hrest) as Hscan.
    rewrite Heq in *. cbn [app].
    replace (c =? 45) with false
      by (symmetry; apply N.eqb_neq; intros ->; discriminate Hc).
    exact Hscan.
  - destruct (dec_N_head (Npos p)) as (c & t & Heq & Hc).
    pose proof (scan_number_dec_N false (Npos p) rest Hrest) as Hscan.
    rewrite Heq in *. cbn [app].
    replace (c =? 45) with false
      by (symmetry; apply N.eqb_neq; intros ->; discriminate Hc).
    exact Hscan.
  - cbn [app]. change (45 =? 45) with true. cbv iota.
    exact (scan_number_dec_N true (Npos p) rest Hrest).
Qed.

(** *** Values *)

Lemma enc_list_cons (level : nat) (x : json) (xs : list json) :
  enc level (JList (x :: xs))
  = 91 :: nl_indent (S level) ++ enc (S level) x ++ enc_items level xs.
Proof.
  cbn [enc]. do 3 f_equal.
  induction xs as [ | y ys IH ]; cbn [enc_items]; [ done | by rewrite IH ].
Qed.

Lemma enc_dict_cons (level : nat) (k : str) (x : json) (kxs : list (str * json)) :
  enc level (JDict ((k, x) :: kxs))
  = 123 :: nl_indent (S level) ++ enc_str k ++ [58; 32] ++ enc (S level) x ++
    enc_fields level kxs.
Proof.
  cbn [enc]. do 5 f_equal.
  induction kxs as [ | [k' y] kys IH ]; cbn [enc_fields]; [ done | by rewrite IH ].
Qed.

Lemma parse_value_S (f : nat) (c : N) (r : str) :
  parse_value (S f) (c :: r) =
    if c =? 34 then
      match scanstring r with
      | Some (x, r') => Some (JStr x, r')
      | None => None
      end
    else if c =? 123 then
      match skip_ws r with
      | [] => None
      | c' :: r' =>
          if c' =? 125 then Some (JDict [], r')
          else
            match parse_members f (c' :: r') with
            | Some (kvs, r'') => Some (JDict (dict_of_pairs kvs), r'')
            | None => None
            end
      end
    else if c =? 91 then
      match skip_ws r with
      | [] => None
      | c' :: r' =>
          if c' =? 93 then Some (JList [], r')
          else
            match parse_elems f (c' :: r') with
            | Some (vs, r'') => Some (JList vs, r'')
            | None => None
            end
      end
    else if c =? 110 then literal "null" JNull (c :: r)
    else if c =? 116 then literal "true" (JBool true) (c :: r)
    else if c =? 102 then literal "false" (JBool false) (c :: r)
    else if c =? 78 then literal "NaN" (JFloat (lit "NaN")) (c :: r)
    else if c =? 73 then literal "Infinity" (JFloat (lit "Infinity")) (c :: r)
    else if c =? 45 then
      match literal "-Infinity" (JFloat (lit "-Infinity")) (c :: r) with
      | Some res => Some res
      | None => scan_number (c :: r)
      end
    else scan_number (c :: r).
Proof. reflexivity. Qed.

Lemma parse_elems_S (f : nat) (s : str) :
  parse_elems (S f) s =
    match parse_value f s with
    | None => None
    | Some (v, r) =>
        match skip_ws r with
        | [] => None
        | c :: r' =>
            if c =? 93 then Some ([v], r')
            else if c =? 44 then
              match parse_elems f (skip_ws r') with
              | Some (vs, r'') => Some (v :: vs, r'')
              | None => None
              end
            else None
        end
    end.
Proof. reflexivity. Qed.

Lemma parse_members_S (f : nat) (r : str) :
  parse_members (S f) (34 :: r) =
    match scanstring r with
    | None => None
    | Some (k, r1) =>
        match skip_ws r1 with
        | [] => None
        | c1 :: r2 =>
            if c1 =? 58 then
              match parse_value f (skip_ws r2) with
              | None => None
              | Some (v, r3) =>
                  match skip_ws r3 with
                  | [] => None
                  | c3 :: r4 =>
                      if c3 =? 125 then Some ([(k, v)], r4)
                      else if c3 =? 44 then
                        match parse_members f (skip_ws r4) with
                        | Some (kvs, r5) => Some ((k, v) :: kvs, r5)
                        | None => None
                        end
                      else None
                  end
              end
            else None
        end
    end.
Proof. reflexivity. Qed.

Lemma skip_ws_nl_indent (level : nat) (s : str) :
  skip_ws (nl_indent level ++ s) = skip_ws s.
Proof.
  unfold nl_indent. cbn [app skip_ws]. change (is_ws 10) with true. cbv iota.
  induction (2 * level)%nat as [ | n IH ]; cbn [repeat app skip_ws]; [ done | ].
  change (is_ws 32) with true. cbv iota. exact IH.
Qed.

Lemma digit_starts_value (c : N) : is_digit c = true -> starts_value c = true.
Proof.
  unfold is_digit, starts_value, is_ws.
  rewrite !andb_true_iff, !negb_true_iff, !orb_false_iff, !N.leb_le, !N.eqb_neq.
  lia.
Qed.

Lemma enc_head (level : nat) (v : json) :
  storable v = true ->
  exists c t, enc level v = c :: t /\ starts_value c = true.
Proof.
  destruct v as [ | [ | ] | z | x | s | [ | y l ] | [ | [k y] d ] ]; intros Hst;
    try discriminate Hst;
    try (eexists _, _; split; [ reflexivity | reflexivity ]).
  - destruct z as [ | p | p ]; cbn [enc dec_Z].
    + destruct (dec_N_head 0) as (c & t & -> & Hc).
      exists c, t. split; [ done | by apply digit_starts_value ].
    + destruct (dec_N_head (Npos p)) as (c & t & -> & Hc).
      exists c, t. split; [ done | by apply digit_starts_value ].
    + eexists _, _. split; reflexivity.
Qed.

Lemma skip_ws_value (c : N) (t : str) :
  starts_value c = true -> skip_ws (c :: t) = c :: t.
Proof.
  unfold starts_value. rewrite !andb_true_iff, !negb_true_iff.
  intros [[Hws _] _]. cbn [skip_ws]. by rewrite Hws.
Qed.

Lemma dict_set_fresh (k : str) (v : json) (acc : list (str * json)) :
  k ∉ dict_keys acc -> dict_set k v acc = acc ++ [(k, v)].
Proof.
  unfold dict_keys. induction acc as [ | [k' v'] acc IH ]; cbn [map dict_set app].
  - done.
  - rewrite not_elem_of_cons. intros [Hne Hnin].
    rewrite decide_False by done. by rewrite IH.
Qed.

Lemma fold_dict_set (kvs acc : list (str * json)) :
  NoDup (dict_keys acc ++ dict_keys kvs) ->
  fold_left (fun d kv => dict_set (fst kv) (snd kv) d) kvs acc = acc ++ kvs.
Proof.
  revert acc. induction kvs as [ | [k v] kvs IH ]; intros acc Hnd; cbn [fold_left].
  - by rewrite app_nil_r.
  - cbn [fst snd]. cbn [dict_keys map] in Hnd.
    assert (Hfresh : k ∉ dict_keys acc).
    { apply NoDup_app in Hnd as (_ & Hdisj & _). intros Hin.
      apply (Hdisj k Hin). left. }
    rewrite dict_set_fresh by done. rewrite IH.
    + by rewrite <- app_assoc.
    + unfold dict_keys in *. rewrite map_app. cbn [map]. by rewrite <- app_assoc.
Qed.

Lemma dict_of_pairs_distinct (d : list (str * json)) :
  NoDup (dict_keys d) -> dict_of_pairs d = d.
Proof. intros Hnd. unfold dict_of_pairs. by rewrite fold_dict_set. Qed.

Lemma starts_value_open (c : N) :
  starts_value c = true -> (c =? 93) = false /\ (c =? 125) = false.
Proof.
  unfold starts_value. rewrite !andb_true_iff, !negb_true_iff. tauto.
Qed.

Lemma follow_ok_items (level : nat) (xs : list json) (rest : str) :
  follow_ok (enc_items level xs ++ rest) = true.
Proof. destruct xs; reflexivity. Qed.

Lemma follow_ok_fields (level : nat) (kxs : list (str * json)) (rest : str) :
  follow_ok (enc_fields level kxs ++ rest) = true.
Proof. destruct kxs as [ | [k x] kxs ]; reflexivity. Qed.

Lemma parse_value_digit (f : nat) (c : N) (t : str) :
  is_digit c = true -> parse_value (S f) (c :: t) = scan_number (c :: t).
Proof.
  intros Hc. rewrite parse_value_S.
  unfold is_digit in Hc. rewrite andb_true_iff, !N.leb_le in Hc.
  repeat match goal with
  | |- context [c =? ?n] =>
      rewrite (proj2 (N.eqb_neq c n)) by lia
  end.
  reflexivity.
Qed.

Lemma parse_value_minus (f : nat) (c : N) (t : str) :
  is_digit c = true ->
  parse_value (S f) (45 :: c :: t) = scan_number (45 :: c :: t).
Proof.
  intros Hc. rewrite parse_value_S.
  unfold is_digit in Hc. rewrite andb_true_iff, !N.leb_le in Hc.
  change (45 =? 34) with false. change (45 =? 123) with false.
  change (45 =? 91) with false. change (45 =? 110) with false.
  change (45 =? 116) with false. change (45 =? 102) with false.
  change (45 =? 78) with false. change (45 =? 73) with false.
  change (45 =? 45) with true. cbv iota.
  unfold literal. change (lit "-Infinity") with (45 :: 73 :: lit "nfinity").
  cbn [strip_prefix]. change (45 =? 45) with true. cbv iota.
  rewrite (proj2 (N.eqb_neq 73 c)) by lia. reflexivity.
Qed.

Lemma parse_value_int (z : Z) : reads_back (JInt z).
Proof.
  intros level rest fuel Hrest Hfuel. cbn [weight] in Hfuel.
  destruct fuel as [ | f ]; [ lia | ]. cbn [enc].
  rewrite <- (scan_number_dec_Z z rest Hrest).
  destruct z as [ | p | p ]; cbn [dec_Z].
  - destruct (dec_N_head 0) as (c & t & -> & Hc). by apply parse_value_digit.
  - destruct (dec_N_head (Npos p)) as (c & t & -> & Hc). by apply parse_value_digit.
  - destruct (dec_N_head (Npos p)) as (c & t & -> & Hc). by apply parse_value_minus.
Qed.

Lemma parse_elems_enc (xs : list json) :
  forall (x : json) (level : nat) (rest : str) (fuel : nat),
    Forall reads_back (x :: xs) ->
    forallb storable (x :: xs) = true ->
    (list_sum (map (fun y => S (weight y)) (x :: xs)) <= fuel)%nat ->
    parse_elems fuel (enc (S level) x ++ enc_items level xs ++ rest)
    = Some (x :: xs, rest).
Proof.
  induction xs as [ | y ys IH ]; intros x level rest fuel Hall Hst Hfuel;
    cbn [map list_sum fold_right] in Hfuel; (destruct fuel as [ | f ]; [ lia | ]);
    inversion Hall as [ | ? ? Hx Hrest ]; subst;
    rewrite parse_elems_S, Hx by (first [ apply follow_ok_items | lia ]).
  - cbn [enc_items]. rewrite <- app_assoc, skip_ws_nl_indent. reflexivity.
  - cbn [enc_items app skip_ws]. change (is_ws 44) with false. cbv iota.
    change (44 =? 93) with false. change (44 =? 44) with true. cbv iota.
    rewrite <- !app_assoc, skip_ws_nl_indent.
    cbn [forallb] in Hst. apply andb_true_iff in Hst as [_ Hst].
    pose proof Hst as Hsty. cbn [forallb] in Hsty.
    apply andb_true_iff in Hsty as [Hsty _].
    destruct (enc_head (S level) y Hsty) as (c & t & Heq & Hc).
    rewrite Heq. cbn [app]. rewrite skip_ws_value by done.
    change (c :: t ++ ?r) with ((c :: t) ++ r). rewrite <- Heq.
    rewrite IH; [ reflexivity | done | done | cbn [map list_sum fold_right]; lia ].
Qed.

Lemma parse_members_enc (kxs : list (str * json)) :
  forall (k : str) (x : json) (level : nat) (rest : str) (fuel : nat),
    Forall (fun kv => reads_back (snd kv)) ((k, x) :: kxs) ->
    forallb (fun kv => storable (snd kv)) ((k, x) :: kxs) = true ->
    (list_sum (map (fun kv => S (weight (snd kv))) ((k, x) :: kxs)) <= fuel)%nat ->
    parse_members fuel
      (enc_str k ++ [58; 32] ++ enc (S level) x ++ enc_fields level kxs ++ rest)
    = Some ((k, x) :: kxs, rest).
Proof.
  induction kxs as [ | [k' y] kys IH ]; intros k x level rest fuel Hall Hst Hfuel;
    cbn [map list_sum fold_right snd] in Hfuel; (destruct fuel as [ | f ]; [ lia | ]);
    inversion Hall as [ | ? ? Hx Hrest ]; subst; cbn [snd] in Hx;
    pose proof Hst as Hstx; cbn [forallb snd] in Hstx;
    apply andb_true_iff in Hstx as [Hstx Hst'];
    destruct (enc_head (S level) x Hstx) as (c & t & Heq & Hc);
    rewrite enc_str_unfold, parse_members_S, scanstring_enc;
    cbn [app skip_ws]; change (is_ws 58) with false; cbv iota;
    change (58 =? 58) with true; cbv iota;
    cbn [skip_ws]; change (is_ws 32) with true; cbv iota;
    rewrite Heq; cbn [app]; rewrite skip_ws_value by done;
    change (c :: t ++ ?r) with ((c :: t) ++ r); rewrite <- Heq;
    rewrite Hx by (first [ apply follow_ok_fields | lia ]).
  - cbn [enc_fields]. rewrite <- app_assoc, skip_ws_nl_indent. reflexivity.
  - cbn [enc_fields app skip_ws]. change (is_ws 44) with false. cbv iota.
    change (44 =? 125) with false. change (44 =? 44) with true. cbv iota.
    rewrite <- !app_assoc, skip_ws_nl_indent. cbn [app]. rewrite <- !app_assoc.
    rewrite (enc_str_unfold k'). cbn [skip_ws]. change (is_ws 34) with false.
    cbv iota. rewrite <- (enc_str_unfold k').
    change (58 :: 32 :: ?r) with ([58; 32] ++ r).
    rewrite IH; [ reflexivity | done | done | cbn [map list_sum fold_right snd]; lia ].
Qed.

Lemma storable_reads_back (v : json) : storable v = true -> reads_back v.
Proof.
  induction v as [ | b | z | x | s | l IHl | d IHd ] using json_nested_ind;
    intros Hst.
  - intros level rest [ | f ] _ Hfuel; [ cbn in Hfuel; lia | reflexivity ].
  - intros level rest [ | f ] _ Hfuel; [ cbn in Hfuel; lia | ].
    destruct b; reflexivity.
  - apply parse_value_int.
  - discriminate Hst.
  - intros level rest [ | f ] _ Hfuel; [ cbn in Hfuel; lia | ].
    cbn [enc]. rewrite enc_str_unfold, parse_value_S.
    change (34 =? 34) with true. cbv iota. by rewrite scanstring_enc.
  - intros level rest [ | f ] Hrest Hfuel; [ cbn in Hfuel; lia | ].
    destruct l as [ | x xs ]; [ reflexivity | ].
    cbn [storable] in Hst. cbn [weight] in Hfuel.
    assert (Hall : Forall reads_back (x :: xs)).
    { apply Forall_forall. intros y Hy.
      rewrite Forall_forall in IHl. apply IHl; [ done | ].
      rewrite forallb_forall in Hst. apply Hst. by apply list_elem_of_In. }
    pose proof Hst as Hstx. cbn [forallb] in Hstx.
    apply andb_true_iff in Hstx as [Hstx _].
    destruct (enc_head (S level) x Hstx) as (c & t & Heq & Hc).
    destruct (starts_value_open c Hc) as [Hc93 _].
    rewrite enc_list_cons. cbn [app]. rewrite parse_value_S.
    change (91 =? 34) with false. change (91 =? 123) with false.
    change (91 =? 91) with true. cbv iota.
    rewrite <- !app_assoc, skip_ws_nl_indent.
    rewrite Heq. cbn [app]. rewrite skip_ws_value by done. rewrite Hc93.
    change (c :: t ++ ?r) with ((c :: t) ++ r). rewrite <- Heq.
    rewrite parse_elems_enc; [ reflexivity | done | done | lia ].
  - intros level rest [ | f ] Hrest Hfuel; [ cbn in Hfuel; lia | ].
    destruct d as [ | [k x] kxs ]; [ reflexivity | ].
    cbn [storable] in Hst. apply andb_true_iff in Hst as [Hkeys Hst].
    apply bool_decide_eq_true_1 in Hkeys. cbn [weight] in Hfuel.
    assert (Hall : Forall (fun kv => reads_back (snd kv)) ((k, x) :: kxs)).
    { apply Forall_forall. intros kv Hkv.
      rewrite Forall_forall in IHd. apply IHd; [ done | ].
      rewrite forallb_forall in Hst. apply (Hst kv). by apply list_elem_of_In. }
    rewrite enc_dict_cons. cbn [app]. rewrite parse_value_S.
    change (123 =? 34) with false. change (123 =? 123) with true. cbv iota.
    rewrite <- !app_assoc, skip_ws_nl_indent. cbn [app]. rewrite <- !app_assoc.
    rewrite (enc_str_unfold k). cbn [skip_ws]. change (is_ws 34) with false.
    cbv iota. change (34 =? 125) with false. cbv iota.
    rewrite <- (enc_str_unfold k).
    change (58 :: 32 :: ?r) with ([58; 32] ++ r).
    rewrite parse_members_enc; [ | done | done | lia ].
    by rewrite dict_of_pairs_distinct.
Qed.

Lemma list_sum_cons (a : nat) (l : list nat) :
  list_sum (a :: l) = (a + list_sum l)%nat.
Proof. reflexivity. Qed.

Lemma nl_indent_length (level : nat) : (1 <= length (nl_indent level))%nat.
Proof. unfold nl_indent. cbn [length]. lia. Qed.

Lemma weight_le_length (v : json) :
  storable v = true -> forall level, (weight v <= length (enc level v))%nat.
Proof.
  induction v as [ | b | z | x | s | l IHl | d IHd ] using json_nested_ind;
    intros Hst level;
    try (destruct (enc_head level _ Hst) as (c & t & -> & _);
         cbn [weight length]; lia).
  - destruct l as [ | x xs ]; [ cbn; lia | ].
    rewrite enc_list_cons. cbn [weight map length]. rewrite list_sum_cons.
    rewrite !length_app. cbn [storable forallb] in Hst.
    apply andb_true_iff in Hst as [Hx Hxs].
    inversion IHl as [ | ? ? IHx IHxs ]; subst.
    specialize (IHx Hx (S level)).
    assert (Hitems : (list_sum (map (fun y => S (weight y)) xs)
                      <= length (enc_items level xs))%nat).
    { clear IHx Hx x IHl. induction xs as [ | y ys IH ];
        cbn [map enc_items length]; [ cbn; lia | ]. rewrite list_sum_cons.
      rewrite !length_app. cbn [forallb] in Hxs.
      apply andb_true_iff in Hxs as [Hy Hys].
      inversion IHxs as [ | ? ? IHy IHys ]; subst.
      specialize (IHy Hy (S level)). specialize (IH Hys IHys). lia. }
    pose proof (nl_indent_length (S level)). lia.
  - destruct d as [ | [k x] kxs ]; [ cbn; lia | ].
    rewrite enc_dict_cons. cbn [weight map length snd]. rewrite list_sum_cons.
    rewrite !length_app. cbn [storable] in Hst.
    apply andb_true_iff in Hst as [_ Hst]. cbn [forallb snd] in Hst.
    apply andb_true_iff in Hst as [Hx Hxs].
    inversion IHd as [ | ? ? IHx IHxs ]; subst. cbn [snd] in IHx.
    specialize (IHx Hx (S level)).
    assert (Hfields : (list_sum (map (fun kv => S (weight (snd kv))) kxs)
                       <= length (enc_fields level kxs))%nat).
    { clear IHx Hx x IHd. induction kxs as [ | [k' y] kys IH ];
        cbn [map enc_fields length snd]; [ cbn; lia | ]. rewrite list_sum_cons.
      rewrite !length_app. cbn [forallb snd] in Hxs.
      apply andb_true_iff in Hxs as [Hy Hys].
      inversion IHxs as [ | ? ? IHy IHys ]; subst. cbn [snd] in IHy.
      specialize (IHy Hy (S level)). specialize (IH Hys IHys). lia. }
    pose proof (nl_indent_length (S level)). lia.
Qed.

(** [json.loads(json.dumps(v, indent=2, ensure_ascii=False))] is [v]. *)
Lemma json_loads_dumps (v : json) :
  storable v = true -> json_loads (json_dumps v) = Some v.
Proof.
  intros Hst. unfold json_loads, json_dumps.
  destruct (enc_head 0%nat v Hst) as (c & t & Heq & Hc).
  pose proof (weight_le_length v Hst 0%nat) as Hw.
  pose proof (storable_reads_back v Hst 0%nat [] (2 * length (enc 0 v))%nat) as Hread.
  rewrite app_nil_r in Hread.
  rewrite Heq in *. rewrite skip_ws_value by done.
  rewrite Hread; [ reflexivity | reflexivity | lia ].
Qed.

(** ** Saving and loading *)

Lemma task_json_storable (t : Task) : storable (task_json t) = true.
Proof. reflexivity. Qed.

Lemma habit_json_storable (h : Habit) : storable (habit_json h) = true.
Proof.
  unfold habit_json. cbn [storable forallb snd].
  apply andb_true_iff. split; [ reflexivity | ].
  cbn [andb]. rewrite andb_true_r.
  induction (habit_completed_dates h) as [ | d ds IH ]; [ done | exact IH ].
Qed.

Lemma state_json_storable (S : AppState) : storable (state_json S) = true.
Proof.
  unfold state_json. cbn [storable forallb snd].
  apply andb_true_iff. split; [ reflexivity | ].
  rewrite andb_true_r. apply andb_true_iff. split.
  - induction (tasks S) as [ | t ts IH ]; [ done | ].
    cbn [map forallb]. by rewrite task_json_storable.
  - induction (habits S) as [ | h hs IH ]; [ done | ].
    cbn [map forallb]. by rewrite habit_json_storable.
Qed.

Lemma merge_defaults_state (S : AppState) :
  merge_defaults (state_json S) = Val (state_json S).
Proof. reflexivity. Qed.

(** What [save_data] wrote is what [load_data] returns, for every value that
    is written in a readable form and has both collections. *)
Lemma save_then_load_value (env env' : Env) (data : json) (w w' : World) :
  storable data = true ->
  merge_defaults data = Val data ->
  save_data env data w = Returned tt w' ->
  app_data w' = app_data w /\
  fs w' !! DATA_FILE = Some (Utf8 (json_dumps data)) /\
  load_data env' (fs w') = Val (data, fs w').
Proof.
  intros Hst Hmerge. unfold save_data.
  destruct (disk_ok env); [ | discriminate ]. cbn zeta.
  destruct (utf8_encodable (json_dumps data)); [ | discriminate ].
  intros [= <-]. cbn [app_data fs].
  split; [ reflexivity | split; [ apply lookup_insert_eq | ] ].
  unfold load_data, load_try, read_json.
  rewrite lookup_insert_eq, json_loads_dumps, Hmerge by done. reflexivity.
Qed.

(** C1. Round trip of persistence: for every state of records [S], with
    any lists of tasks and habits, the empty ones included, when [save_data]
    returns from writing [S], [load_data] returns [S], and both collections
    are in it as lists, and [data.json] stays as written. *)
Theorem save_then_load (env env' : Env) (S : AppState) (w w' : World) :
  save_data env (state_json S) w = Returned tt w' ->
  load_data env' (fs w') = Val (state_json S, fs w') /\
  res_bind (load_data env' (fs w')) (fun loaded => py_getitem (fst loaded) k_todos)
    = Val (JList (map task_json (tasks S))) /\
  res_bind (load_data env' (fs w')) (fun loaded => py_getitem (fst loaded) k_habits)
    = Val (JList (map habit_json (habits S))).
Proof.
  intros Hsave.
  destruct (save_then_load_value env env' (state_json S) w w'
              (state_json_storable S) (merge_defaults_state S) Hsave)
    as (_ & _ & Hload).
  rewrite Hload. cbn [res_bind fst]. rewrite state_todos, state_habits. done.
Qed.

(** *** When the write goes through *)

Lemma encodable_app (a b : str) :
  utf8_encodable (a ++ b) = utf8_encodable a && utf8_encodable b.
Proof. apply forallb_app. Qed.

Lemma encodable_cons (c : N) (a : str) :
  utf8_encodable (c :: a) = negb (is_surrogate c) && utf8_encodable a.
Proof. reflexivity. Qed.

Lemma small_not_surrogate (c : N) : c < 55296 -> negb (is_surrogate c) = true.
Proof.
  intros Hc. unfold is_surrogate. apply negb_true_iff, andb_false_iff.
  left. apply N.leb_gt. exact Hc.
Qed.

Lemma hexdig_small (n : N) : n < 16 -> hexdig n < 55296.
Proof. intros Hn. unfold hexdig. destruct (n <? 10); lia. Qed.

Lemma esc_char_encodable (c : N) :
  negb (is_surrogate c) = true -> utf8_encodable (esc_char c) = true.
Proof.
  intros Hc. unfold esc_char.
  repeat match goal with
  | |- context [if ?b then _ else _] => destruct b eqn:?; [ try reflexivity | ]
  end.
  - rewrite !encodable_cons.
    match goal with H : (c <? 32) = true |- _ => apply N.ltb_lt in H end.
    assert (Hhi : c / 16 < 16) by (apply N.Div0.div_lt_upper_bound; lia).
    assert (Hlo : c mod 16 < 16) by (apply N.mod_lt; lia).
    rewrite (small_not_surrogate (hexdig (c / 16))) by (by apply hexdig_small).
    rewrite (small_not_surrogate (hexdig (c mod 16))) by (by apply hexdig_small).
    reflexivity.
  - rewrite encodable_cons, Hc. reflexivity.
Qed.

Lemma escaped_encodable (s : str) :
  utf8_encodable s = true -> utf8_encodable (flat_map esc_char s) = true.
Proof.
  induction s as [ | c s IH ]; cbn [flat_map]; [ done | ].
  rewrite encodable_cons, andb_true_iff. intros [Hc Hs].
  by rewrite encodable_app, esc_char_encodable, IH.
Qed.

Lemma enc_str_encodable (s : str) :
  utf8_encodable s = true -> utf8_encodable (enc_str s) = true.
Proof.
  intros Hs. unfold enc_str.
  by rewrite encodable_cons, encodable_app, escaped_encodable.
Qed.

Lemma digits_encodable (ds : str) :
  Forall (fun c => is_digit c = true) ds -> utf8_encodable ds = true.
Proof.
  induction 1 as [ | c ds Hc Hds IH ]; [ done | ].
  rewrite encodable_cons, IH, andb_true_r. apply small_not_surrogate.
  unfold is_digit in Hc. apply andb_true_iff in Hc as [_ Hc].
  apply N.leb_le in Hc. lia.
Qed.

Lemma dec_Z_encodable (z : Z) : utf8_encodable (dec_Z z) = true.
Proof.
  destruct z; cbn [dec_Z]; rewrite ?encodable_cons; unfold dec_N;
    rewrite digits_encodable by apply uint_str_digits; reflexivity.
Qed.

Lemma nl_indent_encodable (level : nat) : utf8_encodable (nl_indent level) = true.
Proof.
  unfold nl_indent. rewrite encodable_cons. cbn [negb is_surrogate andb].
  induction (2 * level)%nat as [ | n IH ]; [ done | exact IH ].
Qed.

Lemma enc_encodable (v : json) :
  text_ok v = true -> forall level, utf8_encodable (enc level v) = true.
Proof.
  induction v as [ | b | z | x | s | l IHl | d IHd ] using json_nested_ind;
    intros Hok level.
  - reflexivity.
  - destruct b; reflexivity.
  - apply dec_Z_encodable.
  - exact Hok.
  - by apply enc_str_encodable.
  - destruct l as [ | x xs ]; [ reflexivity | ].
    cbn [text_ok forallb] in Hok. apply andb_true_iff in Hok as [Hx Hxs].
    inversion IHl as [ | ? ? IHx IHxs ]; subst.
    assert (Hitems : utf8_encodable (enc_items level xs) = true).
    { clear IHx Hx IHl. induction xs as [ | y ys IH ]; cbn [enc_items].
      - by rewrite encodable_app, nl_indent_encodable.
      - cbn [forallb] in Hxs. apply andb_true_iff in Hxs as [Hy Hys].
        inversion IHxs as [ | ? ? IHy IHys ]; subst.
        by rewrite encodable_cons, !encodable_app, nl_indent_encodable, IHy, IH. }
    by rewrite enc_list_cons, encodable_cons, !encodable_app,
      nl_indent_encodable, IHx, Hitems.
  - destruct d as [ | [k x] kxs ]; [ reflexivity | ].
    cbn [text_ok forallb fst snd] in Hok.
    apply andb_true_iff in Hok as [Hkx Hxs]. apply andb_true_iff in Hkx as [Hk Hx].
    inversion IHd as [ | ? ? IHx IHxs ]; subst. cbn [snd] in IHx.
    assert (Hfields : utf8_encodable (enc_fields level kxs) = true).
    { clear IHx Hx IHd Hk. induction kxs as [ | [k' y] kys IH ]; cbn [enc_fields].
      - by rewrite encodable_app, nl_indent_encodable.
      - cbn [forallb fst snd] in Hxs. apply andb_true_iff in Hxs as [Hky Hys].
        apply andb_true_iff in Hky as [Hk' Hy].
        inversion IHxs as [ | ? ? IHy IHys ]; subst. cbn [snd] in IHy.
        by rewrite encodable_cons, !encodable_app, nl_indent_encodable,
          enc_str_encodable, IHy, IH. }
    by rewrite enc_dict_cons, encodable_cons, !encodable_app,
      nl_indent_encodable, enc_str_encodable, IHx, Hfields.
Qed.

Lemma state_clean_text_ok (S : AppState) :
  state_clean S = true -> text_ok (state_json S) = true.
Proof.
  unfold state_clean. rewrite andb_true_iff. intros [Hts Hhs].
  unfold state_json. cbn [text_ok forallb fst snd].
  change (utf8_encodable k_todos) with true.
  change (utf8_encodable k_habits) with true. cbn [andb]. rewrite andb_true_r.
  apply andb_true_iff. split.
  - induction (tasks S) as [ | t ts IH ]; [ done | ].
    cbn [forallb] in Hts. apply andb_true_iff in Hts as [Ht Hts].
    cbn [map forallb]. rewrite IH by done. rewrite andb_true_r.
    unfold task_clean in Ht. rewrite !andb_true_iff in Ht.
    destruct Ht as [[Hid Htext] Hat].
    unfold task_json. cbn [text_ok forallb fst snd].
    change (utf8_encodable k_id) with true.
    change (utf8_encodable k_text) with true.
    change (utf8_encodable k_done) with true.
    change (utf8_encodable k_created_at) with true.
    by rewrite Hid, Htext, Hat.
  - induction (habits S) as [ | h hs IH ]; [ done | ].
    cbn [forallb] in Hhs. apply andb_true_iff in Hhs as [Hh Hhs].
    cbn [map forallb]. rewrite IH by done. rewrite andb_true_r.
    unfold habit_clean in Hh. rewrite !andb_true_iff in Hh.
    destruct Hh as [[[Hid Hname] Hat] Hdates].
    unfold habit_json. cbn [text_ok forallb fst snd].
    change (utf8_encodable k_id) with true.
    change (utf8_encodable k_name) with true.
    change (utf8_encodable k_created_at) with true.
    change (utf8_encodable k_completed_dates) with true.
    rewrite Hid, Hname, Hat. cbn [andb]. rewrite andb_true_r.
    induction (habit_completed_dates h) as [ | d ds IHd ]; [ done | ].
    cbn [forallb] in Hdates. apply andb_true_iff in Hdates as [Hd Hds].
    cbn [map forallb text_ok]. by rewrite Hd, IHd.
Qed.

(** With a disk that takes the write and no surrogate code point in the
    state, [save_data] returns and [data.json] holds the state. *)
Lemma save_data_returns (env : Env) (S : AppState) (w : World) :
  disk_ok env = true ->
  state_clean S = true ->
  save_data env (state_json S) w
  = Returned tt (mkWorld (app_data w)
                   (<[DATA_FILE := Utf8 (json_dumps (state_json S))]> (fs w))).
Proof.
  intros Hdisk Hclean. unfold save_data. rewrite Hdisk. cbn zeta.
  unfold json_dumps. rewrite enc_encodable; [ done | ].
  by apply state_clean_text_ok.
Qed.

(** ** Saving, marking and adding on the sample data *)

Lemma save_then_load_witness :
  save_data sample_env (state_json sample_state) (mkWorld sample_data ∅)
    = Returned tt saved_sample_world /\
  load_data sample_env (fs saved_sample_world)
    = Val (state_json sample_state, fs saved_sample_world).
Proof.
  assert (Hsave : save_data sample_env (state_json sample_state)
                    (mkWorld sample_data ∅) = Returned tt saved_sample_world).
  { rewrite save_data_returns by reflexivity.
    unfold saved_sample_world. cbn [app_data fs]. by rewrite insert_empty. }
  split; [ exact Hsave | ].
  exact (proj1 (save_then_load sample_env sample_env sample_state _ _ Hsave)).
Defined.

Lemma sample_dates_unique : dates_unique sample_state.
Proof.
  unfold dates_unique, sample_state. cbn [habits].
  repeat constructor. apply not_elem_of_nil.
Qed.




Lemma sample_ids_distinct : ids_distinct sample_state.
Proof. split; apply NoDup_singleton. Qed.

Lemma sample_ids_fresh : ids_fresh sample_calls sample_state.
Proof.
  cbn [ids_fresh sample_calls]. repeat split; intros _ Hin;
    apply (bool_decide_pack _) in Hin; vm_compute in Hin; exact Hin.
Qed.

Lemma ids_stay_distinct_witness :
  exists S',
    mem_after (run_calls sample_calls (mkWorld (state_json sample_state) ∅))
      = state_json S' /\
    ids_distinct S' /\
    tasks sample_state `prefix_of` tasks S' /\
    habits sample_state `prefix_of` habits S'.
Proof.
  apply ids_stay_distinct.
  - repeat constructor.
  - exact sample_ids_distinct.
  - exact sample_ids_fresh.
Defined.

(** ** The fuel of the reader is enough

    Whatever a value read with some amount of fuel, [json_loads] reads the
    same: running out of fuel is never why a text is refused. *)

Lemma push_Some (c : N) (o : option (str * str)) (x r : str) :
  push c o = Some (x, r) -> exists x', o = Some (x', r) /\ x = c :: x'.
Proof.
  destruct o as [ [x' r'] | ]; [ | discriminate ].
  cbn [push]. intros [= <- <-]. eauto.
Qed.

Lemma skip_ws_length (s : str) : (length (skip_ws s) <= length s)%nat.
Proof.
  induction s as [ | c s IH ]; cbn [skip_ws length]; [ lia | ].
  destruct (is_ws c); cbn [length]; lia.
Qed.

Lemma strip_prefix_length (p s r : str) :
  strip_prefix p s = Some r -> length s = (length p + length r)%nat.
Proof.
  revert s. induction p as [ | a p IH ]; intros s; cbn [strip_prefix length].
  - by intros [= ->].
  - destruct s as [ | b s ]; [ discriminate | ].
    destruct (a =? b); [ | discriminate ].
    intros Hp. apply IH in Hp. cbn [length]. lia.
Qed.

Lemma scanstring_shorter (n : nat) :
  forall s x r, (length s <= n)%nat -> scanstring s = Some (x, r) ->
                (length r < length s)%nat.
Proof.
  induction n as [ | n IH ]; intros [ | c s ] x r Hlen Hscan;
    try discriminate Hscan; cbn [length] in Hlen; [ lia | ].
  rewrite scanstring_cons in Hscan.
  repeat match goal with
  | H : context [if ?b then _ else _] |- _ => destruct b
  | H : context [match ?l with [] => _ | _ :: _ => _ end] |- _ =>
      is_var l; destruct l
  | H : context [match hex4 ?a ?b ?c ?d with _ => _ end] |- _ =>
      destruct (hex4 a b c d)
  | H : context [match unescape ?e with _ => _ end] |- _ =>
      destruct (unescape e)
  | H : None = Some _ |- _ => discriminate H
  | H : Some _ = Some _ |- _ => injection H as <- <-
  | H : push _ _ = Some _ |- _ => apply push_Some in H as (? & H & ->)
  | H : scanstring _ = Some _ |- _ =>
      apply IH in H; [ | cbn [length] in *; lia ]
  end;
  cbn [length] in *; lia.
Qed.

Lemma span_digits_length (s ds r : str) :
  span_digits s = (ds, r) -> length s = (length ds + length r)%nat.
Proof.
  revert ds r. induction s as [ | c s IH ]; intros ds r; cbn [span_digits].
  - by intros [= <- <-].
  - destruct (is_digit c); [ | by intros [= <- <-] ].
    destruct (span_digits s) as [ds' r'] eqn:Hspan.
    intros [= <- <-]. specialize (IH _ _ eq_refl). cbn [length]. lia.
Qed.

Lemma scan_int_part_shorter (s ip r : str) :
  scan_int_part s = Some (ip, r) -> (length r < length s)%nat.
Proof.
  destruct s as [ | c s ]; [ discriminate | ]. cbn [scan_int_part].
  destruct (c =? 48); [ intros [= <- <-]; cbn [length]; lia | ].
  destruct (is_digit c); [ | discriminate ].
  destruct (span_digits s) as [ds r'] eqn:Hspan. intros [= <- <-].
  apply span_digits_length in Hspan. cbn [length]. lia.
Qed.

Lemma scan_frac_length (s fp r : str) :
  scan_frac s = (fp, r) -> (length r <= length s)%nat.
Proof.
  unfold scan_frac. destruct s as [ | c [ | d s ] ]; try (by intros [= <- <-]).
  destruct ((c =? 46) && is_digit d); [ | by intros [= <- <-] ].
  destruct (span_digits (d :: s)) as [ds r'] eqn:Hspan. intros [= <- <-].
  apply span_digits_length in Hspan. cbn [length] in *. lia.
Qed.

Lemma scan_exp_length (s ep r : str) :
  scan_exp s = (ep, r) -> (length r <= length s)%nat.
Proof.
  unfold scan_exp. destruct s as [ | c s ]; [ by intros [= <- <-] | ].
  destruct ((c =? 101) || (c =? 69)); [ | by intros [= <- <-] ].
  destruct s as [ | g [ | d s ] ].
  - by intros [= <- <-].
  - destruct (is_digit g); intros [= <- <-]; cbn [length]; lia.
  - destruct (((g =? 43) || (g =? 45)) && is_digit d).
    + destruct (span_digits (d :: s)) as [ds r'] eqn:Hspan. intros [= <- <-].
      apply span_digits_length in Hspan. cbn [length] in *. lia.
    + destruct (is_digit g); [ | by intros [= <- <-] ].
      destruct (span_digits (g :: d :: s)) as [ds r'] eqn:Hspan.
      intros [= <- <-]. apply span_digits_length in Hspan.
      cbn [length] in *. lia.
Qed.

Lemma scan_number_shorter (s : str) (v : json) (r : str) :
  scan_number s = Some (v, r) -> (length r < length s)%nat.
Proof.
  unfold scan_number.
  set (p := match s with
            | c :: r0 => if c =? 45 then (true, r0) else (false, s)
            | [] => (false, s)
            end).
  assert (Hp : (length (snd p) <= length s)%nat).
  { subst p. destruct s as [ | c s ]; [ done | ].
    destruct (c =? 45); cbn [snd length]; lia. }
  destruct p as [neg s1]. cbn [snd] in Hp.
  destruct (scan_int_part s1) as [ [ip s2] | ] eqn:Hip; [ | discriminate ].
  apply scan_int_part_shorter in Hip.
  destruct (scan_frac s2) as [fp s3] eqn:Hfp. apply scan_frac_length in Hfp.
  destruct (scan_exp s3) as [ep s4] eqn:Hep. apply scan_exp_length in Hep.
  destruct fp, ep; intros [= <- <-]; lia.
Qed.

Lemma literal_shorter (p : String.string) (v0 v : json) (s r : str) :
  lit p <> [] -> literal p v0 s = Some (v, r) -> (length r < length s)%nat.
Proof.
  intros Hp. unfold literal.
  destruct (strip_prefix (lit p) s) as [ r' | ] eqn:Hs; [ | discriminate ].
  intros [= <- <-]. apply strip_prefix_length in Hs.
  destruct (lit p); [ done | cbn [length] in Hs; lia ].
Qed.

Lemma parse_value_settled (f' : nat) :
  settled parse_elems 0 f' -> settled parse_members 0 f' ->
  settled parse_value 1 (S f').
Proof.
  intros IHe IHm [ | c t ] v r Hparse; [ discriminate | ].
  rewrite parse_value_S in Hparse.
  assert (Hfuel : forall f, (2 * length (c :: t) <= 1 + f)%nat ->
                            exists g, f = S g /\ (2 * length t <= g)%nat).
  { intros f Hf. cbn [length] in Hf. destruct f as [ | g ]; [ lia | ].
    exists g. split; [ done | lia ]. }
  pose proof (skip_ws_length t) as Hws.
  destruct (c =? 34) eqn:H34.
  { destruct (scanstring t) as [ [x r'] | ] eqn:Hscan; [ | discriminate ].
    injection Hparse as <- <-.
    split; [ apply (scanstring_shorter _ _ _ _ (le_n _)) in Hscan;
             cbn [length]; lia | ].
    intros f Hf. destruct (Hfuel f Hf) as (g & -> & _).
    by rewrite parse_value_S, H34, Hscan. }
  destruct (c =? 123) eqn:H123.
  { destruct (skip_ws t) as [ | c' r' ] eqn:Hskip; [ discriminate | ].
    destruct (c' =? 125) eqn:H125.
    - injection Hparse as <- <-. cbn [length] in *. split; [ lia | ].
      intros f Hf. destruct (Hfuel f Hf) as (g & -> & _).
      by rewrite parse_value_S, H34, H123, Hskip, H125.
    - destruct (parse_members f' (c' :: r')) as [ [kvs r''] | ] eqn:Hm;
        [ | discriminate ].
      injection Hparse as <- <-. destruct (IHm _ _ _ Hm) as [Hlen Hany].
      cbn [length] in *. split; [ lia | ].
      intros f Hf. destruct (Hfuel f Hf) as (g & -> & Hg).
      rewrite parse_value_S, H34, H123, Hskip, H125, Hany; [ done | ].
      cbn [length]. lia. }
  destruct (c =? 91) eqn:H91.
  { destruct (skip_ws t) as [ | c' r' ] eqn:Hskip; [ discriminate | ].
    destruct (c' =? 93) eqn:H93.
    - injection Hparse as <- <-. cbn [length] in *. split; [ lia | ].
      intros f Hf. destruct (Hfuel f Hf) as (g & -> & _).
      by rewrite parse_value_S, H34, H123, H91, Hskip, H93.
    - destruct (parse_elems f' (c' :: r')) as [ [vs r''] | ] eqn:He;
        [ | discriminate ].
      injection Hparse as <- <-. destruct (IHe _ _ _ He) as [Hlen Hany].
      cbn [length] in *. split; [ lia | ].
      intros f Hf. destruct (Hfuel f Hf) as (g & -> & Hg).
      rewrite parse_value_S, H34, H123, H91, Hskip, H93, Hany; [ done | ].
      cbn [length]. lia. }
  assert (Hrest : (length r < length (c :: t))%nat).
  { repeat match type of Hparse with
    | (if ?b then _ else _) = _ => destruct b
    | match literal ?p ?v0 ?s with _ => _ end = _ =>
        destruct (literal p v0 s) as [ [v' r'] | ] eqn:Hlit;
        [ injection Hparse as <- <-;
          by apply literal_shorter in Hlit | ]
    end;
    first [ by apply literal_shorter in Hparse
          | by apply scan_number_shorter in Hparse ]. }
  split; [ exact Hrest | ].
  intros f Hf. destruct (Hfuel f Hf) as (g & -> & _).
  by rewrite parse_value_S, H34, H123, H91.
Qed.

Lemma parse_elems_settled (f' : nat) :
  settled parse_value 1 f' -> settled parse_elems 0 f' ->
  settled parse_elems 0 (S f').
Proof.
  intros IHv IHe s vs r Hparse. rewrite parse_elems_S in Hparse.
  destruct (parse_value f' s) as [ [v r1] | ] eqn:Hv; [ | discriminate ].
  destruct (IHv _ _ _ Hv) as [Hlen1 Hany1].
  pose proof (skip_ws_length r1) as Hws1.
  destruct (skip_ws r1) as [ | c r' ] eqn:Hskip; [ discriminate | ].
  cbn [length] in Hws1.
  assert (Hfuel : forall f, (2 * length s <= 0 + f)%nat ->
                            exists g, f = S g /\ (2 * length s <= 1 + g)%nat).
  { intros f Hf. destruct f as [ | g ]; [ lia | ]. exists g. split; [ done | lia ]. }
  destruct (c =? 93) eqn:H93.
  - injection Hparse as <- <-. split; [ lia | ].
    intros f Hf. destruct (Hfuel f Hf) as (g & -> & Hg).
    by rewrite parse_elems_S, Hany1, Hskip, H93.
  - destruct (c =? 44) eqn:H44; [ | discriminate ].
    destruct (parse_elems f' (skip_ws r')) as [ [vs' r''] | ] eqn:He;
      [ | discriminate ].
    injection Hparse as <- <-. destruct (IHe _ _ _ He) as [Hlen2 Hany2].
    pose proof (skip_ws_length r') as Hws2. split; [ lia | ].
    intros f Hf. destruct (Hfuel f Hf) as (g & -> & Hg).
    rewrite parse_elems_S, Hany1, Hskip, H93, H44, Hany2; [ done | lia | done ].
Qed.

Lemma parse_members_settled (f' : nat) :
  settled parse_value 1 f' -> settled parse_members 0 f' ->
  settled parse_members 0 (S f').
Proof.
  intros IHv IHm [ | q t ] kvs r Hparse; [ discriminate | ].
  destruct (N.eqb_spec q 34) as [ -> | Hq ];
    [ | cbn in Hparse; apply N.eqb_neq in Hq; rewrite Hq in Hparse;
        discriminate ].
  rewrite parse_members_S in Hparse.
  destruct (scanstring t) as [ [k r1] | ] eqn:Hscan; [ | discriminate ].
  pose proof (scanstring_shorter _ _ _ _ (le_n _) Hscan) as Hlen1.
  pose proof (skip_ws_length r1) as Hws1.
  destruct (skip_ws r1) as [ | c1 r2 ] eqn:Hskip1; [ discriminate | ].
  destruct (c1 =? 58) eqn:H58; [ | discriminate ].
  destruct (parse_value f' (skip_ws r2)) as [ [v r3] | ] eqn:Hv; [ | discriminate ].
  destruct (IHv _ _ _ Hv) as [Hlen3 Hany3].
  pose proof (skip_ws_length r2) as Hws2.
  pose proof (skip_ws_length r3) as Hws3.
  destruct (skip_ws r3) as [ | c3 r4 ] eqn:Hskip3; [ discriminate | ].
  cbn [length] in *.
  assert (Hfuel : forall f, (2 * S (length t) <= 0 + f)%nat ->
                            exists g, f = S g /\ (2 * length t <= g)%nat).
  { intros f Hf. destruct f as [ | g ]; [ lia | ]. exists g. split; [ done | lia ]. }
  destruct (c3 =? 125) eqn:H125.
  - injection Hparse as <- <-. split; [ lia | ].
    intros f Hf. destruct (Hfuel f Hf) as (g & -> & Hg).
    rewrite parse_members_S, Hscan, Hskip1, H58, Hany3, Hskip3, H125;
      [ done | lia ].
  - destruct (c3 =? 44) eqn:H44; [ | discriminate ].
    destruct (parse_members f' (skip_ws r4)) as [ [kvs' r5] | ] eqn:Hm;
      [ | discriminate ].
    injection Hparse as <- <-. destruct (IHm _ _ _ Hm) as [Hlen5 Hany5].
    pose proof (skip_ws_length r4) as Hws4. split; [ lia | ].
    intros f Hf. destruct (Hfuel f Hf) as (g & -> & Hg).
    rewrite parse_members_S, Hscan, Hskip1, H58, Hany3, Hskip3, H125, H44, Hany5;
      [ done | lia | lia ].
Qed.

Lemma parse_settled (f' : nat) :
  settled parse_value 1 f' /\ settled parse_elems 0 f' /\ settled parse_members 0 f'.
Proof.
  induction f' as [ | f' (IHv & IHe & IHm) ].
  - split; [ | split ]; intros s x r H; discriminate H.
  - split; [ by apply parse_value_settled | ].
    split; [ by apply parse_elems_settled | by apply parse_members_settled ].
Qed.

(** A text that reads as one value with some fuel, blanks allowed around
    it, is read by [json_loads]. *)
Lemma json_loads_fuel (s : str) (f : nat) (v : json) (r : str) :
  parse_value f (skip_ws s) = Some (v, r) ->
  skip_ws r = [] ->
  json_loads s = Some v.
Proof.
  intros Hparse Hend. unfold json_loads.
  destruct (parse_settled f) as (Hv & _ & _).
  destruct (Hv _ _ _ Hparse) as [_ Hany].
  rewrite Hany, Hend; [ done | ].
  pose proof (skip_ws_length s). lia.
Qed.

(** * Further properties of the store *)

(** ** The file after a call *)

(** A call that passed its guard and returned has written the session state
    it leaves. *)
Lemma run_saved (env : Env) (c : call) (w w' : World) :
  reaches_save c = true ->
  run env c w = Returned tt w' ->
  fs w' = <[DATA_FILE := Utf8 (json_dumps (app_data w'))]> (fs w).
Proof.
  intros Hsave Hrun. destruct c; simpl in Hsave; try subst confirm;
    unfold_op; unfold new_todo, new_habit in *; simpl in *;
    repeat match goal with
    | H : negb (bool_decide ?P) = true |- _ =>
        apply negb_true_iff in H; rewrite H in *
    | H : context [match ?r with Val _ => _ | Exc _ => _ end] |- _ =>
        destruct r eqn:?; simpl in *; try discriminate
    | H : context [if disk_ok ?e then _ else _] |- _ =>
        destruct (disk_ok e); simpl in *; try discriminate
    | H : context [if utf8_encodable ?t then _ else _] |- _ =>
        destruct (utf8_encodable t); simpl in *; try discriminate
    end;
    try (inversion Hrun; subst; reflexivity); try discriminate.
Qed.

(** X1. Round trip of persistence for any value: when [save_data] returns
    from writing a dict that has both [todos] and [habits], holds no float
    and no key twice at any depth, [load_data] returns that dict, whatever
    its other keys and the shape of its records, and leaves [data.json] as
    written. *)
Theorem stored_dict_round_trip (env env' : Env) (d : list (str * json))
    (w w' : World) :
  storable (JDict d) = true ->
  has_collections d ->
  save_data env (JDict d) w = Returned tt w' ->
  load_data env' (fs w') = Val (JDict d, fs w').
Proof.
  intros Hst [Htodos Hhabits] Hsave.
  apply (save_then_load_value env env' (JDict d) w w' Hst); [ | exact Hsave ].
  rewrite merge_defaults_dict. unfold with_default.
  rewrite (bool_decide_eq_true_2 (k_todos ∈ dict_keys d)) by done.
  by rewrite (bool_decide_eq_true_2 (k_habits ∈ dict_keys d)).
Qed.

(** X2. After every call that passed its guard and returned, [data.json]
    holds the text of the session state the call left, which is the text
    the settings page offers for download, and no other file has changed. *)
Theorem file_follows_session (env : Env) (c : call) (w w' : World) :
  reaches_save c = true ->
  run env c w = Returned tt w' ->
  fs w' !! DATA_FILE = Some (Utf8 (export_text w')) /\
  forall name, name <> DATA_FILE -> fs w' !! name = fs w !! name.
Proof.
  intros Hsave Hrun. rewrite (run_saved env c w w' Hsave Hrun). split.
  - apply lookup_insert_eq.
  - intros name Hne. by apply lookup_insert_ne.
Qed.

(** X3. Restart: after a call on a state of records that passed its guard
    and returned, a new session ([ensure_session_state] without [app_data],
    at any later time) starts from the state and the files that the call
    left. *)
Theorem restart_restores_session (env env' : Env) (c : call) (S : AppState)
    (files : gmap str file) (w' : World) :
  reaches_save c = true ->
  run env c (mkWorld (state_json S) files) = Returned tt w' ->
  ensure_session_state env' None (fs w') = Val w'.
Proof.
  intros Hsave Hrun. rewrite run_refines, Hsave in Hrun.
  apply (save_then_load_value env env') in Hrun as (Hmem & _ & Hload);
    [ | apply state_json_storable | apply merge_defaults_state ].
  unfold ensure_session_state. rewrite Hload.
  destruct w' as [m fs']. cbn [app_data fs] in *. by rewrite Hmem.
Qed.

(** X4. [load_data] settles: after a load that returned, loading again, at
    any later time and whether or not a rename would go through then,
    returns the value of the first load and changes no file; a backup is
    made at most once for a file. *)
Theorem load_data_settles (env env' : Env) (files files' : gmap str file)
    (data : json) :
  load_data env files = Val (data, files') ->
  load_data env' files' = Val (data, files').
Proof.
  unfold load_data at 1.
  destruct (files !! DATA_FILE) as [ f | ] eqn:Hfile.
  - destruct (load_try f) as [ raw | ] eqn:Htry.
    + intros [= <- <-]. unfold load_data. by rewrite Hfile, Htry.
    + destruct (rename_ok env); [ | discriminate ].
      intros [= <- <-]. unfold load_data.
      rewrite lookup_insert_ne by apply backup_name_fresh.
      by rewrite lookup_delete_eq.
  - intros [= <- <-]. unfold load_data. by rewrite Hfile.
Qed.

(** ** Deleting and toggling *)

Lemma mem_after_save (env : Env) (data : json) (w : World) :
  mem_after (save_data env data w) = app_data w.
Proof.
  unfold save_data. destruct (disk_ok env); [ | done ]. cbn zeta.
  by destruct (utf8_encodable (json_dumps data)).
Qed.

(** The session state after a call on records, whether the write goes
    through or not. *)
Lemma mem_after_run (env : Env) (c : call) (S : AppState) (files : gmap str file) :
  mem_after (run env c (mkWorld (state_json S) files))
  = state_json (step_spec env c S).
Proof.
  rewrite run_refines. destruct (reaches_save c) eqn:Hsave.
  - by rewrite mem_after_save.
  - destruct c; try discriminate; cbn [reaches_save step_spec] in *;
      unfold AddTask_spec, AddHabit_spec, ClearAll_spec;
      try (apply negb_false_iff in Hsave); by rewrite Hsave.
Qed.

Lemma filter_all {A : Type} (P : A -> Prop) `{!forall x, Decision (P x)}
    (l : list A) :
  Forall P l -> filter P l = l.
Proof.
  induction 1 as [ | x l Hx Hl IH ]; [ done | ].
  by rewrite filter_cons_True, IH.
Qed.

Lemma filter_twice {A : Type} (P : A -> Prop) `{!forall x, Decision (P x)}
    (l : list A) :
  filter P (filter P l) = filter P l.
Proof.
  apply filter_all, Forall_forall. intros x Hx.
  by apply list_elem_of_filter in Hx as [HP _].
Qed.

Lemma not_in_ids {A : Type} (f : A -> str) (ident : str) (l : list A) :
  ident ∉ map f l -> Forall (fun x => f x <> ident) l.
Proof.
  intros Hnin. apply Forall_forall. intros x Hx Heq. apply Hnin.
  rewrite <- Heq. apply list_elem_of_fmap. eauto.
Qed.

(** X5. [delete_todo] on records: every task with the id goes, the first
    and any other; the tasks left are the others, in their order; the
    habits stay; with an id that no task has the state stays as it is; a
    second call changes nothing more. This is the session state also when
    the write fails. *)
Theorem delete_todo_removes (env : Env) (ident : str) (S : AppState)
    (files : gmap str file) :
  exists S',
    mem_after (delete_todo env ident (mkWorld (state_json S) files))
      = state_json S' /\
    (forall t, t ∈ tasks S' <-> t ∈ tasks S /\ task_id t <> ident) /\
    tasks S' `sublist_of` tasks S /\
    habits S' = habits S /\
    (ident ∉ task_ids S -> S' = S) /\
    (forall env' files',
       mem_after (delete_todo env' ident (mkWorld (state_json S') files'))
       = state_json S').
Proof.
  exists (DeleteTask_spec ident S).
  split; [ exact (mem_after_run env (DeleteTask ident) S files) | ].
  unfold DeleteTask_spec. cbn [tasks habits].
  split; [ | split; [ | split; [ | split ] ] ].
  - intros t. rewrite list_elem_of_filter. tauto.
  - apply sublist_filter.
  - reflexivity.
  - intros Hnin. destruct S as [ts hs]. cbn [tasks habits].
    by rewrite filter_all by by apply not_in_ids.
  - intros env' files'.
    etrans; [ exact (mem_after_run env' (DeleteTask ident) _ files') | ].
    cbn [step_spec]. unfold DeleteTask_spec. cbn [tasks habits].
    by rewrite filter_twice.
Qed.

(** X6. [delete_habit] on records: every habit with the id goes, with its
    completion dates; the habits left are the others, in their order; the
    tasks stay; with an id that no habit has the state stays as it is; a
    second call changes nothing more. *)
Theorem delete_habit_removes (env : Env) (ident : str) (S : AppState)
    (files : gmap str file) :
  exists S',
    mem_after (delete_habit env ident (mkWorld (state_json S) files))
      = state_json S' /\
    (forall h, h ∈ habits S' <-> h ∈ habits S /\ habit_id h <> ident) /\
    habits S' `sublist_of` habits S /\
    tasks S' = tasks S /\
    (ident ∉ habit_ids S -> S' = S) /\
    (forall env' files',
       mem_after (delete_habit env' ident (mkWorld (state_json S') files'))
       = state_json S').
Proof.
  exists (DeleteHabit_spec ident S).
  split; [ exact (mem_after_run env (DeleteHabit ident) S files) | ].
  unfold DeleteHabit_spec. cbn [tasks habits].
  split; [ | split; [ | split; [ | split ] ] ].
  - intros h. rewrite list_elem_of_filter. tauto.
  - apply sublist_filter.
  - reflexivity.
  - intros Hnin. destruct S as [ts hs]. cbn [tasks habits].
    by rewrite filter_all by by apply not_in_ids.
  - intros env' files'.
    etrans; [ exact (mem_after_run env' (DeleteHabit ident) _ files') | ].
    cbn [step_spec]. unfold DeleteHabit_spec. cbn [tasks habits].
    by rewrite filter_twice.
Qed.

Lemma flip_task_twice (t : Task) : flip_task (flip_task t) = t.
Proof. destruct t as [i x b a]. unfold flip_task. cbn. by rewrite negb_involutive. Qed.

Lemma on_first_task_twice (ident : str) (ts : list Task) :
  on_first_task flip_task ident (on_first_task flip_task ident ts) = ts.
Proof.
  induction ts as [ | t ts IH ]; cbn [on_first_task]; [ done | ].
  case_bool_decide as Hid; cbn [on_first_task].
  - rewrite bool_decide_eq_true_2 by done. by rewrite flip_task_twice.
  - rewrite bool_decide_eq_false_2 by done. by rewrite IH.
Qed.

Lemma on_first_task_split (f : Task -> Task) (ident : str)
    (pre post : list Task) (t : Task) :
  ident ∉ map task_id pre -> task_id t = ident ->
  on_first_task f ident (pre ++ t :: post) = pre ++ f t :: post.
Proof.
  intros Hpre Hid. induction pre as [ | x pre IH ]; cbn [app on_first_task].
  - by rewrite bool_decide_eq_true_2.
  - cbn [map] in Hpre. apply not_elem_of_cons in Hpre as [Hne Hpre].
    rewrite bool_decide_eq_false_2 by done. by rewrite IH.
Qed.

Lemma on_first_task_absent (f : Task -> Task) (ident : str) (ts : list Task) :
  ident ∉ map task_id ts -> on_first_task f ident ts = ts.
Proof.
  induction ts as [ | t ts IH ]; cbn [map on_first_task]; [ done | ].
  rewrite not_elem_of_cons. intros [Hne Hnin].
  rewrite bool_decide_eq_false_2 by done. by rewrite IH.
Qed.

(** X7. [toggle_todo] on records: the first task with the id, in the order
    of the store, gets the other value of [done] and keeps its id, text and
    creation time; every other task, also a later one with the same id,
    and the habits stay; with an id that no task has the state stays as it
    is; a second call with the same id gives the first state back. *)
Theorem toggle_todo_flips_first (env : Env) (ident : str) (S : AppState)
    (files : gmap str file) :
  exists S',
    mem_after (toggle_todo env ident (mkWorld (state_json S) files))
      = state_json S' /\
    (forall pre t post,
       tasks S = pre ++ t :: post -> task_id t = ident ->
       ident ∉ map task_id pre ->
       tasks S' = pre ++ mkTask (task_id t) (task_text t) (negb (task_done t))
                           (task_created_at t) :: post) /\
    habits S' = habits S /\
    (ident ∉ task_ids S -> S' = S) /\
    (forall env' files',
       mem_after (toggle_todo env' ident (mkWorld (state_json S') files'))
       = state_json S).
Proof.
  exists (ToggleTask_spec ident S).
  split; [ exact (mem_after_run env (ToggleTask ident) S files) | ].
  unfold ToggleTask_spec. cbn [tasks habits].
  split; [ | split; [ | split ] ].
  - intros pre t post -> Hid Hpre. by apply on_first_task_split.
  - reflexivity.
  - intros Hnin. destruct S as [ts hs]. cbn [tasks habits].
    by rewrite on_first_task_absent.
  - intros env' files'.
    etrans; [ exact (mem_after_run env' (ToggleTask ident) _ files') | ].
    cbn [step_spec]. unfold ToggleTask_spec. cbn [tasks habits].
    rewrite on_first_task_twice. by destruct S.
Qed.

Lemma update_first_flip_done (ident : str) (pre post : list json)
    (hd : list (str * json)) :
  Forall (other_id ident) pre ->
  dict_get k_id hd = Some (JStr ident) ->
  dict_get k_done hd = None ->
  update_first flip_done ident (pre ++ JDict hd :: post)
  = Val (pre ++ JDict (hd ++ [(k_done, JBool true)]) :: post).
Proof.
  intros Hpre Hid Hdone.
  induction Hpre as [ | x pre (v & Hv & Hne) Hpre IH ]; cbn [app update_first].
  - cbn [py_getitem]. rewrite Hid. cbn [res_bind py_eq_str].
    rewrite bool_decide_eq_true_2 by done.
    unfold flip_done. rewrite Hdone. cbn [default py_truth negb res_bind].
    rewrite dict_set_fresh by by apply dict_get_keys. reflexivity.
  - rewrite Hv. cbn [res_bind]. rewrite Hne, IH. reflexivity.
Qed.

(** X8. [toggle_todo] on a task record without [done]: the record counts as
    not done ([t.get] with [False]), so the call gives it [done] with
    [True], as a new last key, and leaves the rest of the state as it is;
    no exception is raised for the missing key. *)
Theorem toggle_todo_without_done (env : Env) (ident : str) (w : World)
    (d : list (str * json)) (pre post : list json) (hd : list (str * json)) :
  app_data w = JDict d ->
  dict_get k_todos d = Some (JList (pre ++ JDict hd :: post)) ->
  Forall (other_id ident) pre ->
  dict_get k_id hd = Some (JStr ident) ->
  dict_get k_done hd = None ->
  mem_after (toggle_todo env ident w)
  = JDict (dict_set k_todos
             (JList (pre ++ JDict (hd ++ [(k_done, JBool true)]) :: post)) d).
Proof.
  intros Hdata Htodos Hpre Hid Hdone.
  unfold toggle_todo, M_bind, get_data, set_data, eval.
  rewrite Hdata. cbn [py_getitem]. rewrite Htodos. cbn [py_iter].
  rewrite update_first_flip_done by done.
  cbn [store_items store_item app_data fs].
  by rewrite mem_after_save.
Qed.

(** ** A session state that is no dict *)

(** X9. When the session state is no dict (as after loading a file that
    holds a JSON array with both names), every call that passes its guard,
    [clear_all_data] apart, raises [TypeError] where it reads [data] and
    leaves the session state as it is. *)
Theorem non_dict_state_raises (env : Env) (c : call) (w : World) :
  (forall d, app_data w <> JDict d) ->
  reads_state c = true ->
  run env c w = Raised TypeError (app_data w).
Proof.
  intros Hnd Hreads.
  destruct w as [m files]. cbn [app_data] in *.
  destruct m as [ | b | z | x | s | l | d ]; try (by destruct (Hnd d));
    destruct c; cbn [reads_state reaches_save] in Hreads; try discriminate;
    try (apply negb_true_iff in Hreads);
    unfold_op; rewrite ?Hreads; reflexivity.
Qed.

(** ** What a call leaves alone *)

Lemma dict_keys_set (k : str) (v x : json) (d : list (str * json)) :
  dict_get k d = Some x -> dict_keys (dict_set k v d) = dict_keys d.
Proof.
  unfold dict_keys. induction d as [ | [k' v'] d IH ]; cbn [dict_get dict_set map];
    [ done | ].
  destruct (decide (k = k')) as [ -> | Hne ]; cbn [map fst]; [ done | ].
  intros Hget. by rewrite IH.
Qed.

(** X10. Frame of the calls on tasks and habits, for any dict as session
    state, whatever its keys and records: after the call, returned or
    raised, the state is a dict with the same keys in the same order, and
    every key but the call's own ([todos] or [habits]) has the value it
    had: a task call leaves the habits alone, a habit call the tasks, and
    both leave alone whatever else [data.json] brought in. *)
Theorem calls_keep_other_keys (env : Env) (c : call) (w : World)
    (d : list (str * json)) (key : str) :
  app_data w = JDict d ->
  collection c = Some key ->
  exists d',
    mem_after (run env c w) = JDict d' /\
    dict_keys d' = dict_keys d /\
    forall k, k <> key -> dict_get k d' = dict_get k d.
Proof.
  intros Hdata Hkey. destruct w as [m files]. cbn [app_data] in Hdata. subst m.
  assert (Hsame : exists d', JDict d = JDict d' /\ dict_keys d' = dict_keys d /\
                    forall k, k <> key -> dict_get k d' = dict_get k d)
    by (exists d; done).
  assert (Hset : forall x v, dict_get key d = Some x ->
            exists d', JDict (dict_set key v d) = JDict d' /\
              dict_keys d' = dict_keys d /\
              forall k, k <> key -> dict_get k d' = dict_get k d).
  { intros x v Hx. exists (dict_set key v d).
    split; [ done | split; [ by eapply dict_keys_set | ] ].
    intros k Hne. by apply dict_get_set_ne. }
  destruct c; cbn [collection] in Hkey; try discriminate;
    injection Hkey as <-; cbn [run];
    unfold add_todo, delete_todo, toggle_todo, add_habit, delete_habit,
      toggle_habit_today;
    try (case_bool_decide; [ exact Hsame | ]);
    unfold M_bind, get_data, set_data, eval; cbn [app_data fs py_getitem];
    match goal with
    | |- context [dict_get ?k d] =>
        destruct (dict_get k d) as [ v | ] eqn:Hget; [ | exact Hsame ]
    end.
  - destruct v; cbn [py_append mem_after]; try exact Hsame.
    rewrite mem_after_save. cbn [app_data store_item]. by eapply Hset.
  - destruct (py_iter v) as [ items | ]; [ | exact Hsame ].
    destruct (without_id ident items) as [ kept | ]; [ | exact Hsame ].
    cbn [py_setitem]. rewrite mem_after_save. cbn [app_data]. by eapply Hset.
  - destruct (py_iter v) as [ items | ]; [ | exact Hsame ].
    destruct (update_first flip_done ident items) as [ items' | ];
      [ | exact Hsame ].
    rewrite mem_after_save. cbn [app_data].
    destruct v; cbn [store_items store_item]; try exact Hsame. by eapply Hset.
  - destruct v; cbn [py_append mem_after]; try exact Hsame.
    rewrite mem_after_save. cbn [app_data store_item]. by eapply Hset.
  - destruct (py_iter v) as [ items | ]; [ | exact Hsame ].
    destruct (without_id ident items) as [ kept | ]; [ | exact Hsame ].
    cbn [py_setitem]. rewrite mem_after_save. cbn [app_data]. by eapply Hset.
  - destruct (py_iter v) as [ items | ]; [ | exact Hsame ].
    destruct (update_first _ ident items) as [ items' | ]; [ | exact Hsame ].
    rewrite mem_after_save. cbn [app_data].
    destruct v; cbn [store_items store_item]; try exact Hsame. by eapply Hset.
Qed.

(** ** Adding, then deleting *)

Lemma returned_mem {A : Type} (o : outcome A) (a : A) (w : World) :
  o = Returned a w -> app_data w = mem_after o.
Proof. by intros ->. Qed.

Lemma as_state (w : World) (S : AppState) :
  app_data w = state_json S -> w = mkWorld (state_json S) (fs w).
Proof. destruct w as [m files]. cbn [app_data fs]. by intros ->. Qed.

(** X11. Adding and then deleting: when the id that [new_id] hands out is
    not yet in the collection, a returned [add_todo] followed by
    [delete_todo] of the new id gives the state before the two calls, and
    so do [add_habit] and [delete_habit]; this holds for blank input too,
    where nothing was added. *)
Theorem add_then_delete (env env' : Env) (text : str) (S : AppState)
    (files : gmap str file) :
  new_id env ∉ task_ids S ->
  new_id env ∉ habit_ids S ->
  (forall w1,
     add_todo env text (mkWorld (state_json S) files) = Returned tt w1 ->
     mem_after (delete_todo env' (new_id env) w1) = state_json S) /\
  (forall w1,
     add_habit env text (mkWorld (state_json S) files) = Returned tt w1 ->
     mem_after (delete_habit env' (new_id env) w1) = state_json S).
Proof.
  intros Htasks Hhabits. split; intros w1 Hadd; apply returned_mem in Hadd.
  - pose proof (mem_after_run env (AddTask text) S files) as Hm.
    cbn [run] in Hm. rewrite Hm in Hadd. clear Hm.
    rewrite (as_state _ _ Hadd).
    etrans; [ exact (mem_after_run env' (DeleteTask (new_id env)) _ _) | ].
    f_equal. cbn [step_spec]. unfold DeleteTask_spec, AddTask_spec.
    destruct S as [ts hs]. unfold task_ids in Htasks. cbn [tasks habits] in *.
    case_bool_decide; cbn [tasks habits].
    + by rewrite filter_all by by apply not_in_ids.
    + rewrite filter_app, filter_all by by apply not_in_ids.
      rewrite filter_cons_False by (cbn [task_id]; intros Hne; by apply Hne).
      by rewrite filter_nil, app_nil_r.
  - pose proof (mem_after_run env (AddHabit text) S files) as Hm.
    cbn [run] in Hm. rewrite Hm in Hadd. clear Hm.
    rewrite (as_state _ _ Hadd).
    etrans; [ exact (mem_after_run env' (DeleteHabit (new_id env)) _ _) | ].
    f_equal. cbn [step_spec]. unfold DeleteHabit_spec, AddHabit_spec.
    destruct S as [ts hs]. unfold habit_ids in Hhabits. cbn [tasks habits] in *.
    case_bool_decide; cbn [tasks habits].
    + by rewrite filter_all by by apply not_in_ids.
    + rewrite filter_app, filter_all by by apply not_in_ids.
      rewrite filter_cons_False by (cbn [habit_id]; intros Hne; by apply Hne).
      by rewrite filter_nil, app_nil_r.
Qed.

(** ** Stored text is trimmed *)

Lemma lstrip_head (s : str) (c : N) :
  head (lstrip s) = Some c -> is_space c = false.
Proof.
  induction s as [ | x s IH ]; cbn [lstrip]; [ done | ].
  destruct (is_space x) eqn:Hx; [ exact IH | ].
  cbn [head]. by intros [= <-].
Qed.

Lemma lstrip_fixed (s : str) :
  (forall c, head s = Some c -> is_space c = false) -> lstrip s = s.
Proof.
  destruct s as [ | x s ]; [ done | ]. cbn [head lstrip].
  intros H. by rewrite (H x).
Qed.

Lemma lstrip_snoc (s : str) (c : N) :
  is_space c = false -> lstrip (s ++ [c]) = lstrip s ++ [c].
Proof.
  intros Hc. induction s as [ | x s IH ]; cbn [app lstrip].
  - by rewrite Hc.
  - by destruct (is_space x).
Qed.

Lemma head_rev (s : str) : head (rev s) = last s.
Proof. rewrite rev_alt. apply head_reverse. Qed.

Lemma last_rev (s : str) : last (rev s) = head s.
Proof. rewrite rev_alt. apply last_reverse. Qed.

(** What [strip] returns starts and ends with a character that is no
    blank. *)
Lemma strip_ends (s : str) :
  (forall c, head (strip s) = Some c -> is_space c = false) /\
  (forall c, last (strip s) = Some c -> is_space c = false).
Proof.
  unfold strip.
  pose proof (lstrip_head s) as Ha. set (a := lstrip s) in *. clearbody a.
  split.
  - destruct a as [ | x a ]; [ done | ].
    specialize (Ha x eq_refl).
    cbn [rev]. rewrite lstrip_snoc, rev_app_distr by done.
    cbn [rev app head]. by intros c [= <-].
  - intros c. rewrite last_rev. apply lstrip_head.
Qed.

Lemma strip_trimmed (s : str) : strip s <> [] -> trimmed (strip s).
Proof. intros Hne. split; [ done | apply strip_ends ]. Qed.

(** [strip] leaves a text alone that has no blank at either end. *)
Lemma strip_fixed (s : str) : trimmed s -> strip s = s.
Proof.
  intros (_ & Hhead & Hlast). unfold strip.
  rewrite (lstrip_fixed s Hhead).
  rewrite lstrip_fixed; [ apply rev_involutive | ].
  intros c. rewrite head_rev. apply Hlast.
Qed.

Lemma on_first_task_texts (ident : str) (ts : list Task) :
  map task_text (on_first_task flip_task ident ts) = map task_text ts.
Proof.
  induction ts as [ | t ts IH ]; cbn [on_first_task map]; [ done | ].
  case_bool_decide; cbn [map]; [ done | by rewrite IH ].
Qed.

Lemma on_first_habit_names (today ident : str) (completed : bool) (hs : list Habit) :
  map habit_name (on_first_habit (set_today today completed) ident hs)
  = map habit_name hs.
Proof.
  induction hs as [ | h hs IH ]; cbn [on_first_habit map]; [ done | ].
  case_bool_decide; cbn [map]; [ | by rewrite IH ].
  f_equal. unfold set_today. by repeat case_match.
Qed.

Lemma Forall_by_map {A B : Type} (f : A -> B) (P : B -> Prop) (l l' : list A) :
  map f l' = map f l -> Forall (fun x => P (f x)) l -> Forall (fun x => P (f x)) l'.
Proof.
  intros Hmap Hl. apply Forall_fmap. apply Forall_fmap in Hl.
  change (Forall P (map f l')). by rewrite Hmap.
Qed.

(** X12. The store holds trimmed text: from a state of records in which
    every task text and every habit name is non-empty with no blank at
    either end, every call leaves such a state (what [add_todo] and
    [add_habit] store is the input without the blanks around it, and they
    store nothing when nothing is left); and storing such a text again
    would store it as it is. *)
Theorem texts_stay_trimmed (env : Env) (c : call) (S : AppState)
    (files : gmap str file) :
  texts_trimmed S ->
  exists S',
    mem_after (run env c (mkWorld (state_json S) files)) = state_json S' /\
    texts_trimmed S' /\
    Forall (fun t => strip (task_text t) = task_text t) (tasks S') /\
    Forall (fun h => strip (habit_name h) = habit_name h) (habits S').
Proof.
  intros Htrim. exists (step_spec env c S).
  split; [ apply mem_after_run | ].
  assert (Hstep : texts_trimmed (step_spec env c S)).
  { destruct Htrim as [Hts Hhs].
    destruct c; cbn [step_spec];
      unfold AddTask_spec, DeleteTask_spec, ToggleTask_spec, AddHabit_spec,
        DeleteHabit_spec, SetHabitToday_spec, ClearAll_spec, texts_trimmed;
      repeat case_bool_decide; cbn [tasks habits]; try done.
    - split; [ | done ]. apply Forall_app. split; [ done | ].
      constructor; [ | done ]. cbn [task_text]. by apply strip_trimmed.
    - split; [ | done ]. by apply Forall_filter_keep.
    - split; [ | done ].
      eapply (Forall_by_map task_text trimmed); [ | exact Hts ].
      apply on_first_task_texts.
    - split; [ done | ]. apply Forall_app. split; [ done | ].
      constructor; [ | done ]. cbn [habit_name]. by apply strip_trimmed.
    - split; [ done | ]. by apply Forall_filter_keep.
    - split; [ done | ].
      eapply (Forall_by_map habit_name trimmed); [ | exact Hhs ].
      apply on_first_habit_names.
    - destruct confirm; cbn [tasks habits]; done. }
  split; [ exact Hstep | ]. destruct Hstep as [Hts Hhs].
  split; eapply Forall_impl; try eassumption; intros x Hx; by apply strip_fixed.
Qed.

(** ** Backups *)

Lemma uint_str_inj (u u' : Decimal.uint) : uint_str u = uint_str u' -> u = u'.
Proof.
  revert u'. induction u as [ | u IH | u IH | u IH | u IH | u IH | u IH | u IH
                              | u IH | u IH | u IH ];
    intros [ | u' | u' | u' | u' | u' | u' | u' | u' | u' | u' ] H;
    cbn [uint_str] in H; try discriminate H; try reflexivity;
    injection H as H; f_equal; by apply IH.
Qed.

Lemma dec_N_inj (n n' : N) : dec_N n = dec_N n' -> n = n'.
Proof.
  unfold dec_N. intros H. by apply DecimalN.Unsigned.to_uint_inj, uint_str_inj.
Qed.

Lemma dec_N_no_sign (n : N) (t : str) : dec_N n <> 45 :: t.
Proof.
  destruct (dec_N_head n) as (c & t' & -> & Hc). intros [= -> _].
  discriminate Hc.
Qed.

(** [str] of an integer tells the integers apart. *)
Lemma dec_Z_inj (z z' : Z) : dec_Z z = dec_Z z' -> z = z'.
Proof.
  destruct z as [ | p | p ], z' as [ | p' | p' ]; cbn [dec_Z]; intros H;
    try reflexivity;
    try (apply dec_N_inj in H; congruence);
    try (by apply dec_N_no_sign in H);
    try (symmetry in H; by apply dec_N_no_sign in H).
  injection H as H. apply dec_N_inj in H. congruence.
Qed.

Lemma backup_name_inj (env env' : Env) :
  backup_name env = backup_name env' -> now_epoch env = now_epoch env'.
Proof.
  unfold backup_name. intros H. apply app_inv_head in H.
  apply app_inv_head in H. by apply dec_Z_inj.
Qed.

(** X13. Backups pile up: when [load_data] has moved an unreadable
    [data.json] to its backup and later, in another second of the clock,
    finds an unreadable [data.json] again and moves it too, the second
    backup gets another name; both contents are kept, each under its own
    name, and no [data.json] is left. *)
Theorem backups_accumulate (env1 env2 : Env) (files : gmap str file)
    (f1 f2 : file) :
  now_epoch env1 <> now_epoch env2 ->
  files !! DATA_FILE = Some f1 ->
  load_try f1 = None ->
  load_try f2 = None ->
  rename_ok env1 = true ->
  rename_ok env2 = true ->
  exists files1 files2,
    load_data env1 files = Val (default_data, files1) /\
    load_data env2 (<[DATA_FILE := f2]> files1) = Val (default_data, files2) /\
    backup_name env1 <> backup_name env2 /\
    files2 !! backup_name env1 = Some f1 /\
    files2 !! backup_name env2 = Some f2 /\
    files2 !! DATA_FILE = None.
Proof.
  intros Hclock Hfile Hf1 Hf2 Hr1 Hr2.
  assert (Hne : backup_name env1 <> backup_name env2)
    by (intros H; by apply Hclock, backup_name_inj).
  eexists _, _.
  split; [ unfold load_data; rewrite Hfile, Hf1, Hr1; reflexivity | ].
  split; [ unfold load_data; rewrite lookup_insert_eq, Hf2, Hr2; reflexivity | ].
  split; [ exact Hne | ].
  split; [ | split ].
  - rewrite lookup_insert_ne by done.
    rewrite lookup_delete_ne by (intros H; by apply (backup_name_fresh env1)).
    rewrite lookup_insert_ne by (intros H; by apply (backup_name_fresh env1)).
    apply lookup_insert_eq.
  - apply lookup_insert_eq.
  - rewrite lookup_insert_ne by apply backup_name_fresh.
    apply lookup_delete_eq.
Qed.

(** ** Text that the file does not take *)

Lemma esc_char_surrogate (c : N) :
  utf8_encodable (esc_char c) = negb (is_surrogate c).
Proof.
  destruct (is_surrogate c) eqn:Hc.
  - pose proof Hc as Hsur.
    unfold is_surrogate in Hc. apply andb_true_iff in Hc as [Hlo _].
    apply N.leb_le in Hlo. unfold esc_char.
    repeat match goal with
    | |- context [c =? ?k] =>
        replace (c =? k) with false by (symmetry; apply N.eqb_neq; lia)
    end.
    replace (c <? 32) with false by (symmetry; apply N.ltb_ge; lia).
    by rewrite encodable_cons, Hsur.
  - apply esc_char_encodable. by rewrite Hc.
Qed.

Lemma enc_str_surrogate (s : str) :
  utf8_encodable (enc_str s) = utf8_encodable s.
Proof.
  unfold enc_str. rewrite encodable_cons, encodable_app.
  change (negb (is_surrogate 34)) with true.
  change (utf8_encodable [34]) with true. cbn [andb]. rewrite andb_true_r.
  induction s as [ | c s IH ]; cbn [flat_map]; [ done | ].
  by rewrite encodable_app, esc_char_surrogate, IH.
Qed.

(** The text written has a surrogate code point exactly when a string of
    the value has one. *)
Lemma enc_surrogate (v : json) (level : nat) :
  utf8_encodable (enc level v) = text_ok v.
Proof.
  revert level.
  induction v as [ | b | z | x | s | l IHl | d IHd ] using json_nested_ind;
    intros level.
  - reflexivity.
  - by destruct b.
  - apply dec_Z_encodable.
  - reflexivity.
  - apply enc_str_surrogate.
  - destruct l as [ | x xs ]; [ reflexivity | ].
    inversion IHl as [ | ? ? IHx IHxs ]; subst.
    assert (Hitems : utf8_encodable (enc_items level xs) = forallb text_ok xs).
    { clear IHx IHl. induction xs as [ | y ys IH ]; cbn [enc_items forallb].
      - by rewrite encodable_app, nl_indent_encodable.
      - inversion IHxs as [ | ? ? IHy IHys ]; subst.
        by rewrite encodable_cons, !encodable_app, nl_indent_encodable, IHy, IH. }
    rewrite enc_list_cons, encodable_cons, !encodable_app,
      nl_indent_encodable, IHx, Hitems. reflexivity.
  - destruct d as [ | [k x] kxs ]; [ reflexivity | ].
    inversion IHd as [ | ? ? IHx IHxs ]; subst. cbn [snd] in IHx.
    assert (Hfields : utf8_encodable (enc_fields level kxs)
                      = forallb (fun kv => utf8_encodable (fst kv) && text_ok (snd kv)) kxs).
    { clear IHx IHd. induction kxs as [ | [k' y] kys IH ];
        cbn [enc_fields forallb fst snd].
      - by rewrite encodable_app, nl_indent_encodable.
      - inversion IHxs as [ | ? ? IHy IHys ]; subst. cbn [snd] in IHy.
        rewrite encodable_cons, !encodable_app, nl_indent_encodable,
          enc_str_surrogate, IHy, IH by done.
        change (negb (is_surrogate 44)) with true.
        change (utf8_encodable [58; 32]) with true.
        cbn [andb]. by rewrite andb_assoc. }
    rewrite enc_dict_cons, encodable_cons, !encodable_app,
      nl_indent_encodable, enc_str_surrogate, IHx, Hfields.
    change (negb (is_surrogate 123)) with true.
    change (utf8_encodable [58; 32]) with true.
    cbn [text_ok forallb fst snd andb]. by rewrite andb_assoc.
Qed.

(** X14. With a disk that takes the write, [save_data] returns exactly
    when no string of the value, key or text at any depth, holds a
    surrogate code point, and then [data.json] holds the text of the
    value; with one it raises [UnicodeEncodeError], for the encoder writes
    such a character as it is ([ensure_ascii=False]) and the UTF-8 file
    refuses it. *)
Theorem save_data_needs_encodable_text (env : Env) (data : json) (w : World) :
  disk_ok env = true ->
  save_data env data w
  = if text_ok data
    then Returned tt (mkWorld (app_data w)
                        (<[DATA_FILE := Utf8 (json_dumps data)]> (fs w)))
    else Raised UnicodeEncodeError (app_data w).
Proof.
  intros Hdisk. unfold save_data. rewrite Hdisk. cbn zeta.
  unfold json_dumps. by rewrite enc_surrogate.
Qed.

(** ** Records without [id] *)

Lemma without_id_key_error (ident : str) (pre post : list json)
    (hd : list (str * json)) :
  Forall has_id pre ->
  dict_get k_id hd = None ->
  without_id ident (pre ++ JDict hd :: post) = Exc KeyError.
Proof.
  intros Hpre Hid.
  induction Hpre as [ | x pre [v Hv] Hpre IH ]; cbn [app without_id].
  - cbn [py_getitem]. by rewrite Hid.
  - rewrite Hv. cbn [res_bind]. by rewrite IH.
Qed.

(** X19. Deleting needs an [id] in every record: [delete_todo] and
    [delete_habit] read [t["id"]] of each record of the collection, so
    when one record, wherever it stands, is a dict without [id] and those
    before it have one, the call raises [KeyError] for every id asked and
    leaves the session state as it is; nothing of that collection can be
    deleted. *)
Theorem delete_needs_ids (env : Env) (ident : str) (w : World)
    (d : list (str * json)) (pre post : list json) (hd : list (str * json)) :
  app_data w = JDict d ->
  Forall has_id pre ->
  dict_get k_id hd = None ->
  (dict_get k_todos d = Some (JList (pre ++ JDict hd :: post)) ->
   delete_todo env ident w = Raised KeyError (app_data w)) /\
  (dict_get k_habits d = Some (JList (pre ++ JDict hd :: post)) ->
   delete_habit env ident w = Raised KeyError (app_data w)).
Proof.
  intros Hdata Hpre Hid.
  split; intros Hlist; unfold delete_todo, delete_habit, M_bind, get_data, eval;
    rewrite Hdata; cbn [py_getitem]; rewrite Hlist; cbn [py_iter].
  - by rewrite without_id_key_error, Hdata.
  - by rewrite without_id_key_error, Hdata.
Qed.

(** * The pages *)

(** ** Sorting *)

Section sorting.
Context {A : Type} (le : A -> A -> bool).

Lemma insert_sorted_perm (x : A) (l : list A) :
  insert_sorted le x l ≡ₚ x :: l.
Proof.
  induction l as [ | y l IH ]; cbn [insert_sorted]; [ done | ].
  destruct (le x y); [ done | ].
  rewrite IH. apply Permutation_swap.
Qed.

Lemma sorted_by_perm (l : list A) : sorted_by le l ≡ₚ l.
Proof.
  induction l as [ | x l IH ]; cbn [sorted_by foldr]; [ done | ].
  fold (sorted_by le l). by rewrite insert_sorted_perm, IH.
Qed.

(** Items with the same place in the order stay as they came. *)
Lemma insert_sorted_stable (P : A -> Prop) `{!forall x, Decision (P x)}
    (x : A) (l : list A) :
  (P x -> forall y, P y -> le x y = true) ->
  filter P (insert_sorted le x l) = filter P (x :: l).
Proof.
  intros Hsame.
  induction l as [ | y l IH ]; cbn [insert_sorted]; [ done | ].
  destruct (le x y) eqn:Hxy; [ done | ].
  rewrite filter_cons, IH, !(filter_cons _ x), (filter_cons _ y).
  destruct (decide (P x)) as [ Hx | Hx ]; [ | done ].
  destruct (decide (P y)) as [ Hy | Hy ]; [ | done ].
  rewrite (Hsame Hx y Hy) in Hxy. discriminate Hxy.
Qed.

Hypothesis le_total : forall x y, le x y = false -> le y x = true.
Hypothesis le_trans : forall x y z, le x y = true -> le y z = true -> le x z = true.

Lemma insert_sorted_ordered (x : A) (l : list A) :
  StronglySorted (fun a b => le a b = true) l ->
  StronglySorted (fun a b => le a b = true) (insert_sorted le x l).
Proof.
  induction 1 as [ | y l Hl IH Hy ]; cbn [insert_sorted].
  - repeat constructor.
  - destruct (le x y) eqn:Hxy.
    + constructor; [ by constructor | ].
      constructor; [ done | ].
      eapply Forall_impl; [ exact Hy | ]. intros z Hyz. by eapply le_trans.
    + constructor; [ exact IH | ].
      rewrite insert_sorted_perm. constructor; [ by apply le_total | done ].
Qed.

Lemma sorted_by_ordered (l : list A) :
  StronglySorted (fun a b => le a b = true) (sorted_by le l).
Proof.
  induction l as [ | x l IH ]; cbn [sorted_by foldr]; [ constructor | ].
  by apply insert_sorted_ordered.
Qed.
End sorting.

Lemma str_le_refl (a : str) : str_le a a = true.
Proof.
  induction a as [ | x a IH ]; cbn [str_le]; [ done | ].
  by rewrite N.eqb_refl.
Qed.

Lemma str_le_total (a b : str) : str_le a b = false -> str_le b a = true.
Proof.
  revert b. induction a as [ | x a IH ]; intros [ | y b ]; cbn [str_le];
    try done.
  rewrite (N.eqb_sym y x).
  destruct (N.eqb_spec x y) as [ -> | Hne ]; [ apply IH | ].
  rewrite N.ltb_ge. intros Hle. apply N.ltb_lt. lia.
Qed.

Lemma str_le_trans (a b c : str) :
  str_le a b = true -> str_le b c = true -> str_le a c = true.
Proof.
  revert b c. induction a as [ | x a IH ]; intros [ | y b ] [ | z c ];
    cbn [str_le]; try done.
  destruct (N.eqb_spec x y) as [ -> | Hxy ].
  - destruct (N.eqb_spec y z) as [ -> | Hyz ]; [ apply IH | done ].
  - destruct (N.eqb_spec y z) as [ -> | Hyz ].
    + destruct (N.eqb_spec x z); done.
    + rewrite !N.ltb_lt. intros Hlt1 Hlt2.
      destruct (N.eqb_spec x z); [ lia | ]. apply N.ltb_lt. lia.
Qed.

Lemma todo_key_le_total (a b : Task) :
  todo_key_le a b = false -> todo_key_le b a = true.
Proof.
  unfold todo_key_le. destruct (task_done a), (task_done b); cbn; try done.
  all: apply str_le_total.
Qed.

Lemma todo_key_le_trans (a b c : Task) :
  todo_key_le a b = true -> todo_key_le b c = true -> todo_key_le a c = true.
Proof.
  unfold todo_key_le.
  destruct (task_done a), (task_done b), (task_done c); cbn; try done.
  all: apply str_le_trans.
Qed.

(** X15. The task list of [todo_page] on records: [todos_sorted] holds the
    tasks of the store, each as often as there; in it no task that is done
    comes before one that is not, and among tasks with the same [done] none
    comes before one with a smaller [created_at]; tasks with the same
    [done] and [created_at] keep the order of the store. *)
Theorem todos_sorted_order (ts : list Task) :
  todos_sorted ts ≡ₚ ts /\
  StronglySorted (fun a b => todo_key_le a b = true) (todos_sorted ts) /\
  (forall pre a mid b post,
     todos_sorted ts = pre ++ a :: mid ++ b :: post ->
     (task_done a = true -> task_done b = true) /\
     (task_done a = task_done b ->
      str_le (task_created_at a) (task_created_at b) = true)) /\
  (forall d created,
     filter (fun t => task_done t = d /\ task_created_at t = created)
       (todos_sorted ts)
     = filter (fun t => task_done t = d /\ task_created_at t = created) ts).
Proof.
  assert (Hsorted : StronglySorted (fun a b => todo_key_le a b = true)
                      (todos_sorted ts))
    by (apply sorted_by_ordered;
          [ apply todo_key_le_total | apply todo_key_le_trans ]).
  split; [ apply sorted_by_perm | split; [ exact Hsorted | split ] ].
  - intros pre a mid b post Heq. rewrite Heq in Hsorted.
    apply StronglySorted_app_1_r in Hsorted.
    apply StronglySorted_cons in Hsorted as [Hall _].
    rewrite Forall_app, Forall_cons in Hall. destruct Hall as (_ & Hab & _).
    unfold todo_key_le in Hab.
    destruct (task_done a), (task_done b); cbn in Hab; done.
  - clear Hsorted. intros d created. unfold todos_sorted.
    induction ts as [ | t ts IH ]; cbn [sorted_by foldr]; [ done | ].
    fold (sorted_by todo_key_le ts).
    rewrite insert_sorted_stable.
    + by rewrite !(filter_cons _ t), IH.
    + intros [Hd Hc] y [Hd' Hc']. unfold todo_key_le.
      rewrite Hd, Hd', Hc, Hc'. rewrite eqb_reflx. apply str_le_refl.
Qed.

(** ** Habits of today *)

Lemma on_first_habit_split (f : Habit -> Habit) (pre post : list Habit)
    (h : Habit) :
  habit_id h ∉ map habit_id pre ->
  on_first_habit f (habit_id h) (pre ++ h :: post) = pre ++ f h :: post.
Proof.
  intros Hpre. induction pre as [ | x pre IH ]; cbn [app on_first_habit].
  - by rewrite bool_decide_eq_true_2.
  - cbn [map] in Hpre. apply not_elem_of_cons in Hpre as [Hne Hpre].
    rewrite bool_decide_eq_false_2 by congruence. by rewrite IH.
Qed.

Lemma remove_one_other (x d : str) (l : list str) :
  d <> x -> d ∈ remove_one x l <-> d ∈ l.
Proof.
  intros Hne. induction l as [ | y l IH ]; cbn [remove_one]; [ done | ].
  case_bool_decide as Heq.
  - subst y. rewrite elem_of_cons. split; [ by right | ].
    intros [ -> | Hin ]; done.
  - by rewrite !elem_of_cons, IH.
Qed.

Lemma count_from (today : str) (hs : list Habit) (n : nat) :
  foldl (fun n h => if checked_today today h then S n else n) n hs
  = (n + done_count today hs)%nat.
Proof.
  unfold done_count. revert n.
  induction hs as [ | h hs IH ]; intros n; cbn [foldl]; [ lia | ].
  rewrite (IH (if checked_today today h then S n else n)).
  rewrite (IH (if checked_today today h then 1%nat else 0%nat)).
  destruct (checked_today today h); lia.
Qed.

Lemma done_count_cons (today : str) (h : Habit) (hs : list Habit) :
  done_count today (h :: hs)
  = ((if checked_today today h then 1 else 0) + done_count today hs)%nat.
Proof.
  unfold done_count at 1. cbn [foldl]. rewrite count_from.
  by destruct (checked_today today h).
Qed.

Lemma done_count_app (today : str) (hs hs' : list Habit) :
  done_count today (hs ++ hs')
  = (done_count today hs + done_count today hs')%nat.
Proof.
  induction hs as [ | h hs IH ]; cbn [app]; [ done | ].
  rewrite !done_count_cons, IH. lia.
Qed.

Lemma done_count_le (today : str) (hs : list Habit) :
  (done_count today hs <= length hs)%nat.
Proof.
  induction hs as [ | h hs IH ]; [ done | ].
  rewrite done_count_cons. cbn [length].
  destruct (checked_today today h); lia.
Qed.

(** X16. [toggle_habit_today] does what the checkbox asks: for the first
    habit with the id, when it lists no date twice, after the call today is
    among its dates exactly when [checked] was [True]; its id, name and
    creation time and all its other dates stay, and so do the other
    habits and the tasks. The page then counts the habit in [done_count]
    exactly when it was ticked, and [done_count] is at most the number of
    habits, so the progress shown is between 0 and 1. *)
Theorem toggle_habit_today_marks (env : Env) (completed : bool) (S : AppState)
    (files : gmap str file) (pre post : list Habit) (h : Habit) :
  habits S = pre ++ h :: post ->
  habit_id h ∉ map habit_id pre ->
  NoDup (habit_completed_dates h) ->
  exists dates,
    let h' := mkHabit (habit_id h) (habit_name h) (habit_created_at h) dates in
    let today := today_iso env in
    mem_after (toggle_habit_today env (habit_id h) completed
                 (mkWorld (state_json S) files))
      = state_json (mkState (tasks S) (pre ++ h' :: post)) /\
    checked_today today h' = completed /\
    (forall d, d <> today -> d ∈ dates <-> d ∈ habit_completed_dates h) /\
    NoDup dates /\
    done_count today (pre ++ h' :: post)
      = (done_count today pre + (if completed then 1 else 0)
         + done_count today post)%nat /\
    (done_count today (pre ++ h' :: post) <= length (habits S))%nat.
Proof.
  intros Hsplit Hpre Hnd.
  exists (habit_completed_dates (set_today (today_iso env) completed h)).
  cbn zeta.
  assert (Hh' : mkHabit (habit_id h) (habit_name h) (habit_created_at h)
                  (habit_completed_dates (set_today (today_iso env) completed h))
                = set_today (today_iso env) completed h).
  { unfold set_today. cbn zeta. destruct h as [i n a ds].
    cbn [habit_id habit_name habit_created_at habit_completed_dates].
    by repeat case_match. }
  rewrite Hh'.
  assert (Hchecked : checked_today (today_iso env)
                       (set_today (today_iso env) completed h) = completed).
  { unfold checked_today, set_today. cbn zeta.
    destruct (decide (today_iso env ∈ habit_completed_dates h)) as [ Hin | Hin ].
    - rewrite (bool_decide_eq_true_2 _ Hin).
      destruct completed; cbn [with_dates habit_completed_dates].
      + by apply bool_decide_eq_true_2.
      + apply bool_decide_eq_false_2. by apply remove_one_gone.
    - rewrite (bool_decide_eq_false_2 _ Hin).
      destruct completed; cbn [with_dates habit_completed_dates].
      + apply bool_decide_eq_true_2, elem_of_app. right.
        by apply list_elem_of_singleton.
      + by apply bool_decide_eq_false_2. }
  split; [ | split; [ exact Hchecked | split; [ | split; [ | split ] ] ] ].
  - etrans; [ exact (mem_after_run env (SetHabitToday (habit_id h) completed) S files) | ].
    cbn [step_spec]. unfold SetHabitToday_spec.
    by rewrite Hsplit, on_first_habit_split.
  - intros d Hne. unfold set_today. cbn zeta.
    destruct completed; case_bool_decide as Hin;
      cbn [with_dates habit_completed_dates]; try done.
    + rewrite elem_of_app, list_elem_of_singleton. split; [ | by left ].
      intros [ Hd | -> ]; done.
    + by apply remove_one_other.
  - by apply set_today_dates_unique.
  - rewrite done_count_app, done_count_cons, Hchecked.
    destruct completed; lia.
  - rewrite Hsplit. etrans; [ apply done_count_le | ].
    by rewrite !length_app.
Qed.

(** ** The history of a habit *)

(** X17. The history view of a habit on records: the dates are sorted from
    the greatest to the smallest, each as often as the habit lists it; the
    first ten of them are shown, all of them when there are fewer; and no
    date left out is greater than a date shown. *)
Theorem history_shows_latest (h : Habit) :
  history h ≡ₚ habit_completed_dates h /\
  StronglySorted (fun a b => str_le b a = true) (history h) /\
  history_shown h `prefix_of` history h /\
  length (history_shown h) = min 10 (length (habit_completed_dates h)) /\
  (forall s u,
     s ∈ history_shown h -> u ∈ drop 10 (history h) -> str_le u s = true).
Proof.
  assert (Hsorted : StronglySorted (fun a b => str_le b a = true) (history h)).
  { apply sorted_by_ordered.
    - intros x y. apply str_le_total.
    - intros x y z Hxy Hyz. by apply (str_le_trans z y x). }
  split; [ apply sorted_by_perm | split; [ exact Hsorted | ] ].
  split; [ apply prefix_take | split ].
  - unfold history_shown, history. rewrite length_take.
    by rewrite (Permutation_length (sorted_by_perm _ (habit_completed_dates h))).
  - intros s u Hs Hu. rewrite <- (take_drop 10 (history h)) in Hsorted.
    exact (StronglySorted_app_1_elem_of _ _ _ _ _ Hsorted Hs Hu).
Qed.

(** * The further properties on the sample data *)

Lemma in_keys (k : str) (d : list (str * json)) :
  bool_decide (k ∈ dict_keys d) = true -> k ∈ dict_keys d.
Proof. apply bool_decide_eq_true_1. Qed.

Lemma not_in_list (x : str) (l : list str) :
  bool_decide (x ∈ l) = false -> x ∉ l.
Proof. apply bool_decide_eq_false_1. Qed.

Lemma stored_dict_round_trip_witness :
  storable (JDict themed_items) = true /\
  has_collections themed_items /\
  save_data sample_env (JDict themed_items) (mkWorld default_data ∅)
    = Returned tt (mkWorld default_data
                     (<[DATA_FILE := Utf8 (json_dumps (JDict themed_items))]> ∅)) /\
  load_data second_env
    (<[DATA_FILE := Utf8 (json_dumps (JDict themed_items))]> ∅)
  = Val (JDict themed_items,
     <[DATA_FILE := Utf8 (json_dumps (JDict themed_items))]> ∅).
Proof.
  assert (Hkeys : has_collections themed_items)
    by (split; apply in_keys; vm_compute; reflexivity).
  assert (Hst : storable (JDict themed_items) = true)
    by (vm_compute; reflexivity).
  split; [ exact Hst | split; [ exact Hkeys | ] ].
  split; [ reflexivity | ].
  exact (stored_dict_round_trip sample_env second_env themed_items
           (mkWorld default_data ∅)
           (mkWorld default_data
              (<[DATA_FILE := Utf8 (json_dumps (JDict themed_items))]> ∅))
           Hst Hkeys eq_refl).
Defined.

Lemma file_follows_session_witness :
  reaches_save (AddTask (lit "call mum")) = true /\
  run sample_env (AddTask (lit "call mum")) sample_world = Returned tt added_world /\
  fs added_world !! DATA_FILE = Some (Utf8 (export_text added_world)) /\
  (forall name, name <> DATA_FILE ->
     fs added_world !! name = fs sample_world !! name).
Proof.
  split; [ reflexivity | split; [ reflexivity | ] ].
  apply (file_follows_session sample_env (AddTask (lit "call mum"))
           sample_world added_world); reflexivity.
Defined.

Lemma restart_restores_session_witness :
  reaches_save (AddTask (lit "call mum")) = true /\
  run sample_env (AddTask (lit "call mum")) (mkWorld (state_json sample_state) ∅)
    = Returned tt (mkWorld sample_data_added
                     (<[DATA_FILE := Utf8 (json_dumps sample_data_added)]> ∅)) /\
  ensure_session_state second_env None
    (<[DATA_FILE := Utf8 (json_dumps sample_data_added)]> ∅)
  = Val (mkWorld sample_data_added
           (<[DATA_FILE := Utf8 (json_dumps sample_data_added)]> ∅)).
Proof.
  split; [ reflexivity | split; [ reflexivity | ] ].
  exact (restart_restores_session sample_env second_env
           (AddTask (lit "call mum")) sample_state ∅
           (mkWorld sample_data_added
              (<[DATA_FILE := Utf8 (json_dumps sample_data_added)]> ∅))
           eq_refl eq_refl).
Defined.

Lemma load_data_settles_witness :
  exists files',
    load_data sample_env {[ DATA_FILE := Utf8 (lit "not json") ]}
      = Val (default_data, files') /\
    load_data locked_env files' = Val (default_data, files').
Proof.
  exists (<[backup_name sample_env := Utf8 (lit "not json")]>
            (delete DATA_FILE {[ DATA_FILE := Utf8 (lit "not json") ]})).
  assert (Hfirst : load_data sample_env {[ DATA_FILE := Utf8 (lit "not json") ]}
                   = Val (default_data,
                          <[backup_name sample_env := Utf8 (lit "not json")]>
                            (delete DATA_FILE
                               {[ DATA_FILE := Utf8 (lit "not json") ]}))).
  { unfold load_data. rewrite lookup_singleton_eq. reflexivity. }
  split; [ exact Hfirst | ].
  exact (load_data_settles sample_env locked_env _ _ _ Hfirst).
Defined.

Lemma toggle_todo_without_done_witness :
  dict_get k_done bare_task = None /\
  mem_after (toggle_todo sample_env (lit "t1") (mkWorld (JDict bare_task_items) ∅))
  = JDict [(k_todos, JList [JDict [(k_id, JStr (lit "t1"));
                                   (k_text, JStr (lit "buy milk"));
                                   (k_done, JBool true)]]);
           (k_habits, JList [])].
Proof.
  split; [ reflexivity | ].
  apply (toggle_todo_without_done sample_env (lit "t1")
           (mkWorld (JDict bare_task_items) ∅) bare_task_items [] [] bare_task);
    first [ reflexivity | constructor ].
Defined.

Lemma non_dict_state_raises_witness :
  load_data sample_env (fs names_world)
    = Val (app_data names_world, fs names_world) /\
  reads_state (ToggleTask (lit "t1")) = true /\
  run sample_env (ToggleTask (lit "t1")) names_world
    = Raised TypeError (JList [JStr k_todos; JStr k_habits]).
Proof.
  split; [ | split; [ reflexivity | ] ].
  - unfold names_world, load_data. cbn [fs app_data].
    rewrite lookup_singleton_eq.
    replace (load_try (Utf8 names_text))
      with (Some (JList [JStr k_todos; JStr k_habits]))
      by (vm_compute; reflexivity).
    reflexivity.
  - apply (non_dict_state_raises sample_env (ToggleTask (lit "t1")) names_world);
      [ intros d Hd; discriminate Hd | reflexivity ].
Defined.

Lemma calls_keep_other_keys_witness :
  collection (DeleteTask (lit "t1")) = Some k_todos /\
  exists d',
    mem_after (run sample_env (DeleteTask (lit "t1")) themed_world) = JDict d' /\
    dict_keys d' = dict_keys themed_items /\
    forall k, k <> k_todos -> dict_get k d' = dict_get k themed_items.
Proof.
  split; [ reflexivity | ].
  apply (calls_keep_other_keys sample_env (DeleteTask (lit "t1")) themed_world);
    reflexivity.
Defined.

Lemma add_then_delete_witness :
  (new_id sample_env ∉ task_ids sample_state) /\
  (new_id sample_env ∉ habit_ids sample_state) /\
  (forall w1,
     add_todo sample_env (lit "call mum") (mkWorld (state_json sample_state) ∅)
       = Returned tt w1 ->
     mem_after (delete_todo second_env (new_id sample_env) w1)
       = state_json sample_state) /\
  (forall w1,
     add_habit sample_env (lit "call mum") (mkWorld (state_json sample_state) ∅)
       = Returned tt w1 ->
     mem_after (delete_habit second_env (new_id sample_env) w1)
       = state_json sample_state).
Proof.
  assert (Ht : new_id sample_env ∉ task_ids sample_state)
    by (apply not_in_list; vm_compute; reflexivity).
  assert (Hh : new_id sample_env ∉ habit_ids sample_state)
    by (apply not_in_list; vm_compute; reflexivity).
  split; [ exact Ht | split; [ exact Hh | ] ].
  exact (add_then_delete sample_env second_env (lit "call mum") sample_state ∅
           Ht Hh).
Defined.

Lemma sample_texts_trimmed : texts_trimmed sample_state.
Proof.
  split; (constructor; [ | constructor ]);
    (split; [ discriminate | split; intros c Hc; vm_compute in Hc;
                             injection Hc as <-; reflexivity ]).
Qed.

Lemma texts_stay_trimmed_witness :
  texts_trimmed sample_state /\
  exists S',
    mem_after (run second_env (AddHabit (lit " read "))
                 (mkWorld (state_json sample_state) ∅)) = state_json S' /\
    texts_trimmed S' /\
    Forall (fun t => strip (task_text t) = task_text t) (tasks S') /\
    Forall (fun h => strip (habit_name h) = habit_name h) (habits S').
Proof.
  split; [ exact sample_texts_trimmed | ].
  exact (texts_stay_trimmed second_env (AddHabit (lit " read ")) sample_state ∅
           sample_texts_trimmed).
Defined.

Lemma backups_accumulate_witness :
  now_epoch sample_env <> now_epoch second_env /\
  load_try (Utf8 (lit "not json")) = None /\
  load_try (Utf8 (lit "{")) = None /\
  exists files1 files2,
    load_data sample_env {[ DATA_FILE := Utf8 (lit "not json") ]}
      = Val (default_data, files1) /\
    load_data second_env (<[DATA_FILE := Utf8 (lit "{")]> files1)
      = Val (default_data, files2) /\
    backup_name sample_env <> backup_name second_env /\
    files2 !! backup_name sample_env = Some (Utf8 (lit "not json")) /\
    files2 !! backup_name second_env = Some (Utf8 (lit "{")) /\
    files2 !! DATA_FILE = None.
Proof.
  split; [ discriminate | ].
  split; [ vm_compute; reflexivity | ].
  split; [ vm_compute; reflexivity | ].
  apply (backups_accumulate sample_env second_env
           {[ DATA_FILE := Utf8 (lit "not json") ]}
           (Utf8 (lit "not json")) (Utf8 (lit "{"))).
  - discriminate.
  - apply lookup_singleton_eq.
  - vm_compute. reflexivity.
  - vm_compute. reflexivity.
  - reflexivity.
  - reflexivity.
Defined.

Lemma save_data_needs_encodable_text_witness :
  json_loads surrogate_text = Some surrogate_data /\
  disk_ok sample_env = true /\
  save_data sample_env surrogate_data (mkWorld surrogate_data ∅)
    = Raised UnicodeEncodeError surrogate_data.
Proof.
  split; [ vm_compute; reflexivity | split; [ reflexivity | ] ].
  exact (save_data_needs_encodable_text sample_env surrogate_data
           (mkWorld surrogate_data ∅) eq_refl).
Defined.

Lemma toggle_habit_today_marks_witness :
  NoDup [lit "2026-01-04"] /\
  exists dates,
    let h' := mkHabit (lit "h1") (lit "stretch") (lit "2026-01-03T07:00:00") dates in
    let today := today_iso sample_env in
    mem_after (toggle_habit_today sample_env (lit "h1") true
                 (mkWorld (state_json sample_state) ∅))
      = state_json (mkState (tasks sample_state) ([] ++ h' :: [])) /\
    checked_today today h' = true /\
    (forall d, d <> today -> d ∈ dates <-> d ∈ [lit "2026-01-04"]) /\
    NoDup dates /\
    done_count today ([] ++ h' :: [])
      = (done_count today [] + 1 + done_count today [])%nat /\
    (done_count today ([] ++ h' :: []) <= length (habits sample_state))%nat.
Proof.
  split; [ apply NoDup_singleton | ].
  apply (toggle_habit_today_marks sample_env true sample_state ∅ [] []
           (mkHabit (lit "h1") (lit "stretch") (lit "2026-01-03T07:00:00")
              [lit "2026-01-04"])).
  - reflexivity.
  - apply not_elem_of_nil.
  - apply NoDup_singleton.
Defined.

Lemma mixed_ids_fresh : ids_fresh mixed_calls sample_state.
Proof.
  cbn [ids_fresh mixed_calls]. repeat split; intros Hask;
    try discriminate Hask; intros Hin;
    apply (bool_decide_pack _) in Hin; vm_compute in Hin; exact Hin.
Qed.

Lemma records_stay_well_formed_witness :
  well_formed sample_state /\
  exists S',
    mem_after (run_calls mixed_calls (mkWorld (state_json sample_state) ∅))
      = state_json S' /\
    well_formed S'.
Proof.
  assert (Hwf : well_formed sample_state)
    by (split; [ exact sample_ids_distinct | exact sample_dates_unique ]).
  split; [ exact Hwf | ].
  exact (records_stay_well_formed mixed_calls sample_state ∅ Hwf mixed_ids_fresh).
Defined.

Lemma delete_needs_ids_witness :
  dict_get k_id nameless_task = None /\
  delete_todo sample_env (lit "t1") (mkWorld (JDict nameless_items) ∅)
    = Raised KeyError (JDict nameless_items).
Proof.
  split; [ reflexivity | ].
  assert (Hpre : Forall has_id [sample_task])
    by (constructor; [ eexists; reflexivity | constructor ]).
  exact (proj1 (delete_needs_ids sample_env (lit "t1")
                  (mkWorld (JDict nameless_items) ∅) nameless_items
                  [sample_task] [] nameless_task eq_refl Hpre eq_refl)
           eq_refl).
Defined.
